(** * Pa11y Dashboard without MongoDB: task and result reconciliation

    A shallow embedding of the dual-persistence core of the dashboard:
    the browser-side durable store ([Pa11yPersistence], an IndexedDB
    wrapper), the list-page synchroniser, the run manager, the edit
    manager, the export/import helpers, and the in-memory webservice
    with the delete route of the server.

    JavaScript values are modelled by [jsval]; numbers are integers
    (the scripts only count and parse integers), strings are sequences
    of one-byte characters, and objects are property lists kept in
    insertion order.  Containers that the scripts use as maps (the
    [domTasks] object, the two IndexedDB object stores, the two [Map]s
    of the webservice) are finite maps keyed by strings. *)

From Stdlib Require Import ZArith Ascii String.
From stdpp Require Import gmap strings list fin_maps pretty sorting.

Local Open Scope string_scope.
Local Open Scope Z_scope.

(** ** JavaScript values and the string primitives the scripts use *)

Module Js.

#[warnings="-register-all"]
Inductive jsval : Type :=
  | JUndef
  | JNull
  | JBool (b : bool)
  | JNum (n : Z)
  | JStr (s : string)
  | JArr (l : list jsval)
  | JObj (o : list (string * jsval)).

(** A plain object: own properties in insertion order. *)
Abbreviation obj := (list (string * jsval)).

(** [o[k]] as an optional own property. *)
Fixpoint getProp (k : string) (o : obj) : option jsval :=
  match o with
  | [] => None
  | (k', v) :: o' => if String.eqb k k' then Some v else getProp k o'
  end.

(** [o[k] = v]: overwrite in place, or append a new property. *)
Fixpoint setProp (k : string) (v : jsval) (o : obj) : obj :=
  match o with
  | [] => [(k, v)]
  | (k', v') :: o' =>
      if String.eqb k k' then (k', v) :: o' else (k', v') :: setProp k v o'
  end.

(** Reading a property as an expression: a missing property is
    [undefined]. *)
Definition prop (k : string) (o : obj) : jsval :=
  default JUndef (getProp k o).

(** Property access on an arbitrary value; only objects carry the
    properties the scripts read. *)
Definition member (k : string) (v : jsval) : jsval :=
  match v with
  | JObj o => prop k o
  | _ => JUndef
  end.

(** [Object.assign(target, source)]: every own property of [source] is
    written to [target] in order. *)
Definition Object_assign (target source : obj) : obj :=
  foldl (fun acc kv => setProp kv.1 kv.2 acc) target source.

(** ToBoolean. *)
Definition truthy (v : jsval) : bool :=
  match v with
  | JUndef | JNull => false
  | JBool b => b
  | JNum n => negb (n =? 0)
  | JStr s => negb (String.eqb s "")
  | JArr _ | JObj _ => true
  end.

(** [a || b]. *)
Definition js_or (a b : jsval) : jsval := if truthy a then a else b.

Fixpoint join (sep : string) (l : list string) : string :=
  match l with
  | [] => ""
  | [s] => s
  | s :: l' => s +:+ sep +:+ join sep l'
  end.

(** ToString.  Inside [Array.prototype.join], [null] and [undefined]
    elements print as the empty string. *)
Fixpoint toStr (v : jsval) : string :=
  match v with
  | JUndef => "undefined"
  | JNull => "null"
  | JBool true => "true"
  | JBool false => "false"
  | JNum n => pretty n
  | JStr s => s
  | JArr l =>
      join "," (map (fun x => match x with
                              | JUndef | JNull => ""
                              | _ => toStr x
                              end) l)
  | JObj _ => "[object Object]"
  end.

Definition joinElem (v : jsval) : string :=
  match v with
  | JUndef | JNull => ""
  | _ => toStr v
  end.

(** [arr.join(sep)]. *)
Definition Array_join (sep : string) (l : list jsval) : string :=
  join sep (map joinElem l).

(** *** Characters *)

(** White space and line terminators among the one-byte characters:
    tab to carriage return, space, and the no-break space. *)
Definition isWs (c : ascii) : bool :=
  let n := nat_of_ascii c in
  ((9 <=? n) && (n <=? 13))%nat || (n =? 32)%nat || (n =? 160)%nat.

Definition isNL (c : ascii) : bool :=
  let n := nat_of_ascii c in (n =? 10)%nat || (n =? 13)%nat.

Definition isDigit (c : ascii) : bool :=
  let n := nat_of_ascii c in ((48 <=? n) && (n <=? 57))%nat.

Definition digitVal (c : ascii) : Z := Z.of_nat (nat_of_ascii c) - 48.

Definition lowerChar (c : ascii) : ascii :=
  let n := nat_of_ascii c in
  if ((65 <=? n) && (n <=? 90))%nat then ascii_of_nat (n + 32) else c.

(** *** String methods *)

Fixpoint toLowerCase (s : string) : string :=
  match s with
  | EmptyString => EmptyString
  | String c s' => String (lowerChar c) (toLowerCase s')
  end.

Fixpoint trimStart (s : string) : string :=
  match s with
  | EmptyString => EmptyString
  | String c s' => if isWs c then trimStart s' else s
  end.

Fixpoint trimEnd (s : string) : string :=
  match s with
  | EmptyString => EmptyString
  | String c s' =>
      match trimEnd s' with
      | EmptyString => if isWs c then EmptyString else String c EmptyString
      | r => String c r
      end
  end.

Definition trim (s : string) : string := trimEnd (trimStart s).

(** [s.charAt(0)] and [s.charAt(s.length - 1)], as optional
    characters (the empty string has neither). *)
Definition firstChar (s : string) : option ascii :=
  match s with
  | EmptyString => None
  | String c _ => Some c
  end.

Fixpoint lastChar (s : string) : option ascii :=
  match s with
  | EmptyString => None
  | String c EmptyString => Some c
  | String _ s' => lastChar s'
  end.

(** [s.slice(0, -1)]. *)
Fixpoint dropLast (s : string) : string :=
  match s with
  | EmptyString => EmptyString
  | String _ EmptyString => EmptyString
  | String c s' => String c (dropLast s')
  end.

(** [s.slice(1, -1)]. *)
Definition slice_1_m1 (s : string) : string :=
  match s with
  | EmptyString => EmptyString
  | String _ s' => dropLast s'
  end.

(** Case-insensitive prefix removal, the shape of
    [s.replace(/^prefix/i, '')] for a literal prefix; [None] when the
    prefix does not match. *)
Fixpoint stripPrefixCI (p s : string) : option string :=
  match p, s with
  | EmptyString, _ => Some s
  | String _ _, EmptyString => None
  | String a p', String b s' =>
      if Ascii.eqb (lowerChar a) (lowerChar b) then stripPrefixCI p' s'
      else None
  end.

(** [s.split(/[\r\n]+/)]: cut at every maximal run of line breaks. *)
Fixpoint splitLines_from (skip : bool) (s : string) : list string :=
  match s with
  | EmptyString => [EmptyString]
  | String c s' =>
      if isNL c then
        if skip then splitLines_from true s'
        else EmptyString :: splitLines_from true s'
      else
        match splitLines_from false s' with
        | seg :: rest => String c seg :: rest
        | [] => [String c EmptyString]
        end
  end.

Definition splitLines (s : string) : list string := splitLines_from false s.

(** [s.split(sep)] for a one-character separator. *)
Fixpoint splitChar (sep : ascii) (s : string) : list string :=
  match s with
  | EmptyString => [EmptyString]
  | String c s' =>
      if Ascii.eqb c sep then EmptyString :: splitChar sep s'
      else
        match splitChar sep s' with
        | seg :: rest => String c seg :: rest
        | [] => [String c EmptyString]
        end
  end.

(** [idx = s.indexOf(c)] together with [s.slice(0, idx)] and
    [s.slice(idx + 1)]; [None] when [idx] is [-1]. *)
Fixpoint cutAt (sep : ascii) (s : string) : option (string * string) :=
  match s with
  | EmptyString => None
  | String c s' =>
      if Ascii.eqb c sep then Some (EmptyString, s')
      else
        match cutAt sep s' with
        | Some (a, b) => Some (String c a, b)
        | None => None
        end
  end.

(** [parseInt(s, 10)]: leading white space, an optional sign, then the
    longest run of decimal digits; [None] stands for [NaN]. *)
Fixpoint digitsPrefix (acc : option Z) (s : string) : option Z :=
  match s with
  | EmptyString => acc
  | String c s' =>
      if isDigit c
      then digitsPrefix (Some (10 * default 0 acc + digitVal c)) s'
      else acc
  end.

Definition parseInt10 (s : string) : option Z :=
  match trimStart s with
  | String "-" s' => Z.opp <$> digitsPrefix None s'
  | String "+" s' => digitsPrefix None s'
  | s' => digitsPrefix None s'
  end.

(** [parseInt(s, 10) || 0]. *)
Definition parseIntOr0 (s : string) : Z := default 0 (parseInt10 s).

Definition nonEmpty (s : string) : bool := negb (String.eqb s "").

(** [a === b] between values read back from storage or parsed from
    text: primitives compare by value, while two objects or arrays are
    never the same reference. *)
Definition strictEq (a b : jsval) : bool :=
  match a, b with
  | JUndef, JUndef => true
  | JNull, JNull => true
  | JBool x, JBool y => Bool.eqb x y
  | JNum x, JNum y => x =? y
  | JStr x, JStr y => String.eqb x y
  | _, _ => false
  end.

(** Every character of the string passes the test. *)
Fixpoint allChars (p : ascii -> bool) (s : string) : bool :=
  match s with
  | EmptyString => true
  | String c s' => p c && allChars p s'
  end.

(** A string without line breaks. *)
Definition singleLine (s : string) : bool :=
  allChars (fun c => negb (isNL c)) s.

(** *** Issues as the engine reports them *)

(** [entry.type === t]. *)
Definition hasType (t : string) (entry : jsval) : bool :=
  strictEq (member "type" entry) (JStr t).

(** An issue object whose [type] is a string. *)
Definition typedIssue (issue : jsval) : bool :=
  match issue with
  | JObj o => match prop "type" o with JStr _ => true | _ => false end
  | _ => false
  end.

(** The number of entries of a list that have a given type. *)
Definition countOf (t : string) (entries : list jsval) : Z :=
  Z.of_nat (length (filter (fun e => hasType t e = true) entries)).


End Js.


(** ** The durable client store: [Pa11yPersistence] over IndexedDB

    The database has two object stores, [tasks] and [results], both
    with key path [id].  Every identifier the dashboard generates or
    looks up is a string, and the stores are modelled with string keys:
    a record whose [id] is not a string has no place in them. *)

Module Persistence.
Import Js.

Record db : Type := Db {
  tasks : gmap string obj;
  results : gmap string obj
}.

(** How a promise returned by a write settles. *)
Inductive settled : Type := Fulfilled | Rejected.

(** Evaluation of the key path [id] on a record handed to [put]. *)
Definition keyPath (o : obj) : option string :=
  match getProp "id" o with
  | Some (JStr k) => Some k
  | _ => None
  end.

(** [tx.objectStore('tasks').put(task)] in a transaction of its own;
    [put] throws when the key path yields no key, and the promise is
    rejected. *)
Definition saveTask (task : obj) (d : db) : db * settled :=
  match keyPath task with
  | Some k => (Db (<[k := task]> (tasks d)) (results d), Fulfilled)
  | None => (d, Rejected)
  end.

Definition saveResult (result : obj) (d : db) : db * settled :=
  match keyPath result with
  | Some k => (Db (tasks d) (<[k := result]> (results d)), Fulfilled)
  | None => (d, Rejected)
  end.

(** [store.get(id)]: the record, or [undefined]. *)
Definition getTask (id : string) (d : db) : option obj := tasks d !! id.

(** [store.getAll()]; the enumeration order of a store plays no role
    in what follows. *)
Definition getTasks (d : db) : list obj := (map_to_list (tasks d)).*2.

(** The cursor test [value && value.task === id]. *)
Definition belongsTo (taskId : jsval) (value : obj) : bool :=
  strictEq (prop "task" value) taskId.

(** The cursor walk of [getResultsByTask]. *)
Definition getResultsByTask (taskId : jsval) (d : db) : list obj :=
  filter (fun value => belongsTo taskId value = true)
         ((map_to_list (results d)).*2).

(** The cursor walk of [deleteTask] inside the open transaction.  The
    entries are those of the [results] store; [rs] is the working copy
    of that store; [n] numbers the write requests issued so far, and
    [reqFails] tells which write requests end in an error.  [None]
    means that a request failed, which aborts the transaction. *)
Fixpoint cursorDelete (reqFails : nat -> bool) (n : nat) (id : string)
    (entries : list (string * obj)) (rs : gmap string obj)
    : option (gmap string obj) :=
  match entries with
  | [] => Some rs
  | (k, value) :: rest =>
      if belongsTo (JStr id) value then
        if reqFails n then None
        else cursorDelete reqFails (S n) id rest (delete k rs)
      else cursorDelete reqFails n id rest rs
  end.

(** Whether the walk over [entries] deletes the record under key [k]. *)
Definition hit (id k : string) (entries : list (string * obj)) : bool :=
  existsb (fun kv => bool_decide (kv.1 = k) && belongsTo (JStr id) kv.2) entries.

(** [deleteTask(id)]: one read-write transaction over both stores.
    IndexedDB commits the writes of a transaction together when every
    request succeeded ([oncomplete]); an unhandled request error aborts
    it, which discards every write made inside it ([onerror]). *)
Definition deleteTaskWith (reqFails : nat -> bool) (id : string) (d : db)
    : db * settled :=
  if reqFails 0%nat then (d, Rejected)
  else
    let ts := delete id (tasks d) in
    match cursorDelete reqFails 1 id (map_to_list (results d)) (results d) with
    | Some rs => (Db ts rs, Fulfilled)
    | None => (d, Rejected)
    end.

(** The storage of a healthy browser: no request fails. *)
Definition noFault : nat -> bool := fun _ => false.

Definition deleteTask (id : string) (d : db) : db * settled :=
  deleteTaskWith noFault id d.

(** Every record sits under the key its [id] property names. *)
Definition db_wf (d : db) : Prop :=
  (forall k o, tasks d !! k = Some o -> keyPath o = Some k) /\
  (forall k o, results d !! k = Some o -> keyPath o = Some k).

End Persistence.

(** ** The task list page: synchronising the rendered cards with the
    durable store *)

Module TaskList.
Import Js Persistence.

(** The [div.last-run] of a card: its own text, and the text of the
    [span.run-count] appended to it, if any. *)
Record lastRun : Type := LastRun {
  lr_text : string;
  lr_run_count : option string
}.

(** A [li] of [#grid-container], reduced to the attributes and nodes
    the scripts read or write; an absent node is [None]. *)
Record card : Type := Card {
  data_role : option string;
  data_task_id : option string;
  data_keywords : option string;
  a_href : option string;
  a_title : option string;
  p_h3 : option string;
  p_h4 : option string;
  p_h5 : option string;
  li_danger : option string;
  li_warning : option string;
  li_info : option string;
  div_last_run : option lastRun;
  p_no_results : bool
}.

(** jQuery's [.text()]: the empty string for an empty selection. *)
Definition text (node : option string) : string := default "" node.

Definition lastRunText (lr : lastRun) : string :=
  lr_text lr +:+ default "" (lr_run_count lr).

(** [s.replace(/^Last run\s*/i, '')]. *)
Definition stripLastRun (s : string) : string :=
  match stripPrefixCI "Last run" s with
  | Some r => trimStart r
  | None => s
  end.

(** The standard is rendered wrapped in parentheses. *)
Definition unwrapStandard (standard : string) : string :=
  match firstChar standard, lastChar standard with
  | Some "("%char, Some ")"%char => slice_1_m1 standard
  | _, _ => standard
  end.

(** The body of the [.each] callback of [syncFromDOM]: the entry one
    rendered card contributes to [domTasks]. *)
Definition extractTask (c : card) : option (string * obj) :=
  match data_role c, data_task_id c with
  | Some role, Some id =>
      if String.eqb role "task" && nonEmpty id then
        let name := trim (text (p_h3 c)) in
        let url := trim (text (p_h4 c)) in
        let standard := unwrapStandard (trim (text (p_h5 c))) in
        let task := [("id", JStr id); ("name", JStr name);
                     ("url", JStr url); ("standard", JStr standard)] in
        match li_danger c, li_warning c, li_info c, div_last_run c with
        | Some errText, Some warnText, Some noteText, Some dateEl =>
            let lastResult := JObj
              [("date", JStr (trim (stripLastRun (lastRunText dateEl))));
               ("count", JObj [("error", JNum (parseIntOr0 errText));
                               ("warning", JNum (parseIntOr0 warnText));
                               ("notice", JNum (parseIntOr0 noteText))])] in
            Some (id, setProp "last_result" lastResult task)
        | _, _, _, _ => Some (id, task)
        end
      else None
  | _, _ => None
  end.

(** Whether the card shows the three stat widgets and the date of the
    last run. *)
Definition hasStats (c : card) : bool :=
  match li_danger c, li_warning c, li_info c, div_last_run c with
  | Some _, Some _, Some _, Some _ => true
  | _, _, _, _ => false
  end.

(** [domTasks] after the scan of the page. *)
Definition domTasksOf (view : list card) : gmap string obj :=
  foldl (fun m c => match extractTask c with
                    | Some (id, task) => <[id := task]> m
                    | None => m
                    end) ∅ view.

(** [Promise.all]: every promise runs; the whole is rejected as soon
    as one of them is. *)
Definition both (a b : settled) : settled :=
  match a, b with
  | Fulfilled, Fulfilled => Fulfilled
  | _, _ => Rejected
  end.

(** One of the [savePromises]: merge the stored record with the DOM
    record and write it back; on error, write the DOM record alone. *)
Definition saveMerged (id : string) (domTask : obj) (d : db) : db * settled :=
  let existing := getTask id d in
  let merged := Object_assign (Object_assign [] (default [] existing)) domTask in
  match saveTask merged d with
  | (d', Fulfilled) => (d', Fulfilled)
  | (d', Rejected) => saveTask domTask d'
  end.

Definition saveAll (domTasks : gmap string obj) (d : db) : db * settled :=
  foldl (fun acc kv =>
           let '(d', s) := saveMerged kv.1 kv.2 acc.1 in (d', both acc.2 s))
        (d, Fulfilled) (map_to_list domTasks).

(** [storedTasks.filter(t => !domTasks[t.id])]. *)
Definition notInDom (domTasks : gmap string obj) (t : obj) : bool :=
  match domTasks !! toStr (prop "id" t) with
  | Some _ => false
  | None => true
  end.

(** [Pa11yPersistence.deleteTask(t.id)]. *)
Definition deleteStored (t : obj) (d : db) : db * settled :=
  match prop "id" t with
  | JStr k => deleteTask k d
  | _ => (d, Rejected)
  end.

Definition deleteAll (ts : list obj) (d : db) : db * settled :=
  foldl (fun acc t =>
           let '(d', s) := deleteStored t acc.1 in (d', both acc.2 s))
        (d, Fulfilled) ts.

(** [syncFromDOM]; [deleted] tells whether the page URL carries the
    [deleted] query parameter. *)
Definition syncFromDOM (view : list card) (deleted : bool) (d : db)
    : db * settled :=
  let domTasks := domTasksOf view in
  match saveAll domTasks d with
  | (d1, Rejected) => (d1, Rejected)
  | (d1, Fulfilled) =>
      if deleted then
        deleteAll (filter (fun t => notInDom domTasks t = true) (getTasks d1)) d1
      else (d1, Fulfilled)
  end.

(** [simplifyUrl]: strip the protocol and one trailing slash. *)
Definition stripProtocol (url : string) : string :=
  match stripPrefixCI "https://" url with
  | Some r => r
  | None => default url (stripPrefixCI "http://" url)
  end.

Definition stripTrailingSlash (s : string) : string :=
  match lastChar s with
  | Some "/"%char => dropLast s
  | _ => s
  end.

Definition simplifyUrl (url : string) : string :=
  stripTrailingSlash (stripProtocol url).

Section Rendering.

(** The browser's rendering of [new Date(x)] as [DD MMM YYYY] in the
    local time zone. *)
Variable formatDate : jsval -> string.


(** The span that shows the number of stored runs. *)
Definition runCount (runs : list obj) : option string :=
  if (1 <? length runs)%nat
  then Some (" (" +:+ pretty (length runs) +:+ " runs)")
  else None.

(** The card [loadPersistedTasks] builds for a stored task; [None]
    when building it throws, which happens when [name], [standard] or
    [url] is not a string. *)
Definition syntheticCard (runs : list obj) (task : obj) : option card :=
  match prop "name" task, prop "standard" task, prop "url" task with
  | JStr name, JStr standard, JStr url =>
      let id := toStr (prop "id" task) in
      let base := Card (Some "task") (Some id)
        (Some (trim (toLowerCase name +:+ " " +:+ toLowerCase standard
                     +:+ " " +:+ simplifyUrl url)))
        (Some ("/" +:+ id))
        (Some ("Details for URL " +:+ simplifyUrl url))
        (Some name) (Some (simplifyUrl url))
        (Some ("(" +:+ standard +:+ ")")) in
      let last_result := prop "last_result" task in
      let count := member "count" last_result in
      if truthy last_result && truthy count then
        Some (base
          (Some (toStr (member "error" count) +:+ "Errors"))
          (Some (toStr (member "warning" count) +:+ "Warnings"))
          (Some (toStr (member "notice" count) +:+ "Notices"))
          (Some (LastRun ("Last run " +:+ formatDate (member "date" last_result))
                         (runCount runs)))
          false)
      else Some (base None None None None true)
  | _, _, _ => None
  end.



End Rendering.

End TaskList.

(** ** The run manager: running an analysis from the browser *)

Module RunManager.
Import Js Persistence.

(** The [counts] object of [countIssues]. *)
Record counts : Type := Counts {
  error : Z;
  warning : Z;
  notice : Z
}.

Definition countsObj (c : counts) : jsval :=
  JObj [("error", JNum (error c)); ("warning", JNum (warning c));
        ("notice", JNum (notice c))].

(** [if (typeof counts[issue.type] === 'number') counts[issue.type]++]:
    the property key is the string form of [issue.type], and only the
    three own properties of [counts] hold numbers. *)
Definition bump (type : jsval) (c : counts) : counts :=
  let key := toStr type in
  if String.eqb key "error" then Counts (error c + 1) (warning c) (notice c)
  else if String.eqb key "warning" then Counts (error c) (warning c + 1) (notice c)
  else if String.eqb key "notice" then Counts (error c) (warning c) (notice c + 1)
  else c.

(** [issue.type]; reading a property of [null] or [undefined] throws. *)
Definition issueType (issue : jsval) : option jsval :=
  match issue with
  | JUndef | JNull => None
  | _ => Some (member "type" issue)
  end.

Fixpoint tally (issues : list jsval) (c : counts) : option counts :=
  match issues with
  | [] => Some c
  | issue :: rest =>
      match issueType issue with
      | Some type => tally rest (bump type c)
      | None => None
      end
  end.

(** [countIssues]; [None] when the walk over the issues throws. *)
Definition countIssues (result : jsval) : option counts :=
  if truthy result then
    match member "issues" result with
    | JArr issues => tally issues (Counts 0 0 0)
    | _ => Some (Counts 0 0 0)
    end
  else Some (Counts 0 0 0).

(** What the user sees. *)
Inductive exn : Type :=
  | Error (message : string)
  | TypeError
  | SyntaxError
  | DataError.

Inductive effect : Type :=
  | AlertText (message : string)
  | AlertRunFailed (err : exn)
  | ConsoleError
  | Reload.

(** How [fetch('/api/run', ...)] ends: a rejection, or a response with
    its [ok] flag, its status and the outcome of [response.json()]. *)
Inductive fetched : Type :=
  | FetchError (message : string)
  | Response (ok : bool) (status : Z) (json : option jsval).

(** The run failed: [fetch] was rejected, or the response is not [ok]. *)
Definition runFailed (r : fetched) : bool :=
  match r with
  | FetchError _ => true
  | Response ok _ _ => negb ok
  end.

(** The [.task-header] of the detail page: the text of its [h1], the
    [href] of its link and the text of its standard label. *)
Record taskHeader : Type := TaskHeader {
  h1 : option string;
  link_href : option string;
  span_h5 : option string
}.

Definition unwrapStandard (standard : string) : string :=
  match firstChar standard, lastChar standard with
  | Some "("%char, Some ")"%char => slice_1_m1 standard
  | _, _ => standard
  end.

(** The minimal task read from the header when the store has none. *)
Definition taskFromHeader (taskId : string) (header : option taskHeader)
    : option obj :=
  match header with
  | None => None
  | Some h =>
      match trim <$> h1 h, link_href h, unwrapStandard <$> (trim <$> span_h5 h) with
      | Some name, Some url, Some standard =>
          if nonEmpty name && nonEmpty url && nonEmpty standard
          then Some [("id", JStr taskId); ("name", JStr name);
                     ("url", JStr url); ("standard", JStr standard)]
          else None
      | _, _, _ => None
      end
  end.

Definition setIf (cond : bool) (k : string) (v : jsval) (o : obj) : obj :=
  if cond then setProp k v o else o.

Definition nonEmptyArray (v : jsval) : bool :=
  match v with
  | JArr (_ :: _) => true
  | _ => false
  end.

(** The payload posted to [/api/run]. *)
Definition buildPayload (task : obj) : obj :=
  let p0 := [("url", prop "url" task); ("standard", prop "standard" task)] in
  let p1 := setIf (nonEmptyArray (prop "ignore" task)) "ignore" (prop "ignore" task) p0 in
  let p2 := setIf (truthy (prop "timeout" task)) "timeout" (prop "timeout" task) p1 in
  let p3 := setIf (truthy (prop "wait" task)) "wait" (prop "wait" task) p2 in
  let p4 := setIf (nonEmptyArray (prop "actions" task)) "actions" (prop "actions" task) p3 in
  let p5 := setIf (truthy (prop "username" task)) "username" (prop "username" task) p4 in
  let p6 := setIf (truthy (prop "password" task)) "password" (prop "password" task) p5 in
  let p7 := setIf (truthy (prop "hideElements" task)) "hideElements" (prop "hideElements" task) p6 in
  setIf (truthy (prop "headers" task)) "headers" (prop "headers" task) p7.

(** The [try] block of [runTask] once the response is there: build
    the result, store it, refresh the task, reload. *)
Definition storeRun (taskId resultId now : string) (task : obj)
    (pa11yResult : jsval) (d : db) : db * list effect :=
  match countIssues pa11yResult with
  | None => (d, [ConsoleError; AlertRunFailed TypeError])
  | Some c =>
      match pa11yResult with
      | JUndef | JNull => (d, [ConsoleError; AlertRunFailed TypeError])
      | _ =>
          let resultObj :=
            [("id", JStr resultId); ("task", JStr taskId);
             ("url", prop "url" task); ("name", prop "name" task);
             ("standard", prop "standard" task); ("date", JStr now);
             ("count", countsObj c);
             ("results", js_or (member "issues" pa11yResult) (JArr []));
             ("ignore", js_or (prop "ignore" task) (JArr []))] in
          match saveResult resultObj d with
          | (d1, Rejected) => (d1, [ConsoleError; AlertRunFailed DataError])
          | (d1, Fulfilled) =>
              let task' := setProp "last_result"
                (JObj [("id", JStr resultId); ("date", JStr now);
                       ("count", countsObj c)]) task in
              match saveTask task' d1 with
              | (d2, Rejected) => (d2, [ConsoleError; AlertRunFailed DataError])
              | (d2, Fulfilled) => (d2, [Reload])
              end
          end
      end
  end.

(** [runTask(taskId)].  [fetch] is the network as seen from the page,
    [resultId] the identifier [generateId] returns and [now] the
    current time in ISO form. *)
Definition runTask (fetch : obj -> fetched) (header : option taskHeader)
    (resultId now : string) (taskId : string) (d : db) : db * list effect :=
  let '(task, d0) :=
    match getTask taskId d with
    | Some t => (Some t, d)
    | None =>
        match taskFromHeader taskId header with
        | Some t => (Some t, (saveTask t d).1)
        | None => (None, d)
        end
    end in
  match task with
  | None => (d0, [AlertText "Task not found in local storage"])
  | Some task =>
      match fetch (buildPayload task) with
      | FetchError message =>
          (d0, [ConsoleError; AlertRunFailed (Error message)])
      | Response false status _ =>
          (d0, [ConsoleError;
                AlertRunFailed
                  (Error ("API request failed with status " +:+ pretty status))])
      | Response true _ None =>
          (d0, [ConsoleError; AlertRunFailed SyntaxError])
      | Response true _ (Some pa11yResult) =>
          storeRun taskId resultId now task pa11yResult d0
      end
  end.

End RunManager.

(** ** The edit manager: persisting the edit form *)

Module EditManager.
Import Js Persistence.

(** A form control: its current value and its [value] attribute. *)
Record input : Type := Input {
  val : string;
  attr_value : option string
}.

(** An [input[name="ignore[]"]] check box. *)
Record checkbox : Type := Checkbox {
  cb_value : string;
  cb_checked : bool
}.

(** The edit form: its controls by selector, and its check boxes. *)
Record editForm : Type := EditForm {
  controls : gmap string input;
  ignoreBoxes : list checkbox
}.

(** [window.location.pathname.split('/').filter(Boolean)[0]]. *)
Definition pathId (pathname : string) : option string :=
  head (filter (fun seg => nonEmpty seg = true) (splitChar "/" pathname)).

(** [setVal]: set the value and the attribute of an existing control. *)
Definition setVal (selector : string) (value : jsval) (f : editForm) : editForm :=
  match controls f !! selector with
  | Some _ =>
      EditForm (<[selector := Input (toStr value) (Some (toStr value))]> (controls f))
               (ignoreBoxes f)
  | None => f
  end.

(** [$(selector).val(text)]. *)
Definition setText (selector : string) (value : string) (f : editForm) : editForm :=
  match controls f !! selector with
  | Some el =>
      EditForm (<[selector := Input value (attr_value el)]> (controls f))
               (ignoreBoxes f)
  | None => f
  end.

(** The decimal strings that are array indices, which [Object.keys]
    lists first and in ascending order. *)
Fixpoint digitsN (acc : N) (s : string) : option N :=
  match s with
  | EmptyString => Some acc
  | String c s' =>
      if isDigit c
      then digitsN (10 * acc + N.of_nat (nat_of_ascii c) - 48)%N s'
      else None
  end.

Definition arrayIndex (s : string) : option N :=
  match s with
  | EmptyString => None
  | _ =>
      match digitsN 0 s with
      | Some n =>
          if String.eqb (pretty n) s && (n <? 4294967295)%N then Some n else None
      | None => None
      end
  end.

Definition indexKeys (o : obj) : list (N * string) :=
  omap (fun kv => (fun n => (n, kv.1)) <$> arrayIndex kv.1) o.

Definition idx_le (a b : N * string) : Prop := (a.1 <= b.1)%N.

#[local] Instance idx_le_dec : RelDecision idx_le :=
  fun a b => decide ((a.1 <= b.1)%N).

Definition Object_keys (o : obj) : list string :=
  ((merge_sort idx_le (indexKeys o)).*2
   ++ filter (fun k => arrayIndex k = None) (o.*1))%list.

(** The lines shown for [task.headers]: [key + ': ' + headers[key]]
    for every own key of the object (or index of the array). *)
Definition headerLines (headers : jsval) : list string :=
  match headers with
  | JObj o => map (fun k => k +:+ ": " +:+ toStr (prop k o)) (Object_keys o)
  | JArr l => imap (fun i v => pretty (N.of_nat i) +:+ ": " +:+ toStr v) l
  | _ => []
  end.

Definition isObject (v : jsval) : bool :=
  match v with
  | JObj _ | JArr _ | JNull => true
  | _ => false
  end.

(** [task.ignore.indexOf(value) !== -1]. *)
Definition includesStr (l : list jsval) (value : string) : bool :=
  existsb (fun x => strictEq x (JStr value)) l.

(** The line feed, ['\n']. *)
Definition newline : string := String "010" "".

(** [prepopulate]: fill the form from the stored task, if any. *)
Definition prepopulate (pathname : string) (f : editForm) (d : db) : editForm :=
  match pathId pathname with
  | None => f
  | Some id =>
      match getTask id d with
      | None => f
      | Some task =>
          let f1 := setVal "#new-task-name" (js_or (prop "name" task) (JStr "")) f in
          let f2 := setVal "#new-task-url" (js_or (prop "url" task) (JStr "")) f1 in
          let f3 := setVal "#new-task-standard" (js_or (prop "standard" task) (JStr "")) f2 in
          let f4 := setVal "#new-task-timeout" (js_or (prop "timeout" task) (JStr "")) f3 in
          let f5 := setVal "#new-task-wait" (js_or (prop "wait" task) (JStr "")) f4 in
          let f6 := setText "#new-task-actions"
                      match prop "actions" task with
                      | JArr l => Array_join newline l
                      | _ => ""
                      end f5 in
          let f7 := setVal "#new-task-username" (js_or (prop "username" task) (JStr "")) f6 in
          let f8 := setVal "#new-task-password" (js_or (prop "password" task) (JStr "")) f7 in
          let f9 := setText "#new-task-headers"
                      (if truthy (prop "headers" task) && isObject (prop "headers" task)
                       then join newline (headerLines (prop "headers" task))
                       else "") f8 in
          let f10 := setVal "#new-task-hide-elements"
                       (js_or (prop "hideElements" task) (JStr "")) f9 in
          match prop "ignore" task with
          | JArr ignore =>
              EditForm (controls f10)
                (map (fun b => Checkbox (cb_value b) (includesStr ignore (cb_value b)))
                     (ignoreBoxes f10))
          | _ => f10
          end
      end
  end.

(** [getVal]: [el.val() || el.attr('value') || ''], and [''] when the
    control does not exist. *)
Definition getVal (selector : string) (f : editForm) : string :=
  match controls f !! selector with
  | None => ""
  | Some el =>
      if nonEmpty (val el) then val el
      else match attr_value el with
           | Some a => a
           | None => ""
           end
  end.

(** [x ? x : undefined]. *)
Definition orUndefined (x : string) : jsval :=
  if nonEmpty x then JStr x else JUndef.

(** The header lines parsed into an object. *)
Definition parseHeaders (headersText : string) : obj :=
  foldl (fun headersObj line =>
           match cutAt ":" line with
           | Some (k, v) =>
               if nonEmpty (trim k) then setProp (trim k) (JStr (trim v)) headersObj
               else headersObj
           | None => headersObj
           end) [] (splitLines headersText).

(** The body of the [try] block of the submit handler, up to the
    record handed to [saveTask]. *)
Definition editedTask (f : editForm) (task : obj) : obj :=
  let t1 := setProp "name" (JStr (trim (getVal "#new-task-name" f))) task in
  let t2 := setProp "url" (JStr (trim (getVal "#new-task-url" f))) t1 in
  let t3 := setProp "standard" (JStr (trim (getVal "#new-task-standard" f))) t2 in
  let t4 := setProp "timeout" (orUndefined (trim (getVal "#new-task-timeout" f))) t3 in
  let t5 := setProp "wait" (orUndefined (trim (getVal "#new-task-wait" f))) t4 in
  let actionsText := getVal "#new-task-actions" f in
  let t6 := setProp "actions"
              (if nonEmpty actionsText
               then JArr (map JStr (filter (fun a => nonEmpty a = true)
                                           (map trim (splitLines actionsText))))
               else JArr []) t5 in
  let t7 := setProp "username" (orUndefined (getVal "#new-task-username" f)) t6 in
  let t8 := setProp "password" (orUndefined (getVal "#new-task-password" f)) t7 in
  let headersText := getVal "#new-task-headers" f in
  let t9 := setProp "headers"
              (if nonEmpty headersText
               then match parseHeaders headersText with
                    | [] => JUndef
                    | headersObj => JObj headersObj
                    end
               else JUndef) t8 in
  let t10 := setProp "hideElements"
               (orUndefined (getVal "#new-task-hide-elements" f)) t9 in
  setProp "ignore"
    (JArr (map (fun b => JStr (cb_value b))
               (filter (fun b => cb_checked b = true) (ignoreBoxes f)))) t10.

(** The submit handler; a failure inside the [try] block is logged
    and the form submission goes on. *)
Definition submit (pathname : string) (f : editForm) (d : db) : db :=
  match pathId pathname with
  | None => d
  | Some id =>
      let task := default [("id", JStr id)] (getTask id d) in
      (saveTask (editedTask f task) d).1
  end.

(** *** What a user typed, and when the form shows it again *)

(** The texts of a submitted form: the eight one-line fields, the
    lines of the actions box and the name/value pairs of the headers
    box. *)
Record submission : Type := Submission {
  s_name : string;
  s_url : string;
  s_standard : string;
  s_timeout : string;
  s_wait : string;
  s_username : string;
  s_password : string;
  s_hideElements : string;
  s_actions : list string;
  s_headers : list (string * string)
}.

Definition headerLine (kv : string * string) : string :=
  kv.1 +:+ ": " +:+ kv.2.

(** The value of each control of the form, by selector. *)
Definition formValues (s : submission) : list (string * string) :=
  [("#new-task-name", s_name s); ("#new-task-url", s_url s);
   ("#new-task-standard", s_standard s); ("#new-task-timeout", s_timeout s);
   ("#new-task-wait", s_wait s);
   ("#new-task-actions", join newline (s_actions s));
   ("#new-task-username", s_username s); ("#new-task-password", s_password s);
   ("#new-task-headers", join newline (map headerLine (s_headers s)));
   ("#new-task-hide-elements", s_hideElements s)].


(** [$(selector).val()] on the form, when the control exists. *)
Definition vals (f : editForm) (selector : string) : option string :=
  val <$> controls f !! selector.


(** The page has the ten controls of the edit form. *)
Definition complete (f : editForm) : Prop :=
  forall selector, selector ∈ (formValues (Submission "" "" "" "" "" "" "" "" [] [])).*1 ->
    is_Some (controls f !! selector).

(** A line of the actions box as the handler keeps it: not empty,
    trimmed, without line break. *)
Definition actionLine (a : string) : Prop :=
  a <> "" /\ trim a = a /\ singleLine a = true.



(** The set of checked rules of a form. *)
Definition ignored (f : editForm) (rule : string) : Prop :=
  Checkbox rule true ∈ ignoreBoxes f.

(** A property of the headers object as the handler builds it: a
    trimmed, non-empty name with a trimmed string value. *)
Definition headerEntry (kv : string * jsval) : Prop :=
  kv.1 <> "" /\ trim kv.1 = kv.1 /\ exists v, kv.2 = JStr v /\ trim v = v.

End EditManager.

(** ** Export and import of the durable store *)

Module ExportImport.
Import Js Persistence.

(** The loop of [collectData]: the results of each stored task, task
    after task. *)
Definition collectResults (ts : list obj) (d : db) : list obj :=
  foldl (fun results task =>
           (results ++ getResultsByTask (prop "id" task) d)%list) [] ts.

(** [collectData]: the document [{tasks, results}]. *)
Definition collectData (d : db) : jsval :=
  let ts := getTasks d in
  JObj [("tasks", JArr (map JObj ts));
        ("results", JArr (map JObj (collectResults ts d)))].

Inductive effect : Type :=
  | AlertImportFailed
  | ConsoleError
  | Reload.

(** [put] of an arbitrary parsed value: only an object can carry the
    key. *)
Definition putTask (t : jsval) (d : db) : db * settled :=
  match t with
  | JObj o => saveTask o d
  | _ => (d, Rejected)
  end.

Definition putResult (r : jsval) (d : db) : db * settled :=
  match r with
  | JObj o => saveResult o d
  | _ => (d, Rejected)
  end.

(** [Array.isArray(x) ? x : []]. *)
Definition arrayOrEmpty (v : jsval) : list jsval :=
  match v with
  | JArr l => l
  | _ => []
  end.

(** The writes of the import: every task, then every result, each
    failure being logged on its own. *)
Definition importRecords (parsed : jsval) (d : db) : db :=
  let tasksArray := arrayOrEmpty (member "tasks" parsed) in
  let resultsArray := arrayOrEmpty (member "results" parsed) in
  let d1 := foldl (fun acc t => (putTask t acc).1) d tasksArray in
  foldl (fun acc r => (putResult r acc).1) d1 resultsArray.

(** [reader.onload]; [parsed] is the outcome of [JSON.parse], [None]
    when the text is not JSON. *)
Definition onFileSelected (parsed : option jsval) (d : db) : db * list effect :=
  match parsed with
  | None | Some JNull | Some JUndef => (d, [ConsoleError; AlertImportFailed])
  | Some doc => (importRecords doc d, [Reload])
  end.

End ExportImport.

(** ** The in-memory webservice of the server *)

Module LocalWebservice.
Import Js.

(** The two [Map]s of [createLocalWebservice]. *)
Record store : Type := Store {
  tasks : gmap string obj;
  results : gmap string (list obj)
}.

Record counts : Type := Counts {
  error : Z;
  warning : Z;
  notice : Z
}.

Definition countsObj (c : counts) : jsval :=
  JObj [("error", JNum (error c)); ("warning", JNum (warning c));
        ("notice", JNum (notice c))].

(** [if (count[issue.type] !== undefined) count[issue.type]++], as far
    as the three tallies go. *)
Definition bump (type : jsval) (c : counts) : counts :=
  let key := toStr type in
  if String.eqb key "error" then Counts (error c + 1) (warning c) (notice c)
  else if String.eqb key "warning" then Counts (error c) (warning c + 1) (notice c)
  else if String.eqb key "notice" then Counts (error c) (warning c) (notice c + 1)
  else c.

(** The callback of [.map] in [transformResult]: count the issue and
    copy its five fields; [None] when reading the issue throws. *)
Definition message (issue : jsval) : option obj :=
  match issue with
  | JUndef | JNull => None
  | _ => Some [("code", member "code" issue); ("type", member "type" issue);
               ("message", member "message" issue);
               ("context", member "context" issue);
               ("selector", member "selector" issue)]
  end.

Fixpoint messages (issues : list jsval) (c : counts)
    : option (counts * list obj) :=
  match issues with
  | [] => Some (c, [])
  | issue :: rest =>
      match message issue with
      | None => None
      | Some m =>
          match messages rest (bump (member "type" issue) c) with
          | Some (c', ms) => Some (c', m :: ms)
          | None => None
          end
      end
  end.

(** [transformResult]; [resultId] is what [nanoid()] returns and
    [date] the current time. *)
Definition transformResult (resultId date : string) (taskId : jsval)
    (task : obj) (pa11yResult : jsval) : option obj :=
  match pa11yResult with
  | JUndef | JNull => None
  | _ =>
      match js_or (member "issues" pa11yResult) (JArr []) with
      | JArr issues =>
          match messages issues (Counts 0 0 0) with
          | Some (count, ms) =>
              Some [("id", JStr resultId); ("task", taskId);
                    ("url", prop "url" task); ("name", prop "name" task);
                    ("standard", prop "standard" task); ("date", JStr date);
                    ("count", countsObj count);
                    ("results", JArr (map JObj ms));
                    ("ignore", js_or (prop "ignore" task) (JArr []))]
          | None => None
          end
      | _ => None
      end
  end.

(** How the call of the engine ends. *)
Inductive engine : Type :=
  | Report (pa11yResult : jsval)
  | Failure (err : string).

(** What the callback receives. *)
Inductive reply : Type :=
  | Done
  | Failed (err : string).

(** [runTask(task, callback)] for the task stored under [id]: on
    success the result is pushed on the list of the task and becomes
    its [last_result]; any exception goes to the callback. *)
Definition runTask (resultId date : string) (outcome : engine)
    (id : string) (task : obj) (s : store) : store * reply :=
  match outcome with
  | Failure err => (s, Failed err)
  | Report pa11yResult =>
      match transformResult resultId date (prop "id" task) task pa11yResult with
      | None => (s, Failed "TypeError")
      | Some result =>
          match prop "id" task with
          | JStr k =>
              match results s !! k with
              | Some list =>
                  let results' := <[k := (list ++ [result])%list]> (results s) in
                  let task' := setProp "last_result" (JObj result) task in
                  (Store (<[id := task']> (tasks s)) results', Done)
              | None => (s, Failed "TypeError")
              end
          | _ => (s, Failed "TypeError")
          end
      end
  end.

(** [task(id).run(callback)]. *)
Definition run (resultId date : string) (outcome : engine) (id : string)
    (s : store) : store * reply :=
  match tasks s !! id with
  | None => (s, Failed "Task not found")
  | Some task => runTask resultId date outcome id task s
  end.

(** [task(id).remove(callback)]. *)
Definition remove (id : string) (s : store) : store * reply :=
  (Store (delete id (tasks s)) (delete id (results s)), Done).

(** *** The rest of the interface *)

(** What a callback of the form [(err, data)] receives. *)
Inductive answer (A : Type) : Type :=
  | Ok (data : A)
  | Err (message : string).
Arguments Ok {A} data.
Arguments Err {A} message.

(** [tasks.create(body, callback)]; [id] is what [nanoid()] returns. *)
Definition create (id : string) (body : jsval) (s : store) : store * answer obj :=
  if truthy body && truthy (member "url" body) && truthy (member "name" body) then
    let task :=
      [("id", JStr id);
       ("name", member "name" body);
       ("url", member "url" body);
       ("standard", js_or (member "standard" body) (JStr "WCAG2AA"));
       ("ignore", js_or (member "ignore" body) (JArr []));
       ("timeout", js_or (member "timeout" body) JUndef);
       ("wait", js_or (member "wait" body) JUndef);
       ("actions", js_or (member "actions" body) (JArr []));
       ("username", js_or (member "username" body) JUndef);
       ("password", js_or (member "password" body) JUndef);
       ("headers", js_or (member "headers" body) JUndef);
       ("hideElements", js_or (member "hideElements" body) JUndef)] in
    (Store (<[id := task]> (tasks s)) (<[id := []]> (results s)), Ok task)
  else (s, Err "Missing required fields").

(** [task(id).get(opts, callback)]: a copy of the stored task. *)
Definition get (id : string) (s : store) : answer obj :=
  match tasks s !! id with
  | None => Err "Task not found"
  | Some task => Ok (Object_assign [] task)
  end.

(** The fields [edit] may change. *)
Definition fields : list string :=
  ["name"; "url"; "standard"; "ignore"; "timeout"; "wait"; "actions";
   "username"; "password"; "headers"; "hideElements"].

(** [task(id).edit(body, callback)]: every listed field of [body]
    that is not [undefined] is written to the stored task. *)
Definition edit (id : string) (body : obj) (s : store) : store * reply :=
  match tasks s !! id with
  | None => (s, Failed "Task not found")
  | Some task =>
      let task' :=
        foldl (fun t f => match prop f body with
                          | JUndef => t
                          | v => setProp f v t
                          end) task fields in
      (Store (<[id := task']> (tasks s)) (results s), Done)
  end.

(** [task(id).results(opts, callback)]: the results, latest first. *)
Definition resultsOf (id : string) (s : store) : answer (list obj) :=
  match results s !! id with
  | None => Err "Task not found"
  | Some list => Ok (reverse list)
  end.

(** [task(id).result(rid).get(opts, callback)]. *)
Definition resultOf (id rid : string) (s : store) : answer obj :=
  match results s !! id with
  | None => Err "Task not found"
  | Some list =>
      match List.find (fun r => strictEq (prop "id" r) (JStr rid)) list with
      | Some result => Ok result
      | None => Err "Result not found"
      end
  end.

(** What the operations keep true: a stored task is an object that
    carries the id it is stored under, and it has a list of results. *)
Definition store_wf (s : store) : Prop :=
  forall id task, tasks s !! id = Some task ->
    prop "id" task = JStr id /\ NoDup (task.*1) /\ is_Some (results s !! id).

End LocalWebservice.

(** ** The delete route of the server *)

Module Route.

Inductive response : Type :=
  | Redirect (location : string).

(** [POST /:id/delete]: ask the webservice to remove the task, then
    redirect whatever the callback received.  The webservice is the
    in-memory one or a client of a remote one. *)
Definition del_post {S : Type}
    (remove : string -> S -> S * LocalWebservice.reply)
    (id : string) (s : S) : S * response :=
  let '(s', error) := remove id s in
  (s', Redirect "/?deleted").

End Route.


(** ** The result synchroniser: results of a stored run on the task page *)

Module ResultSync.
Import Js.

(** The names every plain object inherits from [Object.prototype]. *)
Definition protoNames : list string :=
  ["constructor"; "__defineGetter__"; "__defineSetter__"; "hasOwnProperty";
   "__lookupGetter__"; "__lookupSetter__"; "isPrototypeOf";
   "propertyIsEnumerable"; "toString"; "valueOf"; "__proto__"; "toLocaleString"].

(** The callback of [reduce] in [groupBy], for the keys the script
    groups by ([type] and [code], which only an object can carry).
    Reading a property of [null] or [undefined] throws; so does
    [push] on an inherited member, which [result[groupKey]] yields for
    a name of [Object.prototype].  [None] stands for the exception. *)
Definition groupStep (key : string) (acc : option obj) (item : jsval)
    : option obj :=
  match acc, item with
  | None, _ => None
  | Some _, JUndef | Some _, JNull => None
  | Some result, _ =>
      let groupKey := toStr (member key item) in
      match getProp groupKey result with
      | Some (JArr group) =>
          Some (setProp groupKey (JArr (group ++ [item])) result)
      | Some _ => None
      | None =>
          if bool_decide (groupKey ∈ protoNames) then None
          else Some (setProp groupKey (JArr [item]) result)
      end
  end.

(** [groupBy(arr, key)]. *)
Definition groupBy (arr : list jsval) (key : string) : option obj :=
  foldl (groupStep key) (Some []) arr.

(** The items [groupBy] can take. *)
Definition groupable (key : string) (item : jsval) : Prop :=
  item <> JUndef /\ item <> JNull /\ toStr (member key item) ∉ protoNames.

(** The items of a list that have a given key, in order. *)
Definition groupOf (key k : string) (arr : list jsval) : list jsval :=
  filter (fun item => toStr (member key item) = k) arr.

(** [Object.values(o)]. *)
Definition Object_values (o : obj) : list jsval :=
  map (fun k => prop k o) (EditManager.Object_keys o).

(** [group.length] of a group of issues. *)
Definition groupLength (group : jsval) : nat :=
  match group with
  | JArr items => length items
  | _ => 0
  end.

(** [groups.sort((a, b) => b.length - a.length)]: longest first, and
    groups of the same length in their former order. *)
Fixpoint insertGroup (group : jsval) (sorted : list jsval) : list jsval :=
  match sorted with
  | [] => [group]
  | h :: t =>
      if (groupLength group <? groupLength h)%nat then h :: insertGroup group t
      else group :: h :: t
  end.

Definition sortGroups (groups : list jsval) : list jsval :=
  foldr insertGroup [] groups.

(** A panel of [buildCategoryHtml]: the rule name with its badge, the
    message, the id of the collapsed details and the listed
    selectors. *)
Record panel : Type := Panel {
  rule_name : string;
  badge : nat;
  message : string;
  details_id : string;
  selectors : list string
}.

(** The panel of one group; reading [first.code] throws when the
    group is empty. *)
Definition panelOf (type : string) (idx : nat) (group : jsval) : option panel :=
  match group with
  | JArr (first :: rest) =>
      Some (Panel (toStr (member "code" first))
                  (length (first :: rest))
                  (toStr (member "message" first))
                  (type +:+ "-" +:+ pretty idx)
                  (map (fun item => toStr (member "selector" item)) (first :: rest)))
  | _ => None
  end.

Fixpoint panelsFrom (type : string) (idx : nat) (groups : list jsval)
    : option (list panel) :=
  match groups with
  | [] => Some []
  | group :: rest =>
      match panelOf type idx group, panelsFrom type (S idx) rest with
      | Some p, Some ps => Some (p :: ps)
      | _, _ => None
      end
  end.

(** [buildCategoryHtml(type, grouped)]: the panels, or none and the
    "Well done" text. *)
Definition buildCategory (type : string) (grouped : obj) : option (list panel) :=
  panelsFrom type 0 (sortGroups (Object_values grouped)).

(** The three categories, in the order of the tabs. *)
Definition types : list string := ["error"; "warning"; "notice"].

(** The issues of one type grouped by code. *)
Definition byCode (issuesByType : obj) (type : string) : option obj :=
  match js_or (prop type issuesByType) (JArr []) with
  | JArr issues => groupBy issues "code"
  | _ => None
  end.

Fixpoint byCodes (issuesByType : obj) (ts : list string)
    : option (list (string * obj)) :=
  match ts with
  | [] => Some []
  | type :: rest =>
      match byCode issuesByType type, byCodes issuesByType rest with
      | Some g, Some gs => Some ((type, g) :: gs)
      | _, _ => None
      end
  end.

(** [groupedByType] once the issues of the result are grouped. *)
Definition groupedByType (result : obj) : option (list (string * obj)) :=
  match prop "results" result with
  | JArr issues =>
      match groupBy issues "type" with
      | Some issuesByType => byCodes issuesByType types
      | None => None
      end
  | _ => Some (map (fun type => (type, [])) types)
  end.

(** [result.count && result.count[type] ? result.count[type] : 0]. *)
Definition shownCount (result : obj) (type : string) : jsval :=
  let count := prop "count" result in
  if truthy count && truthy (member type count) then member type count
  else JNum 0.

(** [type.charAt(0).toUpperCase() + type.slice(1)] for the three
    lower-case words the script uses. *)
Definition upperChar (c : ascii) : ascii :=
  let n := nat_of_ascii c in
  if ((97 <=? n) && (n <=? 122))%nat then ascii_of_nat (n - 32) else c.

Definition capitalise (s : string) : string :=
  match s with
  | EmptyString => EmptyString
  | String c s' => String (upperChar c) s'
  end.

(** A tab of the section: its link text and the panels of its pane. *)
Record tab : Type := Tab {
  tab_id : string;
  tab_label : string;
  tab_active : bool;
  tab_panels : list panel
}.

Fixpoint tabsFrom (result : obj) (idx : nat) (grouped : list (string * obj))
    : option (list tab) :=
  match grouped with
  | [] => Some []
  | (type, g) :: rest =>
      match buildCategory type g, tabsFrom result (S idx) rest with
      | Some panels, Some ts =>
          Some (Tab (type +:+ "s")
                    (capitalise type +:+ "s ( " +:+ toStr (shownCount result type)
                     +:+ " )")
                    (idx =? 0)%nat panels :: ts)
      | _, _ => None
      end
  end.

(** The section inserted for [result], the latest stored result of
    the task: the three tabs and the text of the tab of ignored
    rules.  [None] when building it throws, which the script logs. *)
Record section : Type := SectionOf {
  tabs : list tab;
  ignored_label : string
}.

Definition render (result : obj) : option section :=
  match groupedByType result with
  | None => None
  | Some grouped =>
      match tabsFrom result 0 grouped with
      | None => None
      | Some ts =>
          Some (SectionOf ts
                  ("Ignored rules ( " +:+
                   match prop "ignore" result with
                   | JArr ignore => pretty (length ignore)
                   | _ => "0"
                   end +:+ " )"))
      end
  end.

End ResultSync.

(** ** Calling the engine *)

(** A value as it arrives after [JSON.stringify] on one side and
    [JSON.parse] on the other: a property that holds [undefined] is
    left out, an [undefined] element of an array becomes [null], and
    the properties come in the order in which they are enumerated. *)
Module Json.
Import Js.

(** The properties of an object in the order of [Object.keys]. *)
Definition enumerated (o : obj) : obj :=
  map (fun k => (k, prop k o)) (EditManager.Object_keys o).

Fixpoint clone (v : jsval) : jsval :=
  match v with
  | JArr l =>
      JArr (map (fun x => match x with
                          | JUndef => JNull
                          | _ => clone x
                          end) l)
  | JObj o =>
      JObj (enumerated
              ((fix props (o : obj) : obj :=
                  match o with
                  | [] => []
                  | (k, x) :: o' =>
                      match x with
                      | JUndef => props o'
                      | _ => (k, clone x) :: props o'
                      end
                  end) o))
  | _ => v
  end.

End Json.

Module Options.
Import Js.

(** A value of the options object handed to the engine: a value of
    the task as it is, or [Number(v)] of one. *)
Inductive optval : Type :=
  | Plain (v : jsval)
  | NumberOf (v : jsval).

Abbreviation options := (list (string * optval)).

(** [options[k] = v]. *)
Fixpoint setOpt (k : string) (v : optval) (o : options) : options :=
  match o with
  | [] => [(k, v)]
  | (k', v') :: o' =>
      if String.eqb k k' then (k', v) :: o' else (k', v') :: setOpt k v o'
  end.

Definition setWhen (cond : bool) (k : string) (v : optval) (o : options)
    : options :=
  if cond then setOpt k v o else o.

Definition isArray (v : jsval) : bool :=
  match v with
  | JArr _ => true
  | _ => false
  end.

(** [Array.isArray(v) && v.length], as a condition. *)
Definition nonEmptyArray (v : jsval) : bool :=
  match v with
  | JArr (_ :: _) => true
  | _ => false
  end.

(** [taskToPa11yOptions] of the in-memory webservice. *)
Definition taskToPa11yOptions (task : obj) : options :=
  let o1 := setWhen (truthy (prop "standard" task)) "standard"
              (Plain (prop "standard" task)) [] in
  let o2 := setWhen (truthy (prop "timeout" task)) "timeout"
              (NumberOf (prop "timeout" task)) o1 in
  let o3 := setWhen (truthy (prop "wait" task)) "wait"
              (NumberOf (prop "wait" task)) o2 in
  let o4 := setWhen (nonEmptyArray (prop "actions" task)) "actions"
              (Plain (prop "actions" task)) o3 in
  let o5 := setWhen (truthy (prop "username" task)) "username"
              (Plain (prop "username" task)) o4 in
  let o6 := setWhen (truthy (prop "password" task)) "password"
              (Plain (prop "password" task)) o5 in
  let o7 := setWhen (truthy (prop "hideElements" task)) "hideElements"
              (Plain (prop "hideElements" task)) o6 in
  let o8 := setWhen (truthy (prop "headers" task)) "headers"
              (Plain (prop "headers" task)) o7 in
  setWhen (nonEmptyArray (prop "ignore" task)) "ignore"
    (Plain (prop "ignore" task)) o8.

(** The call of the engine in [runTask] of the in-memory webservice:
    [pa11y(task.url, taskToPa11yOptions(task))]. *)
Definition engineCall {R : Type} (pa11y : jsval -> options -> R) (task : obj) : R :=
  pa11y (prop "url" task) (taskToPa11yOptions task).

(** The options after the transport of their values as JSON. *)
Definition sent (o : options) : options :=
  map (fun kv => (kv.1, match kv.2 with
                        | Plain v => Plain (Json.clone v)
                        | NumberOf v => NumberOf (Json.clone v)
                        end)) o.

End Options.

(** ** The route [POST /api/run] *)

Module Api.
Import Js Options.

Inductive response : Type :=
  | BadRequest (error : string)
  | JsonBody (result : jsval)
  | Next (err : string).

(** The options the route builds from the body of the request. *)
Definition optionsOf (body : jsval) : options :=
  let o1 := setWhen (truthy (member "standard" body)) "standard"
              (Plain (member "standard" body)) [] in
  let o2 := setWhen (truthy (member "timeout" body)) "timeout"
              (NumberOf (member "timeout" body)) o1 in
  let o3 := setWhen (truthy (member "wait" body)) "wait"
              (NumberOf (member "wait" body)) o2 in
  let o4 := setWhen (isArray (member "actions" body)) "actions"
              (Plain (member "actions" body)) o3 in
  let o5 := setWhen (truthy (member "username" body)) "username"
              (Plain (member "username" body)) o4 in
  let o6 := setWhen (truthy (member "password" body)) "password"
              (Plain (member "password" body)) o5 in
  let o7 := setWhen (truthy (member "hideElements" body)) "hideElements"
              (Plain (member "hideElements" body)) o6 in
  let o8 := setWhen (truthy (member "headers" body)) "headers"
              (Plain (member "headers" body)) o7 in
  setWhen (truthy (member "ignore" body)) "ignore"
    (Plain (member "ignore" body)) o8.

(** The handler; [requestBody] is [request.body] and [pa11y] the
    engine, which answers with a report or fails. *)
Definition run (pa11y : jsval -> options -> LocalWebservice.engine)
    (requestBody : jsval) : response :=
  let body := js_or requestBody (JObj []) in
  let url := member "url" body in
  if negb (truthy url) then BadRequest "Missing url"
  else
    match pa11y url (optionsOf body) with
    | LocalWebservice.Report result => JsonBody result
    | LocalWebservice.Failure err => Next err
    end.

End Api.

(** ** The routes of a task over the webservice *)

Module TaskRoutes.
Import Js.

(** What a handler does with the response. *)
Inductive outcome : Type :=
  | Redirect (location : string)
  | RenderPlaceholder (id : string)
  | RenderTask (task : obj) (results : list obj)
  | RenderEdit (webserviceError : string) (task : obj)
  | NextError (err : string)
  | Threw.

(** [GET /:id]: the page of the task with its results, or the
    placeholder page when the webservice does not know the task; an
    error of the results request goes to [next]. *)
Definition index_get {S : Type}
    (get : string -> S -> LocalWebservice.answer obj)
    (results : string -> S -> LocalWebservice.answer (list obj))
    (id : string) (s : S) : outcome :=
  match get id s with
  | LocalWebservice.Err _ => RenderPlaceholder id
  | LocalWebservice.Ok task =>
      match results id s with
      | LocalWebservice.Err webserviceError => NextError webserviceError
      | LocalWebservice.Ok rs => RenderTask task rs
      end
  end.

(** The actions of the form as the edit route hands them on:
    [split(/[\r\n]+/)], [trim], [filter(Boolean)]. *)
Definition actionLines (text : string) : jsval :=
  JArr (map JStr (filter (fun a => nonEmpty a = true) (map trim (splitLines text)))).

(** The body of [POST /:id/edit] once the handler has normalised it;
    [httpHeaders] is the parser of the headers box.  [None] when
    [request.body.actions.split] throws, which it does when the value
    is not a string. *)
Definition normalise (httpHeaders : jsval -> jsval) (body : obj) : option obj :=
  let b1 := setProp "ignore" (js_or (prop "ignore" body) (JArr [])) body in
  let b2 := setProp "timeout" (js_or (prop "timeout" b1) JUndef) b1 in
  let b3 := setProp "wait" (js_or (prop "wait" b2) JUndef) b2 in
  let b4 :=
    if truthy (prop "actions" b3) then
      match prop "actions" b3 with
      | JStr text => Some (setProp "actions" (actionLines text) b3)
      | _ => None
      end
    else Some (setProp "actions" (JArr []) b3) in
  match b4 with
  | None => None
  | Some b4 =>
      let b5 := setProp "username" (js_or (prop "username" b4) JUndef) b4 in
      let b6 := setProp "password" (js_or (prop "password" b5) JUndef) b5 in
      let b7 := setProp "hideElements" (js_or (prop "hideElements" b6) JUndef) b6 in
      Some (setProp "headers"
              (httpHeaders (js_or (prop "headers" b7) (JStr ""))) b7)
  end.

(** The task shown again when the webservice refuses the edit. *)
Definition attempted (task body body' : obj) : obj :=
  let t1 := setProp "name" (prop "name" body') task in
  let t2 := setProp "ignore" (prop "ignore" body') t1 in
  let t3 := setProp "timeout" (prop "timeout" body') t2 in
  let t4 := setProp "wait" (prop "wait" body') t3 in
  let t5 := setProp "actions" (prop "actions" body) t4 in
  let t6 := setProp "username" (prop "username" body') t5 in
  let t7 := setProp "password" (prop "password" body') t6 in
  let t8 := setProp "headers" (prop "headers" body) t7 in
  setProp "hideElements" (prop "hideElements" body') t8.

(** [POST /:id/edit]. *)
Definition edit_post {S : Type} (httpHeaders : jsval -> jsval)
    (get : string -> S -> LocalWebservice.answer obj)
    (edit : string -> obj -> S -> S * LocalWebservice.reply)
    (id : string) (body : obj) (s : S) : S * outcome :=
  match get id s with
  | LocalWebservice.Err _ => (s, Redirect ("/" +:+ id +:+ "/edit?edited"))
  | LocalWebservice.Ok task =>
      match normalise httpHeaders body with
      | None => (s, Threw)
      | Some body' =>
          match edit id body' s with
          | (s', LocalWebservice.Failed webserviceError) =>
              (s', RenderEdit webserviceError (attempted task body body'))
          | (s', LocalWebservice.Done) =>
              (s', Redirect ("/" +:+ id +:+ "/edit?edited"))
          end
      end
  end.

(** The stores the in-memory webservice can be in: it starts empty,
    and changes by its operations only. *)
Inductive reachable : LocalWebservice.store -> Prop :=
  | reach_start : reachable (LocalWebservice.Store ∅ ∅)
  | reach_create id body s :
      reachable s -> reachable (LocalWebservice.create id body s).1
  | reach_edit id body s :
      reachable s -> reachable (LocalWebservice.edit id body s).1
  | reach_run rid date outcome id s :
      reachable s -> reachable (LocalWebservice.run rid date outcome id s).1
  | reach_remove id s :
      reachable s -> reachable (LocalWebservice.remove id s).1.

End TaskRoutes.

(** ** The history script of the task page: keeping the task in the store *)

Module TaskHistory.
Import Js Persistence.

(** The record the script builds from the header of the page when the
    store has none: the trimmed text of the [h1], the [href] of the
    link ([undefined] without a link) and the text of the standard
    label without its parentheses. *)
Definition taskOfHeader (taskId : string) (header : RunManager.taskHeader) : obj :=
  [("id", JStr taskId);
   ("name", JStr (trim (TaskList.text (RunManager.h1 header))));
   ("url", match RunManager.link_href header with
           | Some href => JStr href
           | None => JUndef
           end);
   ("standard",
    JStr (RunManager.unwrapStandard (trim (TaskList.text (RunManager.span_h5 header)))))].

(** What the [ready] handler writes; [header] is the [.task-header]
    of the page, if any.  The rest of the handler changes the page
    only. *)
Definition ready (pathname : string) (header : option RunManager.taskHeader)
    (d : db) : db :=
  match header with
  | None => d
  | Some h =>
      match EditManager.pathId pathname with
      | None => d
      | Some taskId =>
          match getTask taskId d with
          | Some _ => d
          | None => (saveTask (taskOfHeader taskId h) d).1
          end
      end
  end.

End TaskHistory.

(** ** The filter of the task list *)

Module TaskFilter.
Import Js.

(** A character of [[a-z0-9]] under the [i] flag. *)
Definition isAlnum (c : ascii) : bool :=
  let n := nat_of_ascii c in
  isDigit c || ((65 <=? n) && (n <=? 90))%nat || ((97 <=? n) && (n <=? 122))%nat.

Fixpoint keep (p : ascii -> bool) (s : string) : string :=
  match s with
  | EmptyString => EmptyString
  | String c s' => if p c then String c (keep p s') else keep p s'
  end.

(** [rawQuery.trim().replace(/[^a-z0-9\s]+/gi, '')]. *)
Definition normalise (rawQuery : string) : string :=
  keep (fun c => isAlnum c || isWs c) (trim rawQuery).

(** The alternatives of the expression built from the query,
    ['(' + query.replace(/\s+/g, '|') + ')']: the pieces of the query
    between its runs of white space. *)
Fixpoint alternatives_from (skip : bool) (s : string) : list string :=
  match s with
  | EmptyString => [EmptyString]
  | String c s' =>
      if isWs c then
        if skip then alternatives_from true s'
        else EmptyString :: alternatives_from true s'
      else
        match alternatives_from false s' with
        | seg :: rest => String c seg :: rest
        | [] => [String c EmptyString]
        end
  end.

Definition alternatives (query : string) : list string :=
  alternatives_from false query.

(** A word of letters and digits occurs in the text, whatever the
    case. *)
Fixpoint occursCI (word text : string) : bool :=
  match stripPrefixCI word text with
  | Some _ => true
  | None =>
      match text with
      | EmptyString => false
      | String _ text' => occursCI word text'
      end
  end.

(** [queryRegExp.test(keywords)]. *)
Definition test (query keywords : string) : bool :=
  existsb (fun word => occursCI word keywords) (alternatives query).

(** Whether a task card ends up hidden after a key stroke that leaves
    [rawQuery] in the input. *)
Definition hides (rawQuery : string) (c : TaskList.card) : bool :=
  let query := normalise rawQuery in
  if nonEmpty query
  then negb (test query (default "" (TaskList.data_keywords c)))
  else false.

End TaskFilter.

(** ** The run links *)

Module RunLink.
Import Js.

(** [[^\/]+\/] at the start of [s]: the rest behind the first slash,
    when at least one character stands before it. *)
Fixpoint skipSegment (seen : bool) (s : string) : option string :=
  match s with
  | EmptyString => None
  | String c s' =>
      if Ascii.eqb c "/" then (if seen then Some s' else None)
      else skipSegment true s'
  end.

(** The end of the expression: nothing, or [?] or [#] followed by
    characters that are not line breaks, up to the end. *)
Definition tailOk (t : string) : bool :=
  match t with
  | EmptyString => true
  | String c t' => (Ascii.eqb c "?" || Ascii.eqb c "#") && singleLine t'
  end.

(** [run] and the end of the expression. *)
Definition endsRun (r : string) : bool :=
  match r with
  | String "r" (String "u" (String "n" t)) => tailOk t
  | _ => false
  end.

(** The expression matched right behind a slash. *)
Definition matchHere (s : string) : bool :=
  match skipSegment false s with
  | Some r => endsRun r
  | None => false
  end.

(** The test of the expression on [href]: somewhere a slash, a
    segment that is not empty, [/run] and the end as above. *)
Fixpoint test (href : string) : bool :=
  match href with
  | EmptyString => false
  | String c s => (Ascii.eqb c "/" && matchHere s) || test s
  end.

(** What a click on a run link does: the default action of the link,
    or none and, if the second segment of the [href] is not empty, a
    run of the task it names. *)
Inductive click : Type :=
  | Default
  | Prevented (run : option string).

Definition onClick (href : option string) : click :=
  match href with
  | None => Default
  | Some h =>
      if nonEmpty h && test h then
        Prevented (match splitChar "/" h with
                   | _ :: taskId :: _ => if nonEmpty taskId then Some taskId else None
                   | _ => None
                   end)
      else Default
  end.

End RunLink.
(** * Properties *)

Import Js Persistence.

(** ** Property lists *)

Lemma getProp_setProp_eq k v o : getProp k (setProp k v o) = Some v.
Proof.
  induction o as [|[k' v'] o IH]; simpl.
  - by rewrite String.eqb_refl.
  - destruct (String.eqb k k') eqn:E; simpl; rewrite E; [done | exact IH].
Qed.

Lemma getProp_setProp_ne k k' v o :
  k <> k' -> getProp k' (setProp k v o) = getProp k' o.
Proof.
  intros Hne. induction o as [|[k0 v0] o IH]; simpl.
  - destruct (String.eqb k' k) eqn:E; [|done].
    apply String.eqb_eq in E. congruence.
  - destruct (String.eqb k k0) eqn:E; simpl.
    + apply String.eqb_eq in E. subst k0.
      destruct (String.eqb k' k) eqn:E'; [|done].
      apply String.eqb_eq in E'. congruence.
    + by rewrite IH.
Qed.

Lemma getProp_setProp k k' v o :
  getProp k' (setProp k v o) = if decide (k = k') then Some v else getProp k' o.
Proof.
  case_decide; [subst; apply getProp_setProp_eq | by apply getProp_setProp_ne].
Qed.

Lemma getProp_None k (o : obj) : k ∉ o.*1 -> getProp k o = None.
Proof.
  induction o as [|[k' v'] o IH]; simpl; [done|].
  intros Hn. apply not_elem_of_cons in Hn as [Hne Hn].
  destruct (String.eqb k k') eqn:E; [|auto].
  apply String.eqb_eq in E. congruence.
Qed.

(** [Object.assign] is a field-level union in which the source wins. *)
Lemma getProp_assign k (target source : obj) :
  NoDup (source.*1) ->
  getProp k (Object_assign target source) =
    match getProp k source with
    | Some v => Some v
    | None => getProp k target
    end.
Proof.
  unfold Object_assign. revert target.
  induction source as [|[k1 v1] s IH]; intros target Hnd; simpl; [done|].
  apply NoDup_cons in Hnd as [Hk1 Hnd]. rewrite IH by done.
  destruct (String.eqb k k1) eqn:E.
  - apply String.eqb_eq in E. subst k1.
    rewrite (getProp_None k s) by done. apply getProp_setProp_eq.
  - destruct (getProp k s); [done|].
    apply getProp_setProp_ne. intros ->. by rewrite String.eqb_refl in E.
Qed.


(** ** The durable store *)

Lemma saveTask_fulfilled task k d :
  keyPath task = Some k ->
  saveTask task d = (Db (<[k := task]> (tasks d)) (results d), Fulfilled).
Proof. intros H. unfold saveTask. by rewrite H. Qed.

Lemma saveResult_fulfilled result k d :
  keyPath result = Some k ->
  saveResult result d = (Db (tasks d) (<[k := result]> (results d)), Fulfilled).
Proof. intros H. unfold saveResult. by rewrite H. Qed.

Lemma saveTask_results task d : results (saveTask task d).1 = results d.
Proof. unfold saveTask. by destruct (keyPath task). Qed.

Lemma saveTask_wf task d : db_wf d -> db_wf (saveTask task d).1.
Proof.
  intros [Ht Hr]. unfold saveTask.
  destruct (keyPath task) as [k|] eqn:E; simpl; [|done].
  split; simpl; [|done].
  intros k' o. rewrite lookup_insert. case_decide; [|apply Ht].
  intros [= <-]. by subst.
Qed.


Lemma cursorDelete_lookup f n id entries rs rs' k :
  cursorDelete f n id entries rs = Some rs' ->
  rs' !! k = if hit id k entries then None else rs !! k.
Proof.
  revert n rs. induction entries as [|[k0 v0] rest IH]; intros n rs; simpl.
  - by intros [= ->].
  - destruct (belongsTo (JStr id) v0) eqn:Hb.
    + destruct (f n); [done|]. intros H. rewrite (IH _ _ H).
      rewrite andb_true_r. case_bool_decide as Hk; simpl.
      * subst k0. rewrite lookup_delete_eq. by destruct (hit id k rest).
      * by rewrite lookup_delete_ne.
    + rewrite andb_false_r. simpl. apply IH.
Qed.

Lemma cursorDelete_noFault n id entries rs :
  is_Some (cursorDelete noFault n id entries rs).
Proof.
  revert n rs. induction entries as [|[k0 v0] rest IH]; intros n rs; simpl; [eauto|].
  destruct (belongsTo (JStr id) v0); simpl; apply IH.
Qed.

Lemma hit_map_to_list id k (m : gmap string obj) :
  hit id k (map_to_list m) =
    match m !! k with
    | Some v => belongsTo (JStr id) v
    | None => false
    end.
Proof.
  unfold hit. destruct (m !! k) as [v|] eqn:E.
  - destruct (belongsTo (JStr id) v) eqn:Hb.
    + apply existsb_exists. exists (k, v). split.
      * apply list_elem_of_In, elem_of_map_to_list. done.
      * simpl. rewrite Hb. by rewrite bool_decide_eq_true_2.
    + apply not_true_is_false. intros H. apply existsb_exists in H as [[k1 v1] [Hin H]].
      simpl in H. apply andb_true_iff in H as [H1 H2].
      apply bool_decide_eq_true_1 in H1. subst k1.
      apply list_elem_of_In, elem_of_map_to_list in Hin. congruence.
  - apply not_true_is_false. intros H. apply existsb_exists in H as [[k1 v1] [Hin H]].
    simpl in H. apply andb_true_iff in H as [H1 H2].
    apply bool_decide_eq_true_1 in H1. subst k1.
    apply list_elem_of_In, elem_of_map_to_list in Hin. congruence.
Qed.

(** The store a fulfilled [deleteTask] leaves behind. *)
Lemma deleteTaskWith_fulfilled f id d d' :
  deleteTaskWith f id d = (d', Fulfilled) ->
  tasks d' = delete id (tasks d) /\
  forall k, results d' !! k =
    match results d !! k with
    | Some r => if belongsTo (JStr id) r then None else Some r
    | None => None
    end.
Proof.
  unfold deleteTaskWith. destruct (f 0%nat); [done|].
  destruct (cursorDelete _ _ _ _ _) as [rs|] eqn:E; [|done].
  intros [= <-]. split; [done|]. intros k. simpl.
  rewrite (cursorDelete_lookup _ _ _ _ _ _ k E), hit_map_to_list.
  destruct (results d !! k) as [r|]; [|done]. by destruct (belongsTo _ r).
Qed.

Lemma deleteTaskWith_rejected f id d d' :
  deleteTaskWith f id d = (d', Rejected) -> d' = d.
Proof.
  unfold deleteTaskWith. destruct (f 0%nat); [by intros [= <-]|].
  destruct (cursorDelete _ _ _ _ _); [done | by intros [= <-]].
Qed.

Lemma deleteTask_settles id d : (deleteTask id d).2 = Fulfilled.
Proof.
  unfold deleteTask, deleteTaskWith. simpl.
  by destruct (cursorDelete_noFault 1 id (map_to_list (results d)) (results d)) as [rs ->].
Qed.

Lemma deleteTask_wf id d : db_wf d -> db_wf (deleteTask id d).1.
Proof.
  intros [Ht Hr]. pose proof (deleteTask_settles id d) as Hs.
  destruct (deleteTask id d) as [d' s] eqn:E. simpl in *. subst s.
  apply deleteTaskWith_fulfilled in E as [Et Er]. split.
  - intros k o. rewrite Et. intros H. apply lookup_delete_Some in H as [_ H]. eauto.
  - intros k o. rewrite Er. destruct (results d !! k) as [r|] eqn:E; [|done].
    destruct (belongsTo _ r); [done|]. intros [= <-]. eauto.
Qed.


(** A failure in the middle of the cascade, after the task and one
    result were deleted inside the transaction, leaves both stores
    untouched. *)
Example deleteTask_midway_failure :
  let r1 := [("id", JStr "r1"); ("task", JStr "T")] in
  let r2 := [("id", JStr "r2"); ("task", JStr "T")] in
  let d := Db {["T" := [("id", JStr "T")]]} (<["r1" := r1]> {["r2" := r2]}) in
  deleteTaskWith (fun n => bool_decide (n = 2%nat)) "T" d = (d, Rejected).
Proof. vm_compute. reflexivity. Qed.

(** ** Import and export *)

Section ImportFacts.
Import ExportImport.

Lemma putTask_results t d : results (putTask t d).1 = results d.
Proof. destruct t; simpl; try done. apply saveTask_results. Qed.

Lemma putResult_tasks r d : tasks (putResult r d).1 = tasks d.
Proof.
  destruct r; simpl; try done. unfold saveResult. by destruct (keyPath o).
Qed.

Lemma putResults_tasks rs d :
  tasks (foldl (fun acc r => (putResult r acc).1) d rs) = tasks d.
Proof.
  revert d. induction rs as [|r rs IH]; intros d; simpl; [done|].
  by rewrite IH, putResult_tasks.
Qed.

Lemma putTasks_results ts d :
  results (foldl (fun acc t => (putTask t acc).1) d ts) = results d.
Proof.
  revert d. induction ts as [|t ts IH]; intros d; simpl; [done|].
  by rewrite IH, putTask_results.
Qed.

(** A put touches only the key of the record it is given. *)
Lemma putTask_other t d k :
  (forall o, t = JObj o -> keyPath o <> Some k) ->
  tasks (putTask t d).1 !! k = tasks d !! k.
Proof.
  intros H. destruct t; simpl; try done. unfold saveTask.
  destruct (keyPath o) as [k'|] eqn:E; simpl; [|done].
  apply lookup_insert_ne. intros ->. by apply (H o).
Qed.

Lemma putResult_other r d k :
  (forall o, r = JObj o -> keyPath o <> Some k) ->
  results (putResult r d).1 !! k = results d !! k.
Proof.
  intros H. destruct r; simpl; try done. unfold saveResult.
  destruct (keyPath o) as [k'|] eqn:E; simpl; [|done].
  apply lookup_insert_ne. intros ->. by apply (H o).
Qed.

(** After a run of puts, the key of any record of the run holds a
    record of the run: the last one with that key. *)
Lemma putTasks_last ts d t k :
  JObj t ∈ ts -> keyPath t = Some k ->
  exists t', JObj t' ∈ ts /\ keyPath t' = Some k /\
    tasks (foldl (fun acc x => (putTask x acc).1) d ts) !! k = Some t' /\
    ((forall t'', JObj t'' ∈ ts -> keyPath t'' = Some k -> t'' = t) -> t' = t).
Proof.
  induction ts as [|x ts IH] using rev_ind; intros Hin Hk.
  - by apply elem_of_nil in Hin.
  - rewrite foldl_app. simpl.
    assert ((exists o, x = JObj o /\ keyPath o = Some k) \/
            ~ (exists o, x = JObj o /\ keyPath o = Some k)) as [[o [-> Ho]]|Hx].
    { destruct x as [| | | | |l|o]; try (right; intros [? [? ?]]; discriminate).
      destruct (keyPath o) as [k'|] eqn:E.
      - destruct (decide (k' = k)) as [->|Hne]; [left; eauto|].
        right. intros [o' [[= <-] H]]. congruence.
      - right. intros [o' [[= <-] H]]. congruence. }
    + exists o. split; [apply elem_of_app; right; apply list_elem_of_singleton; done|].
      split; [done|]. split.
      * simpl. rewrite (saveTask_fulfilled _ _ _ Ho). simpl. apply lookup_insert_eq.
      * intros Hu. apply Hu; [|done].
        apply elem_of_app; right. by apply list_elem_of_singleton.
    + apply elem_of_app in Hin as [Hin|Hin].
      * destruct (IH Hin Hk) as (t' & Hin' & Hk' & Hl & Hu).
        exists t'. split; [apply elem_of_app; by left|]. split; [done|]. split.
        -- rewrite putTask_other; [done|]. intros o -> Ho. apply Hx. eauto.
        -- intros H. apply Hu. intros t'' Ht''. apply H. apply elem_of_app. by left.
      * apply list_elem_of_singleton in Hin. subst x. exfalso. apply Hx. eauto.
Qed.

End ImportFacts.

(** C6. Importing a document upserts every task record as a whole: if
    the document lists a task whose id is already in the store, then
    after the import the store holds under that id a record of the
    document (the last one listed with that id, hence the listed one
    itself when the id occurs once), whatever the record stored
    before was. *)
Theorem import_overwrites_whole_record
    (doc : obj) (imported : list jsval) (t old : obj) (k : string) (d : db) :
  prop "tasks" doc = JArr imported ->
  JObj t ∈ imported ->
  keyPath t = Some k ->
  tasks d !! k = Some old ->
  let d' := (ExportImport.onFileSelected (Some (JObj doc)) d).1 in
  exists t', JObj t' ∈ imported /\ keyPath t' = Some k /\
    tasks d' !! k = Some t' /\
    (forall field, (tasks d' !! k ≫= getProp field) = getProp field t') /\
    ((forall t'', JObj t'' ∈ imported -> keyPath t'' = Some k -> t'' = t) -> t' = t).
Proof.
  intros Hdoc Hin Hk _ d'.
  assert (tasks d' = tasks (foldl (fun acc x => (ExportImport.putTask x acc).1) d imported))
    as Hd'.
  { unfold d'. simpl. unfold ExportImport.importRecords. simpl.
    by rewrite Hdoc, putResults_tasks. }
  rewrite Hd'.
  destruct (putTasks_last imported d t k Hin Hk) as (t' & H1 & H2 & H3 & H4).
  exists t'. split; [done|]. split; [done|]. split; [done|]. split; [|done].
  intros field. by rewrite H3.
Qed.

(** The stored task had a [last_result] and a [timeout]; the imported
    one has neither, and neither survives. *)
Lemma import_overwrites_whole_record_witness :
  let old := [("id", JStr "T"); ("name", JStr "old"); ("timeout", JStr "500");
              ("last_result", JObj [("id", JStr "r")])] in
  let t := [("id", JStr "T"); ("name", JStr "new")] in
  let d := Db {["T" := old]} ∅ in
  let doc := [("tasks", JArr [JObj t]); ("results", JArr [])] in
  exists t', JObj t' ∈ [JObj t] /\ keyPath t' = Some "T" /\
    tasks (ExportImport.onFileSelected (Some (JObj doc)) d).1 !! "T" = Some t' /\
    (forall field,
       (tasks (ExportImport.onFileSelected (Some (JObj doc)) d).1 !! "T"
          ≫= getProp field) = getProp field t') /\
    ((forall t'', JObj t'' ∈ [JObj t] -> keyPath t'' = Some "T" -> t'' = t) -> t' = t).
Proof.
  intros old t d doc.
  apply (import_overwrites_whole_record doc [JObj t] t old "T" d).
  - reflexivity.
  - apply list_elem_of_singleton. reflexivity.
  - reflexivity.
  - reflexivity.
Defined.

(** ** Export *)

Lemma elem_of_getTasks t d :
  t ∈ getTasks d <-> exists k, tasks d !! k = Some t.
Proof.
  unfold getTasks. rewrite list_elem_of_fmap. split.
  - intros [[k o] [-> H]]. exists k. by apply elem_of_map_to_list in H.
  - intros [k H]. exists (k, t). split; [done|]. by apply elem_of_map_to_list.
Qed.

Lemma elem_of_getResultsByTask r taskId d :
  r ∈ getResultsByTask taskId d <->
  (exists k, results d !! k = Some r) /\ belongsTo taskId r = true.
Proof.
  unfold getResultsByTask. rewrite list_elem_of_filter, list_elem_of_fmap. split.
  - intros [Hb [[k o] [-> H]]]. split; [|done]. exists k.
    by apply elem_of_map_to_list in H.
  - intros [[k H] Hb]. split; [done|]. exists (k, r). split; [done|].
    by apply elem_of_map_to_list.
Qed.

Lemma elem_of_collectResults r ts d :
  r ∈ ExportImport.collectResults ts d <->
  exists task, task ∈ ts /\ r ∈ getResultsByTask (prop "id" task) d.
Proof.
  unfold ExportImport.collectResults.
  assert (forall acc,
    r ∈ foldl (fun results task =>
                 (results ++ getResultsByTask (prop "id" task) d)%list) acc ts <->
    r ∈ acc \/ exists task, task ∈ ts /\ r ∈ getResultsByTask (prop "id" task) d) as H.
  { induction ts as [|t ts IH]; intros acc; simpl.
    - split; [by left|]. intros [H|[? [H _]]]; [done|]. by apply elem_of_nil in H.
    - rewrite IH, elem_of_app. split.
      + intros [[H|H]|[task [H1 H2]]]; [by left| |].
        * right. exists t. split; [by left|done].
        * right. exists task. split; [by right|done].
      + intros [H|[task [H1 H2]]]; [left; by left|].
        apply elem_of_cons in H1 as [->|H1]; [left; by right|].
        right. by exists task. }
  rewrite H. split; [|by right]. intros [Hn|Hx]; [|done]. by apply elem_of_nil in Hn.
Qed.

(** C10. The export gathers results task by task, so a stored result
    whose [task] is the id of no stored task is not in the exported
    [results], although the export is made of every stored task and
    leaves the store as it is; importing the exported document into a
    store without that result does not bring it back. *)
Theorem export_omits_orphaned_results (d : db) (k : string) (r : obj) :
  db_wf d ->
  results d !! k = Some r ->
  (forall key t, tasks d !! key = Some t -> belongsTo (prop "id" t) r = false) ->
  exists ts rs,
    ExportImport.collectData d = JObj [("tasks", JArr ts); ("results", JArr rs)] /\
    (forall t, JObj t ∈ ts <-> exists key, tasks d !! key = Some t) /\
    (JObj r ∉ rs) /\
    (forall d0, results d0 !! k = None ->
       results (ExportImport.onFileSelected
                  (Some (ExportImport.collectData d)) d0).1 !! k = None).
Proof.
  intros [_ Hwf] Hr Horphan.
  assert (forall r', r' ∈ ExportImport.collectResults (getTasks d) d ->
            keyPath r' <> Some k) as Hkeys.
  { intros r' Hin Hk'. apply elem_of_collectResults in Hin as (task & Ht & Hin).
    apply elem_of_getTasks in Ht as [key Ht].
    apply elem_of_getResultsByTask in Hin as [[k' Hk] Hb].
    pose proof (Hwf _ _ Hk) as Hk2. rewrite Hk' in Hk2. injection Hk2 as <-.
    rewrite Hr in Hk. injection Hk as <-.
    rewrite (Horphan _ _ Ht) in Hb. done. }
  eexists _, _. split; [reflexivity|]. split; [|split].
  - intros t. rewrite list_elem_of_fmap. split.
    + intros [o [[= ->] H]]. by apply elem_of_getTasks.
    + intros H. exists t. split; [done|]. by apply elem_of_getTasks.
  - intros Hin. apply list_elem_of_fmap in Hin as [o [[= <-] Hin]].
    apply elem_of_collectResults in Hin as (task & Ht & Hin).
    apply elem_of_getTasks in Ht as [key Ht].
    apply elem_of_getResultsByTask in Hin as [_ Hb].
    rewrite (Horphan _ _ Ht) in Hb. done.
  - intros d0 Hd0. simpl. unfold ExportImport.importRecords. simpl.
    generalize (foldl (fun acc t => (ExportImport.putTask t acc).1) d0
                      (map JObj (getTasks d))) (putTasks_results (map JObj (getTasks d)) d0).
    intros d1 Hd1.
    assert (results d1 !! k = None) as Hstart by (by rewrite Hd1).
    clear Hd1. revert d1 Hstart.
    induction (ExportImport.collectResults (getTasks d) d) as [|r' rs IH];
      intros d1 Hstart; simpl; [done|].
    apply IH.
    + intros r'' Hin. apply Hkeys. by right.
    + change (results (ExportImport.putResult (JObj r') d1).1 !! k = None).
      rewrite putResult_other; [done|].
      intros o [= <-]. apply Hkeys. by left.
Qed.

Lemma export_omits_orphaned_results_witness :
  let r := [("id", JStr "r1"); ("task", JStr "gone")] in
  let d := Db {["T" := [("id", JStr "T")]]} {["r1" := r]} in
  exists ts rs,
    ExportImport.collectData d = JObj [("tasks", JArr ts); ("results", JArr rs)] /\
    (forall t, JObj t ∈ ts <-> exists key, tasks d !! key = Some t) /\
    (JObj r ∉ rs) /\
    (forall d0, results d0 !! "r1" = None ->
       results (ExportImport.onFileSelected
                  (Some (ExportImport.collectData d)) d0).1 !! "r1" = None).
Proof.
  intros r d. apply (export_omits_orphaned_results d "r1" r).
  - split; intros k o H; simpl in H.
    + apply lookup_singleton_Some in H as [<- <-]. reflexivity.
    + apply lookup_singleton_Some in H as [<- <-]. reflexivity.
  - reflexivity.
  - intros key t H. simpl in H. apply lookup_singleton_Some in H as [<- <-].
    reflexivity.
Defined.

(** ** The in-memory webservice and the delete route *)

(** C9. Removing a task from the in-memory webservice never fails:
    the callback receives no error whether or not the task exists,
    neither the task nor its result list is left, removing again
    changes nothing, and the delete route answers with a redirect to
    the list page carrying the [deleted] marker whatever the
    webservice reports. *)
Theorem remove_idempotent_and_delete_redirects (id : string) (s : LocalWebservice.store) :
  (LocalWebservice.remove id s).2 = LocalWebservice.Done /\
  LocalWebservice.tasks (LocalWebservice.remove id s).1 !! id = None /\
  LocalWebservice.results (LocalWebservice.remove id s).1 !! id = None /\
  LocalWebservice.remove id (LocalWebservice.remove id s).1 = LocalWebservice.remove id s /\
  (forall k, k <> id ->
     LocalWebservice.tasks (LocalWebservice.remove id s).1 !! k = LocalWebservice.tasks s !! k /\
     LocalWebservice.results (LocalWebservice.remove id s).1 !! k = LocalWebservice.results s !! k) /\
  (forall (S : Type) (remove : string -> S -> S * LocalWebservice.reply) (st : S),
     (Route.del_post remove id st).2 = Route.Redirect "/?deleted" /\
     (Route.del_post remove id st).1 = (remove id st).1).
Proof.
  unfold LocalWebservice.remove. simpl.
  split; [done|]. split; [apply lookup_delete_eq|]. split; [apply lookup_delete_eq|].
  split.
  - f_equal. f_equal; apply delete_id, lookup_delete_eq.
  - split.
    + intros k Hk. by rewrite !lookup_delete_ne.
    + intros S remove st. unfold Route.del_post. by destruct (remove id st).
Qed.

(** ** Issue counts *)

Lemma strictEq_JStr v s : strictEq v (JStr s) = true <-> v = JStr s.
Proof.
  destruct v; simpl; try (split; [done | discriminate]).
  rewrite String.eqb_eq. split; congruence.
Qed.

Lemma hasType_typed issue t :
  typedIssue issue = true ->
  hasType t issue = String.eqb (toStr (member "type" issue)) t.
Proof.
  unfold typedIssue, hasType. destruct issue; try done. simpl.
  destruct (prop "type" o); try done.
Qed.

Lemma countOf_cons t e l :
  countOf t (e :: l) = (if hasType t e then 1 else 0) + countOf t l.
Proof.
  unfold countOf. rewrite filter_cons. case_decide as E.
  - rewrite E. simpl length. lia.
  - apply not_true_is_false in E. rewrite E. lia.
Qed.


(** The three types are distinct, so a typed issue bumps one tally at
    most. *)
Lemma bump_typed issue c :
  typedIssue issue = true ->
  RunManager.error (RunManager.bump (member "type" issue) c)
    = RunManager.error c + (if hasType "error" issue then 1 else 0) /\
  RunManager.warning (RunManager.bump (member "type" issue) c)
    = RunManager.warning c + (if hasType "warning" issue then 1 else 0) /\
  RunManager.notice (RunManager.bump (member "type" issue) c)
    = RunManager.notice c + (if hasType "notice" issue then 1 else 0).
Proof.
  intros Ht. rewrite !(hasType_typed _ _ Ht). unfold RunManager.bump.
  destruct (String.eqb (toStr (member "type" issue)) "error") eqn:E1.
  { apply String.eqb_eq in E1. rewrite E1. simpl. lia. }
  destruct (String.eqb (toStr (member "type" issue)) "warning") eqn:E2.
  { apply String.eqb_eq in E2. rewrite E2. simpl. lia. }
  destruct (String.eqb (toStr (member "type" issue)) "notice") eqn:E3; simpl; lia.
Qed.


Lemma tally_typed issues c :
  forallb typedIssue issues = true ->
  exists c', RunManager.tally issues c = Some c' /\
    RunManager.error c' = RunManager.error c + countOf "error" issues /\
    RunManager.warning c' = RunManager.warning c + countOf "warning" issues /\
    RunManager.notice c' = RunManager.notice c + countOf "notice" issues.
Proof.
  revert c. induction issues as [|issue rest IH]; intros c Hall; simpl.
  - exists c. unfold countOf. simpl. repeat split; try done; lia.
  - apply andb_true_iff in Hall as [Hi Hrest].
    assert (RunManager.issueType issue = Some (member "type" issue)) as ->
      by (by destruct issue).
    destruct (IH (RunManager.bump (member "type" issue) c) Hrest) as (c' & -> & He & Hw & Hn).
    destruct (bump_typed issue c Hi) as (Be & Bw & Bn).
    exists c'. rewrite !countOf_cons. repeat split; try done; lia.
Qed.









(** ** Failed runs *)

Lemma taskFromHeader_fresh taskId header t :
  RunManager.taskFromHeader taskId header = Some t ->
  keyPath t = Some taskId /\ getProp "last_result" t = None.
Proof.
  unfold RunManager.taskFromHeader. destruct header as [h|]; [|done].
  destruct (trim <$> RunManager.h1 h); [|done].
  destruct (RunManager.link_href h); [|done].
  destruct (RunManager.unwrapStandard <$> (trim <$> RunManager.span_h5 h)); [|done].
  destruct (_ && _); [|done]. by intros [= <-].
Qed.

Lemma no_reload_after_failure e :
  RunManager.Reload ∉ [RunManager.ConsoleError; RunManager.AlertRunFailed e].
Proof.
  intros H. apply elem_of_cons in H as [H|H]; [done|].
  apply list_elem_of_singleton in H. done.
Qed.

(** C5. When the request to [/api/run] fails, the run manager writes
    no result, leaves every stored task record as it was (the whole
    database, when the task was in it), leaves the [last_result] of the
    task as it was, shows an alert and does not reload; and when the
    engine fails, the in-memory webservice keeps its state and hands
    the error to the callback. *)
Theorem failed_run_changes_nothing
    (fetch : obj -> RunManager.fetched) (header : option RunManager.taskHeader)
    (resultId now taskId : string) (d : db)
    (err date id : string) (s : LocalWebservice.store) :
  (forall payload, RunManager.runFailed (fetch payload) = true) ->
  (let '(d', effects) := RunManager.runTask fetch header resultId now taskId d in
   results d' = results d /\
   (forall k t, tasks d !! k = Some t -> tasks d' !! k = Some t) /\
   (is_Some (tasks d !! taskId) -> d' = d) /\
   (tasks d' !! taskId ≫= getProp "last_result")
     = (tasks d !! taskId ≫= getProp "last_result") /\
   (RunManager.Reload ∉ effects) /\
   ((exists e, effects = [RunManager.ConsoleError; RunManager.AlertRunFailed e]) \/
    effects = [RunManager.AlertText "Task not found in local storage"])) /\
  (LocalWebservice.run resultId date (LocalWebservice.Failure err) id s).1 = s /\
  (LocalWebservice.run resultId date (LocalWebservice.Failure err) id s).2
    <> LocalWebservice.Done.
Proof.
  intros Hfail. split.
  - unfold RunManager.runTask, getTask.
    destruct (tasks d !! taskId) as [t|] eqn:Et.
    + pose proof (Hfail (RunManager.buildPayload t)) as Hf.
      destruct (fetch (RunManager.buildPayload t)) as [m|[|] st js];
        simpl in Hf; [|done|]; simpl.
      all: split; [done|]; split; [done|]; split; [done|]; split; [by rewrite Et|].
      all: split; [by apply no_reload_after_failure | left; eauto].
    + destruct (RunManager.taskFromHeader taskId header) as [t|] eqn:Eh.
      * destruct (taskFromHeader_fresh _ _ _ Eh) as [Hk Hlr].
        rewrite (saveTask_fulfilled _ _ _ Hk). simpl.
        pose proof (Hfail (RunManager.buildPayload t)) as Hf.
        destruct (fetch (RunManager.buildPayload t)) as [m|[|] st js];
          simpl in Hf; [|done|]; simpl; rewrite lookup_insert_eq; simpl; rewrite Hlr.
        all: split; [done|]; split;
          [intros k o Hko; rewrite lookup_insert_ne; [done | congruence]|].
        all: split; [by intros [? ?]|]; split; [done|].
        all: split; [by apply no_reload_after_failure | left; eauto].
      * simpl. try rewrite Et.
        split; [done|]. split; [done|]. split; [by intros [? ?]|]. split; [done|].
        split; [|by right].
        intros H. apply list_elem_of_singleton in H. discriminate.
  - unfold LocalWebservice.run. by destruct (LocalWebservice.tasks s !! id).
Qed.

Lemma failed_run_changes_nothing_witness :
  let fetch := fun _ : obj => RunManager.Response false 500 None in
  let t := [("id", JStr "T"); ("url", JStr "https://example.com");
            ("last_result", JObj [("id", JStr "r0")])] in
  let d := Db {["T" := t]} ∅ in
  let s := LocalWebservice.Store {["T" := t]} {["T" := []]} in
  (forall payload, RunManager.runFailed (fetch payload) = true) /\
  ((let '(d', effects) := RunManager.runTask fetch None "R" "now" "T" d in
   results d' = results d /\
   (forall k t, tasks d !! k = Some t -> tasks d' !! k = Some t) /\
   (is_Some (tasks d !! "T") -> d' = d) /\
   (tasks d' !! "T" ≫= getProp "last_result")
     = (tasks d !! "T" ≫= getProp "last_result") /\
   (RunManager.Reload ∉ effects) /\
   ((exists e, effects = [RunManager.ConsoleError; RunManager.AlertRunFailed e]) \/
    effects = [RunManager.AlertText "Task not found in local storage"])) /\
  (LocalWebservice.run "R" "now" (LocalWebservice.Failure "timeout") "T" s).1 = s /\
  (LocalWebservice.run "R" "now" (LocalWebservice.Failure "timeout") "T" s).2
    <> LocalWebservice.Done).
Proof.
  intros fetch t d s. split; [reflexivity|].
  apply (failed_run_changes_nothing fetch None "R" "now" "T" d "timeout" "now" "T" s).
  reflexivity.
Defined.

(** ** The list page: what the scan extracts *)

Section SyncFacts.
Import TaskList.

(** The record read from a card carries [id], [name], [url] and
    [standard], and [last_result] exactly when the stat widgets are
    there. *)
Lemma extractTask_fields c id t :
  extractTask c = Some (id, t) ->
  data_task_id c = Some id /\
  keyPath t = Some id /\
  t.*1 = (if hasStats c
          then ["id"; "name"; "url"; "standard"; "last_result"]
          else ["id"; "name"; "url"; "standard"]) /\
  getProp "name" t = Some (JStr (trim (text (p_h3 c)))) /\
  getProp "url" t = Some (JStr (trim (text (p_h4 c)))) /\
  getProp "standard" t = Some (JStr (unwrapStandard (trim (text (p_h5 c))))).
Proof.
  unfold extractTask, hasStats.
  destruct (data_role c) as [role|]; [|done].
  destruct (data_task_id c) as [id'|]; [|done].
  destruct (_ && _); [|done].
  destruct (li_danger c), (li_warning c), (li_info c), (div_last_run c);
    intros [= <- <-]; done.
Qed.

Lemma extractTask_NoDup c id t : extractTask c = Some (id, t) -> NoDup (t.*1).
Proof.
  intros H. destruct (extractTask_fields _ _ _ H) as (_ & _ & -> & _).
  destruct (hasStats c); by apply (bool_decide_unpack _).
Qed.

(** Every entry of [domTasks] was read from a card of the page. *)
Lemma domTasksOf_from_card view id t :
  domTasksOf view !! id = Some t ->
  exists c, c ∈ view /\ extractTask c = Some (id, t).
Proof.
  unfold domTasksOf.
  assert (forall m : gmap string obj,
            foldl (fun m c => match extractTask c with
                              | Some (id, task) => <[id := task]> m
                              | None => m
                              end) m view !! id = Some t ->
            m !! id = Some t \/ exists c, c ∈ view /\ extractTask c = Some (id, t)) as H.
  { induction view as [|c view IH]; intros m; simpl; [by left|].
    intros Hf. apply IH in Hf as [Hm|(c' & Hin & Hc')].
    - destruct (extractTask c) as [[id' t']|] eqn:E; [|by left].
      rewrite lookup_insert in Hm. case_decide as Hid; [|by left].
      injection Hm as <-. subst id'. right. exists c. split; [by left|done].
    - right. exists c'. split; [by right|done]. }
  intros Hl. apply H in Hl as [Hl|Hl]; [|done]. by rewrite lookup_empty in Hl.
Qed.

Lemma domTasksOf_card view c id t :
  c ∈ view -> extractTask c = Some (id, t) -> is_Some (domTasksOf view !! id).
Proof.
  unfold domTasksOf. generalize (∅ : gmap string obj).
  induction view as [|c' view IH]; intros m Hin Hc; [by apply elem_of_nil in Hin|].
  simpl. apply elem_of_cons in Hin as [<-|Hin]; [|by apply IH].
  rewrite Hc. clear IH Hc c.
  assert (is_Some (<[id := t]> m !! id)) as Hs by (rewrite lookup_insert_eq; eauto).
  revert Hs. generalize (<[id := t]> m). clear m.
  induction view as [|c view IH]; intros m Hs; simpl; [done|].
  apply IH. destruct (extractTask c) as [[id' t']|]; [|done].
  rewrite lookup_insert. case_decide; eauto.
Qed.


(** The ids of [domTasks] are the ids of the task cards of the page. *)
Lemma domTasksOf_ids view id :
  is_Some (domTasksOf view !! id) <->
  exists c t, c ∈ view /\ extractTask c = Some (id, t).
Proof.
  split.
  - intros [t Ht]. destruct (domTasksOf_from_card _ _ _ Ht) as (c & ? & ?). eauto.
  - intros (c & t & Hin & Hc). by eapply domTasksOf_card.
Qed.

(** One save: the merged record lands under the id of the DOM record,
    and nothing else moves. *)
Lemma saveMerged_spec id domTask d :
  keyPath domTask = Some id -> NoDup (domTask.*1) ->
  saveMerged id domTask d =
    (Db (<[id := Object_assign (Object_assign [] (default [] (tasks d !! id))) domTask]>
           (tasks d))
        (results d), Fulfilled).
Proof.
  intros Hk Hnd. unfold saveMerged, getTask.
  assert (keyPath (Object_assign (Object_assign [] (default [] (tasks d !! id))) domTask)
          = Some id) as Hk'.
  { unfold keyPath in *. rewrite getProp_assign by done.
    by destruct (getProp "id" domTask) as [[]|]. }
  by rewrite (saveTask_fulfilled _ _ _ Hk').
Qed.

Lemma saveAll_fold (l : list (string * obj)) d s :
  NoDup (l.*1) ->
  (forall id t, (id, t) ∈ l -> keyPath t = Some id /\ NoDup (t.*1)) ->
  let r := foldl (fun acc kv =>
                    let '(d', s') := saveMerged kv.1 kv.2 acc.1 in (d', both acc.2 s'))
                 (d, s) l in
  r.2 = s /\ results r.1 = results d /\
  (forall id, id ∉ l.*1 -> tasks r.1 !! id = tasks d !! id) /\
  (forall id t, (id, t) ∈ l ->
     tasks r.1 !! id =
       Some (Object_assign (Object_assign [] (default [] (tasks d !! id))) t)).
Proof.
  revert d s. induction l as [|[k t] l IH]; intros d s Hnd Hl; simpl.
  - split; [done|]. split; [done|]. split; [done|].
    intros id t H. by apply elem_of_nil in H.
  - apply NoDup_cons in Hnd as [Hk Hnd]. simpl in Hk.
    destruct (Hl k t) as [Hkt Hndt]; [by left|].
    rewrite (saveMerged_spec _ _ _ Hkt Hndt). simpl.
    edestruct (IH (Db (<[k := Object_assign (Object_assign [] (default [] (tasks d !! k))) t]>
                         (tasks d)) (results d)) (both s Fulfilled) Hnd)
      as (H1 & H2 & H3 & H4).
    { intros id t' Hin. apply Hl. by right. }
    simpl in *. split; [by rewrite H1; destruct s|]. split; [done|]. split.
    + intros id Hid. apply not_elem_of_cons in Hid as [Hne Hid].
      rewrite (H3 id Hid). by apply lookup_insert_ne.
    + intros id t' Hin. apply elem_of_cons in Hin as [[= -> ->]|Hin].
      * rewrite (H3 k Hk). apply lookup_insert_eq.
      * rewrite (H4 id t' Hin). rewrite lookup_insert_ne; [done|].
        intros ->. apply Hk. apply list_elem_of_fmap. by exists (id, t').
Qed.

(** The store after the saves of [syncFromDOM]. *)
Lemma saveAll_spec view d :
  let r := saveAll (domTasksOf view) d in
  r.2 = Fulfilled /\ results r.1 = results d /\
  forall id, tasks r.1 !! id =
    match domTasksOf view !! id with
    | Some t => Some (Object_assign (Object_assign [] (default [] (tasks d !! id))) t)
    | None => tasks d !! id
    end.
Proof.
  unfold saveAll.
  edestruct (saveAll_fold (map_to_list (domTasksOf view)) d Fulfilled)
    as (H1 & H2 & H3 & H4).
  { apply NoDup_fst_map_to_list. }
  { intros id t Hin. apply elem_of_map_to_list in Hin.
    apply domTasksOf_from_card in Hin as (c & _ & Hc). split.
    - by destruct (extractTask_fields _ _ _ Hc) as (_ & ? & _).
    - by apply extractTask_NoDup in Hc. }
  split; [done|]. split; [done|]. intros id.
  destruct (domTasksOf view !! id) as [t|] eqn:E.
  - apply H4. by apply elem_of_map_to_list.
  - apply H3. intros Hin. apply list_elem_of_fmap in Hin as [[k t] [-> Hin]].
    apply elem_of_map_to_list in Hin. simpl in E. congruence.
Qed.

Lemma saveAll_wf view d : db_wf d -> db_wf (saveAll (domTasksOf view) d).1.
Proof.
  intros [Ht Hr]. destruct (saveAll_spec view d) as (_ & H2 & H3). split.
  - intros k o. rewrite H3.
    destruct (domTasksOf view !! k) as [t|] eqn:E; [|apply Ht].
    intros [= <-]. apply domTasksOf_from_card in E as (c & _ & Hc).
    pose proof (extractTask_NoDup _ _ _ Hc) as Hnd.
    destruct (extractTask_fields _ _ _ Hc) as (_ & Hk & _).
    unfold keyPath in *. rewrite getProp_assign by done.
    by destruct (getProp "id" t) as [[]|].
  - intros k o. rewrite H2. apply Hr.
Qed.

(** *** The deletions *)

(** Whether a list of stored tasks holds one with a given id. *)
Lemma deleteAll_fold ts d s :
  (forall t, t ∈ ts -> exists k, prop "id" t = JStr k) ->
  let r := foldl (fun acc t =>
                    let '(d', s') := deleteStored t acc.1 in (d', both acc.2 s'))
                 (d, s) ts in
  r.2 = s /\
  (forall k, tasks r.1 !! k =
     if existsb (fun t => strictEq (prop "id" t) (JStr k)) ts then None
     else tasks d !! k) /\
  (forall k, results r.1 !! k =
     match results d !! k with
     | Some res => if existsb (fun t => belongsTo (prop "id" t) res) ts then None
                   else Some res
     | None => None
     end).
Proof.
  revert d s. induction ts as [|t ts IH]; intros d s Hids; simpl.
  - split; [done|]. split; [done|]. intros k. by destruct (results d !! k).
  - destruct (Hids t) as [kt Hkt]; [by left|].
    assert (deleteStored t d = deleteTask kt d) as Hstep
      by (unfold deleteStored; by rewrite Hkt).
    rewrite Hstep.
    pose proof (deleteTask_settles kt d) as Hs.
    destruct (deleteTask kt d) as [d1 s1] eqn:E. simpl in Hs. subst s1.
    apply deleteTaskWith_fulfilled in E as [Et Er].
    destruct (IH d1 (both s Fulfilled)) as (H1 & H2 & H3).
    { intros t' Hin. apply Hids. by right. }
    split; [rewrite H1; by destruct s|]. split.
    + intros k. rewrite H2, Et.
      destruct (existsb _ ts); [by rewrite orb_true_r|]. rewrite orb_false_r.
      rewrite Hkt. simpl.
      destruct (String.eqb kt k) eqn:Ek.
      * apply String.eqb_eq in Ek. subst. apply lookup_delete_eq.
      * apply lookup_delete_ne. intros ->. by rewrite String.eqb_refl in Ek.
    + intros k. rewrite H3, Er. destruct (results d !! k) as [res|]; [|done].
      unfold belongsTo at 1 3. rewrite Hkt.
      by destruct (strictEq (prop "task" res) (JStr kt)).
Qed.
End SyncFacts.

Section SyncTheorems.
Import TaskList.


Lemma notInDom_id domTasks t k :
  prop "id" t = JStr k -> notInDom domTasks t = true <-> domTasks !! k = None.
Proof.
  intros Hid. unfold notInDom. rewrite Hid. simpl.
  destruct (domTasks !! k); split; congruence.
Qed.



Lemma keyPath_prop t k : keyPath t = Some k -> prop "id" t = JStr k.
Proof.
  unfold keyPath, prop. destruct (getProp "id" t) as [[]|]; try done.
  by intros [= ->].
Qed.

(** The stored tasks [syncFromDOM] deletes when the marker is there:
    those stored before whose id the page does not show. *)
Lemma stale_tasks view d t :
  db_wf d ->
  t ∈ filter (fun t => notInDom (domTasksOf view) t = true)
             (getTasks (saveAll (domTasksOf view) d).1) <->
  exists k, tasks d !! k = Some t /\ domTasksOf view !! k = None /\
            prop "id" t = JStr k.
Proof.
  intros Hwf. pose proof (saveAll_wf view d Hwf) as [Hwf1 _].
  destruct (saveAll_spec view d) as (_ & _ & Ht).
  rewrite list_elem_of_filter, elem_of_getTasks. split.
  - intros [Hnot [k Hk]]. pose proof (keyPath_prop _ _ (Hwf1 _ _ Hk)) as Hid.
    apply (notInDom_id _ _ _ Hid) in Hnot. exists k.
    rewrite Ht, Hnot in Hk. done.
  - intros (k & Hk & Hnone & Hid). split; [by apply (notInDom_id _ _ _ Hid)|].
    exists k. by rewrite Ht, Hnone.
Qed.



End SyncTheorems.

(** ** The list page: the cards built from the store *)

Section CardFacts.
Import TaskList.
Variable formatDate : jsval -> string.







End CardFacts.




(** ** Strings: lines and trimming *)

Lemma append_cons (c : ascii) (s t : string) :
  String c s +:+ t = String c (s +:+ t).
Proof. reflexivity. Qed.

Lemma append_nil_l (s : string) : "" +:+ s = s.
Proof. reflexivity. Qed.

Lemma append_nil_r (s : string) : s +:+ "" = s.
Proof. induction s as [|c s IH]; [done | by rewrite append_cons, IH]. Qed.

Lemma splitLines_from_cons skip s :
  exists seg rest, splitLines_from skip s = seg :: rest.
Proof.
  revert skip. induction s as [|c s IH]; intros skip; simpl; [eauto|].
  destruct (isNL c).
  - destruct skip; [apply IH | eauto].
  - destruct (IH false) as (seg & rest & ->). eauto.
Qed.






Lemma nonEmpty_true s : nonEmpty s = true <-> s <> "".
Proof.
  unfold nonEmpty. rewrite negb_true_iff. split.
  - intros H ->. by rewrite String.eqb_refl in H.
  - intros H. apply not_true_is_false. intros E. by apply String.eqb_eq in E.
Qed.






Lemma allChars_weaken (p q : ascii -> bool) (s : string) :
  (forall c, p c = true -> q c = true) -> allChars p s = true -> allChars q s = true.
Proof.
  intros Hpq. induction s as [|c s IH]; simpl; [done|].
  intros H. apply andb_true_iff in H as [Hc Hs].
  by rewrite (Hpq c Hc), (IH Hs).
Qed.


(** ** The edit form *)

Section EditFacts.
Import EditManager.

Ltac read_prop :=
  unfold prop;
  repeat (rewrite getProp_setProp; case_decide; [try discriminate|]);
  try done.

(** What the submit handler writes, field by field. *)
Lemma editedTask_id f task : getProp "id" (editedTask f task) = getProp "id" task.
Proof. unfold editedTask. by rewrite !getProp_setProp_ne by discriminate. Qed.

Lemma editedTask_name f task :
  prop "name" (editedTask f task) = JStr (trim (getVal "#new-task-name" f)).
Proof. unfold editedTask. read_prop. Qed.

Lemma editedTask_url f task :
  prop "url" (editedTask f task) = JStr (trim (getVal "#new-task-url" f)).
Proof. unfold editedTask. read_prop. Qed.

Lemma editedTask_standard f task :
  prop "standard" (editedTask f task) = JStr (trim (getVal "#new-task-standard" f)).
Proof. unfold editedTask. read_prop. Qed.

Lemma editedTask_timeout f task :
  prop "timeout" (editedTask f task)
    = orUndefined (trim (getVal "#new-task-timeout" f)).
Proof. unfold editedTask. read_prop. Qed.

Lemma editedTask_wait f task :
  prop "wait" (editedTask f task) = orUndefined (trim (getVal "#new-task-wait" f)).
Proof. unfold editedTask. read_prop. Qed.

Lemma editedTask_actions f task :
  prop "actions" (editedTask f task) =
    if nonEmpty (getVal "#new-task-actions" f)
    then JArr (map JStr (filter (fun a => nonEmpty a = true)
                                (map trim (splitLines (getVal "#new-task-actions" f)))))
    else JArr [].
Proof. unfold editedTask. read_prop. Qed.

Lemma editedTask_username f task :
  prop "username" (editedTask f task) = orUndefined (getVal "#new-task-username" f).
Proof. unfold editedTask. read_prop. Qed.

Lemma editedTask_password f task :
  prop "password" (editedTask f task) = orUndefined (getVal "#new-task-password" f).
Proof. unfold editedTask. read_prop. Qed.

Lemma editedTask_headers f task :
  prop "headers" (editedTask f task) =
    if nonEmpty (getVal "#new-task-headers" f)
    then match parseHeaders (getVal "#new-task-headers" f) with
         | [] => JUndef
         | headersObj => JObj headersObj
         end
    else JUndef.
Proof. unfold editedTask. read_prop. Qed.

Lemma editedTask_hideElements f task :
  prop "hideElements" (editedTask f task)
    = orUndefined (getVal "#new-task-hide-elements" f).
Proof. unfold editedTask. read_prop. Qed.

Lemma editedTask_ignore f task :
  prop "ignore" (editedTask f task) =
    JArr (map (fun b => JStr (cb_value b))
              (filter (fun b => cb_checked b = true) (ignoreBoxes f))).
Proof. unfold editedTask. read_prop. Qed.








End EditFacts.

Section RoundTrip.
Import EditManager.


Lemma toStr_or_str s : toStr (js_or (JStr s) (JStr "")) = s.
Proof.
  unfold js_or. simpl. destruct (String.eqb s "") eqn:E; [|done].
  apply String.eqb_eq in E. by subst.
Qed.




Lemma setProp_fresh k v (o : obj) :
  k ∉ o.*1 -> setProp k v o = (o ++ [(k, v)])%list.
Proof.
  induction o as [|[k0 v0] o IH]; simpl; [done|].
  intros Hn. apply not_elem_of_cons in Hn as [Hne Hn].
  destruct (String.eqb k k0) eqn:E.
  - apply String.eqb_eq in E. done.
  - by rewrite IH.
Qed.







End RoundTrip.

Section RoundTripTheorem.
Import EditManager.

Lemma submit_spec pathname id f d :
  db_wf d -> pathId pathname = Some id ->
  submit pathname f d =
    Db (<[id := editedTask f (default [("id", JStr id)] (tasks d !! id))]> (tasks d))
       (results d).
Proof.
  intros [Hwf _] Hpath. unfold submit, getTask. rewrite Hpath.
  assert (keyPath (default [("id", JStr id)] (tasks d !! id)) = Some id) as Hk.
  { destruct (tasks d !! id) as [t|] eqn:E; simpl; [by apply Hwf | done]. }
  assert (keyPath (editedTask f (default [("id", JStr id)] (tasks d !! id))) = Some id)
    as Hk' by (unfold keyPath in *; by rewrite editedTask_id).
  by rewrite (saveTask_fulfilled _ _ _ Hk').
Qed.

Lemma ignored_checked f rule :
  ignored f rule <->
  rule ∈ map cb_value (filter (fun b => cb_checked b = true) (ignoreBoxes f)).
Proof.
  unfold ignored. rewrite list_elem_of_fmap. split.
  - intros Hin. exists (Checkbox rule true). split; [done|].
    by apply list_elem_of_filter.
  - intros ([v c] & -> & Hin). apply list_elem_of_filter in Hin as [Hc Hin].
    simpl in *. by subst c.
Qed.



End RoundTripTheorem.



(** * Further properties *)

(** ** The in-memory webservice as a whole *)

Section WebserviceFacts.
Import LocalWebservice.

Lemma setProp_keys k v (o : obj) :
  (setProp k v o).*1 = if bool_decide (k ∈ o.*1) then o.*1 else (o.*1 ++ [k])%list.
Proof.
  induction o as [|[k0 v0] o IH]; [done|]. cbn [setProp].
  destruct (String.eqb k k0) eqn:E.
  - apply String.eqb_eq in E. subst k0. rewrite !fmap_cons. cbn [fst].
    rewrite bool_decide_eq_true_2 by (by left). done.
  - rewrite !fmap_cons. cbn [fst]. rewrite IH. assert (k <> k0) as Hne.
    { intros ->. by rewrite String.eqb_refl in E. }
    destruct (bool_decide (k ∈ o.*1)) eqn:Eb.
    + apply bool_decide_eq_true_1 in Eb.
      rewrite bool_decide_eq_true_2 by (by right). done.
    + apply bool_decide_eq_false_1 in Eb.
      rewrite bool_decide_eq_false_2; [done|].
      intros Hin. apply elem_of_cons in Hin as [?|?]; done.
Qed.

Lemma setProp_NoDup k v (o : obj) : NoDup (o.*1) -> NoDup ((setProp k v o).*1).
Proof.
  intros Hnd. rewrite setProp_keys. case_bool_decide as Hin; [done|].
  apply NoDup_app. split; [done|]. split.
  - intros x Hx Hk. apply list_elem_of_singleton in Hk. by subst.
  - apply NoDup_singleton.
Qed.

Lemma assign_fresh (acc o : obj) :
  NoDup (o.*1) -> (forall k, k ∈ o.*1 -> k ∉ acc.*1) ->
  Object_assign acc o = (acc ++ o)%list.
Proof.
  unfold Object_assign. revert acc.
  induction o as [|[k v] o IH]; intros acc Hnd Hfr; simpl.
  - by rewrite app_nil_r.
  - apply NoDup_cons in Hnd as [Hk Hnd].
    rewrite setProp_fresh by (apply Hfr; by left).
    rewrite IH; [by rewrite <- app_assoc|done|].
    intros k' Hk' Hin. rewrite fmap_app in Hin. apply elem_of_app in Hin as [Hin|Hin].
    + by apply (Hfr k'); [right|].
    + apply list_elem_of_singleton in Hin. simpl in Hin. by subst.
Qed.

(** Copying an object with [{...o}] gives the object. *)
Lemma assign_copy (o : obj) : NoDup (o.*1) -> Object_assign [] o = o.
Proof.
  intros Hnd. rewrite assign_fresh; [done|done|].
  intros k _ Hin. by apply elem_of_nil in Hin.
Qed.

Lemma edit_fold_lookup (body : obj) (fs : list string) (task : obj) f :
  NoDup fs ->
  getProp f (foldl (fun t f => match prop f body with
                               | JUndef => t
                               | v => setProp f v t
                               end) task fs) =
    if bool_decide (f ∈ fs)
    then match prop f body with
         | JUndef => getProp f task
         | v => Some v
         end
    else getProp f task.
Proof.
  revert task. induction fs as [|f0 fs IH]; intros task Hnd; simpl; [done|].
  apply NoDup_cons in Hnd as [Hf0 Hnd]. rewrite IH by done.
  destruct (decide (f = f0)) as [->|Hne].
  - rewrite bool_decide_eq_false_2 by done.
    rewrite bool_decide_eq_true_2 by (by left).
    destruct (prop f0 body); try apply getProp_setProp_eq. done.
  - assert (bool_decide (f ∈ f0 :: fs) = bool_decide (f ∈ fs)) as ->.
    { apply bool_decide_ext. rewrite elem_of_cons. split; [|by right].
      by intros [?|?]. }
    assert (getProp f match prop f0 body with
                      | JUndef => task
                      | v => setProp f0 v task
                      end = getProp f task) as ->; [|done].
    destruct (prop f0 body); try (apply getProp_setProp_ne; congruence). done.
Qed.

Lemma edit_fold_NoDup (body : obj) (fs : list string) (task : obj) :
  NoDup (task.*1) ->
  NoDup ((foldl (fun t f => match prop f body with
                            | JUndef => t
                            | v => setProp f v t
                            end) task fs).*1).
Proof.
  revert task. induction fs as [|f0 fs IH]; intros task Hnd; simpl; [done|].
  apply IH. destruct (prop f0 body); try (by apply setProp_NoDup). done.
Qed.

End WebserviceFacts.

(** X1. [create] rejects a body without a url or a name and leaves
    the store as it was; otherwise it stores the task under the new
    id with the default standard when none is given, an empty list of
    results and no [last_result], and [get] returns that task. *)
Theorem create_validates_then_get (id : string) (body : jsval) (s : LocalWebservice.store) :
  let s' := (LocalWebservice.create id body s).1 in
  if truthy body && truthy (member "url" body) && truthy (member "name" body)
  then exists task,
         (LocalWebservice.create id body s).2 = LocalWebservice.Ok task /\
         LocalWebservice.get id s' = LocalWebservice.Ok task /\
         LocalWebservice.resultsOf id s' = LocalWebservice.Ok [] /\
         prop "id" task = JStr id /\
         prop "name" task = member "name" body /\
         prop "url" task = member "url" body /\
         prop "standard" task =
           (if truthy (member "standard" body) then member "standard" body
            else JStr "WCAG2AA") /\
         getProp "last_result" task = None /\
         (forall k, k <> id ->
            LocalWebservice.tasks s' !! k = LocalWebservice.tasks s !! k /\
            LocalWebservice.results s' !! k = LocalWebservice.results s !! k)
  else (LocalWebservice.create id body s).2 = LocalWebservice.Err "Missing required fields"
       /\ s' = s.
Proof.
  unfold LocalWebservice.create.
  destruct (truthy body && truthy (member "url" body) && truthy (member "name" body));
    simpl; [|done].
  eexists. split; [reflexivity|]. split.
  { unfold LocalWebservice.get. simpl. rewrite lookup_insert_eq. reflexivity. }
  split.
  { unfold LocalWebservice.resultsOf. simpl. by rewrite lookup_insert_eq. }
  repeat split; try done.
  - by apply lookup_insert_ne.
  - by apply lookup_insert_ne.
Qed.

(** X2. [edit] changes exactly the listed fields that the body
    defines: [id], [last_result] and any other property of the stored
    task keep their value, a property of the body outside the list is
    ignored, the results are untouched, and an unknown id is an error
    that changes nothing. *)
Theorem edit_changes_listed_fields_only
    (id : string) (body : obj) (s : LocalWebservice.store) :
  match LocalWebservice.tasks s !! id with
  | None =>
      LocalWebservice.edit id body s = (s, LocalWebservice.Failed "Task not found")
  | Some task =>
      (LocalWebservice.edit id body s).2 = LocalWebservice.Done /\
      LocalWebservice.results (LocalWebservice.edit id body s).1
        = LocalWebservice.results s /\
      (forall k, k <> id ->
         LocalWebservice.tasks (LocalWebservice.edit id body s).1 !! k
           = LocalWebservice.tasks s !! k) /\
      exists task',
        LocalWebservice.tasks (LocalWebservice.edit id body s).1 !! id = Some task' /\
        forall f, getProp f task' =
          if bool_decide (f ∈ LocalWebservice.fields)
          then match prop f body with
               | JUndef => getProp f task
               | v => Some v
               end
          else getProp f task
  end.
Proof.
  unfold LocalWebservice.edit.
  destruct (LocalWebservice.tasks s !! id) as [task|] eqn:E; [|done].
  cbn [fst snd LocalWebservice.tasks LocalWebservice.results].
  split; [reflexivity|]. split; [reflexivity|]. split.
  - intros k Hk. by apply lookup_insert_ne.
  - eexists. split; [apply lookup_insert_eq|].
    intros f. apply edit_fold_lookup. unfold LocalWebservice.fields.
    repeat (apply NoDup_cons_2;
            [rewrite ?elem_of_cons, elem_of_nil; intros Hx;
             repeat (destruct Hx as [Hx|Hx]; [discriminate Hx|]); done|]).
    apply NoDup_nil_2.
Qed.

Section WebserviceRun.
Import LocalWebservice.

Lemma transformResult_shape rid date tid task report result :
  transformResult rid date tid task report = Some result ->
  prop "id" result = JStr rid /\ prop "task" result = tid /\
  prop "url" result = prop "url" task /\ prop "name" result = prop "name" task.
Proof.
  unfold transformResult. destruct report; try done.
  all: destruct (js_or _ _); try done.
  all: destruct (messages _ _) as [[c ms]|]; try done.
  all: by intros [= <-].
Qed.

Lemma find_snoc {A} (p : A -> bool) (l : list A) (x : A) :
  List.find p l = None -> p x = true -> List.find p (l ++ [x]) = Some x.
Proof.
  induction l as [|y l IH]; simpl; intros Hl Hx; [by rewrite Hx|].
  destruct (p y); [done | by apply IH].
Qed.

Lemma find_None_all {A} (p : A -> bool) (l : list A) :
  (forall x, x ∈ l -> p x = false) -> List.find p l = None.
Proof.
  induction l as [|y l IH]; simpl; intros H; [done|].
  rewrite (H y) by (by left). apply IH. intros x Hx. apply H. by right.
Qed.

Lemma run_report rid date report id task list result (s : store) :
  tasks s !! id = Some task ->
  prop "id" task = JStr id ->
  results s !! id = Some list ->
  transformResult rid date (prop "id" task) task report = Some result ->
  run rid date (Report report) id s =
    (Store (<[id := setProp "last_result" (JObj result) task]> (tasks s))
           (<[id := (list ++ [result])%list]> (results s)), Done).
Proof.
  intros Ht Hid Hl Htr. unfold run, runTask. by rewrite Ht, Htr, Hid, Hl.
Qed.

End WebserviceRun.

(** X3. A run whose report can be transformed puts the new result
    in front of the results the webservice lists for the task (latest
    first), makes it the [last_result] of the task and leaves every
    other field of the task and every other task as they were; the
    result can then be fetched by its id. *)
Theorem run_puts_result_first
    (rid date id : string) (report : jsval) (task result : obj)
    (s : LocalWebservice.store) :
  LocalWebservice.store_wf s ->
  LocalWebservice.tasks s !! id = Some task ->
  LocalWebservice.transformResult rid date (prop "id" task) task report = Some result ->
  let s' := (LocalWebservice.run rid date (LocalWebservice.Report report) id s).1 in
  (LocalWebservice.run rid date (LocalWebservice.Report report) id s).2
    = LocalWebservice.Done /\
  (exists old,
     LocalWebservice.resultsOf id s = LocalWebservice.Ok old /\
     LocalWebservice.resultsOf id s' = LocalWebservice.Ok (result :: old) /\
     ((forall r, r ∈ old -> prop "id" r <> JStr rid) ->
      LocalWebservice.resultOf id rid s' = LocalWebservice.Ok result)) /\
  (exists task',
     LocalWebservice.get id s' = LocalWebservice.Ok task' /\
     prop "last_result" task' = JObj result /\
     forall f, f <> "last_result" -> getProp f task' = getProp f task) /\
  (forall k, k <> id ->
     LocalWebservice.tasks s' !! k = LocalWebservice.tasks s !! k /\
     LocalWebservice.results s' !! k = LocalWebservice.results s !! k).
Proof.
  intros Hwf Ht Htr s'. destruct (Hwf id task Ht) as (Hid & Hnd & [list Hl]).
  subst s'. rewrite (run_report _ _ _ _ _ _ _ _ Ht Hid Hl Htr). simpl.
  split; [done|]. split; [|split].
  - exists (reverse list). unfold LocalWebservice.resultsOf, LocalWebservice.resultOf.
    simpl. rewrite Hl, lookup_insert_eq, reverse_snoc.
    split; [done|]. split; [done|]. intros Hfresh.
    rewrite (find_snoc _ list result); [done| |].
    + apply find_None_all. intros r Hr.
      apply not_true_is_false. intros Heq. apply strictEq_JStr in Heq.
      apply (Hfresh r); [by apply elem_of_reverse|done].
    + destruct (transformResult_shape _ _ _ _ _ _ Htr) as (-> & _). simpl.
      apply String.eqb_refl.
  - exists (setProp "last_result" (JObj result) task).
    unfold LocalWebservice.get. simpl. rewrite lookup_insert_eq.
    rewrite assign_copy by (by apply setProp_NoDup).
    split; [done|]. split.
    + unfold prop. by rewrite getProp_setProp_eq.
    + intros f Hf. by apply getProp_setProp_ne.
  - intros k Hk. by rewrite !lookup_insert_ne.
Qed.

Lemma run_puts_result_first_witness :
  let report := JObj [("issues", JArr [JObj [("type", JStr "error"); ("code", JStr "c1")]])] in
  let task := [("id", JStr "T"); ("name", JStr "Example");
               ("url", JStr "https://example.com")] in
  let old := [("id", JStr "r0"); ("task", JStr "T")] in
  let s := LocalWebservice.Store {["T" := task]} {["T" := [old]]} in
  let s' := (LocalWebservice.run "r1" "now" (LocalWebservice.Report report) "T" s).1 in
  exists result,
    LocalWebservice.resultsOf "T" s' = LocalWebservice.Ok [result; old] /\
    LocalWebservice.resultOf "T" "r1" s' = LocalWebservice.Ok result /\
    exists task', LocalWebservice.get "T" s' = LocalWebservice.Ok task' /\
                  prop "last_result" task' = JObj result.
Proof.
  intros report task old s s'.
  assert (LocalWebservice.store_wf s) as Hwf.
  { intros id t H. simpl in H. apply lookup_singleton_Some in H as [<- <-].
    split; [reflexivity|]. split; [by apply (bool_decide_unpack _)|].
    simpl. rewrite lookup_singleton_eq. by eexists. }
  destruct (LocalWebservice.transformResult "r1" "now" (prop "id" task) task report)
    as [result|] eqn:Htr; [|discriminate Htr].
  destruct (run_puts_result_first "r1" "now" "T" report task result s Hwf eq_refl Htr)
    as (_ & (old' & Hold & Hnew & Hfind) & (task' & Hget & Hlast & _) & _).
  exists result. injection Hold as <-. split; [exact Hnew|]. split.
  - apply Hfind. intros r Hr. apply list_elem_of_singleton in Hr. subst r. discriminate.
  - exists task'. by split.
Defined.

Section WebserviceInvariant.
Import LocalWebservice.

Lemma fields_NoDup : NoDup fields.
Proof.
  unfold fields.
  repeat (apply NoDup_cons_2;
          [rewrite ?elem_of_cons, elem_of_nil; intros Hx;
           repeat (destruct Hx as [Hx|Hx]; [discriminate Hx|]); done|]).
  apply NoDup_nil_2.
Qed.

Lemma create_wf id body s : store_wf s -> store_wf (create id body s).1.
Proof.
  intros Hwf. unfold create.
  destruct (truthy body && truthy (member "url" body) && truthy (member "name" body));
    [|done].
  intros k task. cbn [fst tasks results]. rewrite lookup_insert.
  case_decide as Hk.
  - subst k. intros [= <-]. split; [reflexivity|]. split.
    + cbn [fmap list_fmap fst].
      repeat (apply NoDup_cons_2;
              [rewrite ?elem_of_cons, elem_of_nil; intros Hx;
               repeat (destruct Hx as [Hx|Hx]; [discriminate Hx|]); done|]).
      apply NoDup_nil_2.
    + rewrite lookup_insert_eq. by eexists.
  - intros Ht. destruct (Hwf k task Ht) as (? & ? & ?).
    split; [done|]. split; [done|]. by rewrite lookup_insert_ne.
Qed.

Lemma edit_wf id body s : store_wf s -> store_wf (edit id body s).1.
Proof.
  intros Hwf. unfold edit. destruct (tasks s !! id) as [task|] eqn:E; [|done].
  destruct (Hwf id task E) as (Hid & Hnd & Hres).
  intros k t. cbn [fst tasks results]. rewrite lookup_insert. case_decide as Hk.
  - subst k. intros Ht. apply (inj Some) in Ht. rewrite <- Ht. clear Ht Hwf.
    split; [|split; [apply edit_fold_NoDup; exact Hnd|exact Hres]].
    pose proof (edit_fold_lookup body fields task "id" fields_NoDup) as Hg.
    rewrite bool_decide_eq_false_2 in Hg.
    + unfold prop at 1. rewrite Hg. exact Hid.
    + unfold fields. rewrite ?elem_of_cons, elem_of_nil. intros Hx.
      repeat (destruct Hx as [Hx|Hx]; [discriminate Hx|]). done.
  - apply Hwf.
Qed.

Lemma run_wf rid date outcome id s : store_wf s -> store_wf (run rid date outcome id s).1.
Proof.
  intros Hwf. unfold run. destruct (tasks s !! id) as [task|] eqn:E; [|done].
  destruct (Hwf id task E) as (Hid & Hnd & [list Hl]).
  unfold runTask. destruct outcome as [report|err]; [|done].
  destruct (transformResult _ _ _ _ _) as [result|]; [|done].
  rewrite Hid, Hl. intros k t. cbn [fst tasks results]. rewrite lookup_insert.
  case_decide as Hk.
  - subst k. intros [= <-]. split; [|split; [by apply setProp_NoDup|]].
    + unfold prop in *. by rewrite getProp_setProp_ne.
    + rewrite lookup_insert_eq. by eexists.
  - intros Ht. destruct (Hwf k t Ht) as (? & ? & ?).
    split; [done|]. split; [done|]. by rewrite lookup_insert_ne.
Qed.

Lemma remove_wf id s : store_wf s -> store_wf (remove id s).1.
Proof.
  intros Hwf k t. unfold remove. cbn [fst tasks results]. intros Ht.
  apply lookup_delete_Some in Ht as [Hne Ht].
  destruct (Hwf k t Ht) as (? & ? & ?).
  split; [done|]. split; [done|]. by rewrite lookup_delete_ne.
Qed.

End WebserviceInvariant.

(** X4. The webservice starts with, and every operation keeps, a
    store in which each task carries the id it is stored under and has
    a list of results; on such a store a run of a stored task fails
    only when the engine fails or its report cannot be transformed. *)
Theorem webservice_keeps_its_invariant
    (s : LocalWebservice.store) (id rid date : string) (body : jsval) (changes : obj)
    (outcome : LocalWebservice.engine) :
  LocalWebservice.store_wf s ->
  LocalWebservice.store_wf (LocalWebservice.create id body s).1 /\
  LocalWebservice.store_wf (LocalWebservice.edit id changes s).1 /\
  LocalWebservice.store_wf (LocalWebservice.run rid date outcome id s).1 /\
  LocalWebservice.store_wf (LocalWebservice.remove id s).1 /\
  (forall task report,
     LocalWebservice.tasks s !! id = Some task ->
     is_Some (LocalWebservice.transformResult rid date (prop "id" task) task report) ->
     (LocalWebservice.run rid date (LocalWebservice.Report report) id s).2
       = LocalWebservice.Done).
Proof.
  intros Hwf. split; [by apply create_wf|]. split; [by apply edit_wf|].
  split; [by apply run_wf|]. split; [by apply remove_wf|].
  intros task report Ht [result Htr].
  destruct (Hwf id task Ht) as (Hid & _ & [list Hl]).
  by rewrite (run_report _ _ _ _ _ _ _ _ Ht Hid Hl Htr).
Qed.

Lemma webservice_keeps_its_invariant_witness :
  let s := LocalWebservice.Store ∅ ∅ in
  let body := JObj [("name", JStr "Example"); ("url", JStr "https://example.com")] in
  LocalWebservice.store_wf s /\
  LocalWebservice.store_wf (LocalWebservice.create "T" body s).1 /\
  LocalWebservice.store_wf (LocalWebservice.remove "T" s).1.
Proof.
  intros s body.
  assert (LocalWebservice.store_wf s) as Hwf.
  { intros id task H. simpl in H. by rewrite lookup_empty in H. }
  destruct (webservice_keeps_its_invariant s "T" "r" "now" body []
              (LocalWebservice.Failure "e") Hwf) as (H1 & _ & _ & H4 & _).
  split; [exact Hwf|]. split; [exact H1 | exact H4].
Defined.

(** ** The invariant of the durable store *)

Section StoreInvariant.

Lemma deleteTaskWith_wf f id d : db_wf d -> db_wf (deleteTaskWith f id d).1.
Proof.
  intros [Ht Hr]. destruct (deleteTaskWith f id d) as [d' [|]] eqn:E; simpl.
  - apply deleteTaskWith_fulfilled in E as [Et Er]. split.
    + intros k o. rewrite Et. intros H. apply lookup_delete_Some in H as [_ H]. eauto.
    + intros k o. rewrite Er. destruct (results d !! k) as [r|] eqn:E; [|done].
      destruct (belongsTo _ r); [done|]. intros [= <-]. eauto.
  - apply deleteTaskWith_rejected in E. by subst d'.
Qed.

Lemma deleteStored_wf t d : db_wf d -> db_wf (TaskList.deleteStored t d).1.
Proof.
  intros Hwf. unfold TaskList.deleteStored.
  destruct (prop "id" t); try exact Hwf. by apply deleteTaskWith_wf.
Qed.

Lemma deleteAll_wf ts d : db_wf d -> db_wf (TaskList.deleteAll ts d).1.
Proof.
  unfold TaskList.deleteAll. generalize Fulfilled. revert d.
  induction ts as [|t ts IH]; intros d s Hwf; simpl; [done|].
  pose proof (deleteStored_wf t d Hwf) as H.
  destruct (TaskList.deleteStored t d) as [d' s']. by apply IH.
Qed.

Lemma syncFromDOM_wf view deleted d :
  db_wf d -> db_wf (TaskList.syncFromDOM view deleted d).1.
Proof.
  intros Hwf. unfold TaskList.syncFromDOM.
  pose proof (saveAll_wf view d Hwf) as H.
  destruct (TaskList.saveAll _ d) as [d1 [|]]; [|done].
  destruct deleted; [|done]. by apply deleteAll_wf.
Qed.

Lemma submit_wf pathname f d : db_wf d -> db_wf (EditManager.submit pathname f d).
Proof.
  intros Hwf. unfold EditManager.submit.
  destruct (EditManager.pathId pathname); [|done]. by apply saveTask_wf.
Qed.





End StoreInvariant.



(** ** Synchronising the same page again *)

Section SyncAgain.
Import TaskList.

Lemma setProp_same k v (o : obj) : getProp k o = Some v -> setProp k v o = o.
Proof.
  induction o as [|[k0 v0] o IH]; cbn [getProp setProp]; [done|].
  destruct (String.eqb k k0); [by intros [= ->]|]. intros H. by rewrite IH.
Qed.

Lemma assign_NoDup (target source : obj) :
  NoDup (target.*1) -> NoDup ((Object_assign target source).*1).
Proof.
  unfold Object_assign. revert target.
  induction source as [|[k v] source IH]; intros target Hnd; simpl; [done|].
  by apply IH, setProp_NoDup.
Qed.

Lemma assign_absorb (m source : obj) :
  (forall k v, (k, v) ∈ source -> getProp k m = Some v) ->
  Object_assign m source = m.
Proof.
  unfold Object_assign. induction source as [|[k v] source IH]; intros H; simpl; [done|].
  rewrite setProp_same by (apply H; left). apply IH.
  intros k' v' Hin. apply H. by right.
Qed.

Lemma getProp_elem (o : obj) k v :
  NoDup (o.*1) -> (k, v) ∈ o -> getProp k o = Some v.
Proof.
  induction o as [|[k0 v0] o IH]; intros Hnd Hin; [by apply elem_of_nil in Hin|].
  rewrite fmap_cons in Hnd. apply NoDup_cons in Hnd as [Hk0 Hnd]. cbn [getProp].
  apply elem_of_cons in Hin as [[= <- <-]|Hin].
  - by rewrite String.eqb_refl.
  - destruct (String.eqb k k0) eqn:E; [|by apply IH].
    apply String.eqb_eq in E. subst k0. exfalso. apply Hk0.
    apply list_elem_of_fmap. by exists (k, v).
Qed.

(** The merged record is a fixed point of the merge. *)
Lemma merged_fixed (existing domTask : obj) :
  NoDup (domTask.*1) ->
  Object_assign (Object_assign [] (Object_assign (Object_assign [] existing) domTask))
                domTask
  = Object_assign (Object_assign [] existing) domTask.
Proof.
  intros Hnd. set (m := Object_assign (Object_assign [] existing) domTask).
  assert (NoDup (m.*1)) as Hm by (apply assign_NoDup, assign_NoDup, NoDup_nil_2).
  rewrite (assign_copy m Hm). apply assign_absorb. intros k v Hin.
  unfold m. rewrite getProp_assign by done. by rewrite (getProp_elem _ _ _ Hnd Hin).
Qed.

Lemma db_eq (d d' : db) : tasks d = tasks d' -> results d = results d' -> d = d'.
Proof. destruct d, d'; simpl; by intros -> ->. Qed.

(** Saving the cards of a page a second time writes what is there. *)
Lemma saveAll_again view d :
  (forall id t, domTasksOf view !! id = Some t ->
     exists e, tasks d !! id = Some (Object_assign (Object_assign [] e) t)) ->
  saveAll (domTasksOf view) d = (d, Fulfilled).
Proof.
  intros H. destruct (saveAll_spec view d) as (Hs & Hr & Ht).
  destruct (saveAll (domTasksOf view) d) as [d1 s1]. simpl in *. subst s1.
  f_equal. apply db_eq; [|done]. apply map_eq. intros id. rewrite Ht.
  destruct (domTasksOf view !! id) as [t|] eqn:E; [|done].
  destruct (H id t E) as [e He]. rewrite He. simpl. f_equal.
  apply merged_fixed. destruct (domTasksOf_from_card _ _ _ E) as (c & _ & Hc).
  by apply extractTask_NoDup in Hc.
Qed.

(** The tasks left by a synchronisation that prunes. *)
Lemma sync_deleted_tasks view d k :
  db_wf d ->
  (syncFromDOM view true d).2 = Fulfilled /\
  tasks (syncFromDOM view true d).1 !! k =
    match domTasksOf view !! k with
    | Some t => Some (Object_assign (Object_assign [] (default [] (tasks d !! k))) t)
    | None => None
    end.
Proof.
  intros Hwf. pose proof (fun t => stale_tasks view d t Hwf) as Hstale.
  destruct (saveAll_spec view d) as (Hs & Hr & Ht).
  unfold syncFromDOM.
  destruct (saveAll (domTasksOf view) d) as [d1 s1] eqn:Esave.
  simpl in Hs, Hr, Ht, Hstale. subst s1. unfold deleteAll.
  edestruct (deleteAll_fold
               (filter (fun t => notInDom (domTasksOf view) t = true) (getTasks d1))
               d1 Fulfilled) as (H1 & H2 & _).
  { intros t Hin. apply Hstale in Hin as (k0 & _ & _ & Hid); eauto. }
  split; [exact H1|]. rewrite H2, Ht.
  destruct (existsb _ _) eqn:Ex.
  - apply existsb_exists in Ex as (t & Hin & Hk).
    apply list_elem_of_In, Hstale in Hin as (k0 & _ & Hdom & Hid).
    rewrite Hid in Hk. simpl in Hk. apply String.eqb_eq in Hk. subst k0.
    by rewrite Hdom.
  - destruct (domTasksOf view !! k) as [t|] eqn:E; [done|].
    destruct (tasks d !! k) as [t0|] eqn:E0; [|done].
    exfalso. apply not_true_iff_false in Ex. apply Ex.
    apply existsb_exists. exists t0. split.
    + apply list_elem_of_In, Hstale. exists k. split; [done|]. split; [done|].
      apply keyPath_prop. by apply (proj1 Hwf).
    + rewrite (keyPath_prop t0 k) by (by apply (proj1 Hwf)). simpl. apply String.eqb_refl.
Qed.

Lemma sync_again view deleted d :
  db_wf d ->
  (syncFromDOM view deleted d).2 = Fulfilled /\
  syncFromDOM view deleted (syncFromDOM view deleted d).1
    = ((syncFromDOM view deleted d).1, Fulfilled).
Proof.
  intros Hwf. destruct deleted.
  - pose proof (fun k => sync_deleted_tasks view d k Hwf) as Hsync.
    pose proof (syncFromDOM_wf view true d Hwf) as Hwf1.
    destruct (syncFromDOM view true d) as [d1 s1]. simpl in *.
    split; [apply (Hsync ""%string)|].
    assert (saveAll (domTasksOf view) d1 = (d1, Fulfilled)) as Hsave.
    { apply saveAll_again. intros id t E. destruct (Hsync id) as [_ H].
      rewrite E in H. eauto. }
    pose proof (fun t => stale_tasks view d1 t Hwf1) as Hstale.
    unfold syncFromDOM. rewrite Hsave in *. simpl in Hstale.
    destruct (filter _ (getTasks d1)) as [|t l] eqn:Ef; [done|].
    exfalso. destruct (Hstale t) as [H _].
    destruct H as (k & Hk & Hdom & _); [left|].
    destruct (Hsync k) as [_ H]. rewrite Hdom in H. congruence.
  - destruct (saveAll_spec view d) as (Hs & Hr & Ht).
    unfold syncFromDOM at 1 3 4.
    destruct (saveAll (domTasksOf view) d) as [d1 s1]. simpl in *. subst s1.
    split; [done|]. unfold syncFromDOM. rewrite saveAll_again; [done|].
    intros id t E. rewrite Ht, E. eauto.
Qed.

End SyncAgain.

(** X6. Synchronising the same page twice leaves the durable store
    as the first synchronisation left it, with or without the
    [deleted] marker: the merged records are fixed points of the merge
    and a second pruning finds nothing to delete. *)
Theorem sync_is_idempotent (view : list TaskList.card) (deleted : bool) (d : db) :
  db_wf d ->
  let d1 := (TaskList.syncFromDOM view deleted d).1 in
  TaskList.syncFromDOM view deleted d = (d1, Fulfilled) /\
  TaskList.syncFromDOM view deleted d1 = (d1, Fulfilled).
Proof.
  intros Hwf d1. destruct (sync_again view deleted d Hwf) as [H1 H2].
  split; [|exact H2]. unfold d1. destruct (TaskList.syncFromDOM view deleted d).
  simpl in *. by subst.
Qed.

Lemma sync_is_idempotent_witness :
  let c := TaskList.Card (Some "task") (Some "T") None None None
             (Some "Home") (Some "example.com") (Some "(WCAG2AA)")
             None None None None true in
  let d := Db {["U" := [("id", JStr "U"); ("name", JStr "Gone")]]} ∅ in
  db_wf d /\
  let d1 := (TaskList.syncFromDOM [c] true d).1 in
  TaskList.syncFromDOM [c] true d1 = (d1, Fulfilled).
Proof.
  intros c d.
  assert (db_wf d) as Hwf.
  { split; intros k o H; simpl in H.
    - apply lookup_singleton_Some in H as [<- <-]. reflexivity.
    - by rewrite lookup_empty in H. }
  split; [exact Hwf|]. exact (proj2 (sync_is_idempotent [c] true d Hwf)).
Defined.

(** ** Cards for stored tasks *)

Section LoadFacts.
Import TaskList.
Variable formatDate : jsval -> string.






End LoadFacts.


(** ** A run that succeeds *)

Section RunFacts.
Import RunManager.

Lemma storeRun_ok taskId resultId now (task : obj) report c d :
  keyPath task = Some taskId ->
  countIssues report = Some c ->
  report <> JUndef -> report <> JNull ->
  storeRun taskId resultId now task report d =
    (Db (<[taskId := setProp "last_result"
                       (JObj [("id", JStr resultId); ("date", JStr now);
                              ("count", countsObj c)]) task]> (tasks d))
        (<[resultId := [("id", JStr resultId); ("task", JStr taskId);
                        ("url", prop "url" task); ("name", prop "name" task);
                        ("standard", prop "standard" task); ("date", JStr now);
                        ("count", countsObj c);
                        ("results", js_or (member "issues" report) (JArr []));
                        ("ignore", js_or (prop "ignore" task) (JArr []))]]>
           (results d)),
     [Reload]).
Proof.
  intros Hk Hc Hu Hn. unfold storeRun. rewrite Hc.
  set (r := [("id", JStr resultId); _; _; _; _; _; _; _; _]).
  set (t := setProp "last_result" _ task).
  assert (keyPath t = Some taskId) as Ht.
  { unfold keyPath, t in *. by rewrite getProp_setProp_ne. }
  assert (saveResult r d = (Db (tasks d) (<[resultId := r]> (results d)), Fulfilled)) as Hr
    by by apply saveResult_fulfilled.
  destruct report; try done; rewrite Hr, (saveTask_fulfilled _ _ _ Ht); reflexivity.
Qed.

End RunFacts.

(** X8. A run from the browser that succeeds: whether the task comes
    from the store or is read from the header of the page, the result
    is stored under the generated id with the id of the task, the
    record of the task gets a [last_result] with the id, the date and
    the counts of that result and keeps its other fields, nothing else
    in the store changes, and the page reloads. *)
Theorem successful_run_is_stored
    (fetch : obj -> RunManager.fetched) (header : option RunManager.taskHeader)
    (resultId now taskId : string) (d : db)
    (task : obj) (status : Z) (report : jsval) (c : RunManager.counts) :
  db_wf d ->
  tasks d !! taskId = Some task \/
    (tasks d !! taskId = None /\ RunManager.taskFromHeader taskId header = Some task) ->
  fetch (RunManager.buildPayload task) = RunManager.Response true status (Some report) ->
  report <> JUndef -> report <> JNull ->
  RunManager.countIssues report = Some c ->
  let d' := (RunManager.runTask fetch header resultId now taskId d).1 in
  (RunManager.runTask fetch header resultId now taskId d).2 = [RunManager.Reload] /\
  (exists res,
     results d' !! resultId = Some res /\
     res ∈ getResultsByTask (JStr taskId) d' /\
     prop "id" res = JStr resultId /\ prop "task" res = JStr taskId /\
     prop "date" res = JStr now /\ prop "count" res = RunManager.countsObj c /\
     exists task',
       tasks d' !! taskId = Some task' /\
       member "id" (prop "last_result" task') = prop "id" res /\
       member "date" (prop "last_result" task') = prop "date" res /\
       member "count" (prop "last_result" task') = prop "count" res /\
       forall field, field <> "last_result" -> getProp field task' = getProp field task) /\
  (forall k, k <> taskId -> tasks d' !! k = tasks d !! k) /\
  (forall k, k <> resultId -> results d' !! k = results d !! k).
Proof.
  intros Hwf Htask Hfetch Hu Hn Hc d'.
  assert (keyPath task = Some taskId) as Hk.
  { destruct Htask as [H|[_ H]]; [by apply (proj1 Hwf)|].
    by apply taskFromHeader_fresh in H as [H _]. }
  set (lr := JObj [("id", JStr resultId); ("date", JStr now);
                   ("count", RunManager.countsObj c)]).
  set (r := [("id", JStr resultId); ("task", JStr taskId);
             ("url", prop "url" task); ("name", prop "name" task);
             ("standard", prop "standard" task); ("date", JStr now);
             ("count", RunManager.countsObj c);
             ("results", js_or (member "issues" report) (JArr []));
             ("ignore", js_or (prop "ignore" task) (JArr []))]).
  assert (exists d0, tasks d0 !! taskId = Some task /\
            (forall k, k <> taskId -> tasks d0 !! k = tasks d !! k) /\
            results d0 = results d /\
            RunManager.runTask fetch header resultId now taskId d =
              (Db (<[taskId := setProp "last_result" lr task]> (tasks d0))
                  (<[resultId := r]> (results d0)), [RunManager.Reload]))
    as (d0 & H0 & H0t & H0r & Hrun).
  { unfold RunManager.runTask, getTask. destruct Htask as [H|[H Hh]]; rewrite H.
    - exists d. rewrite Hfetch. split; [done|]. split; [done|]. split; [done|].
      by apply storeRun_ok.
    - rewrite Hh, Hfetch, (saveTask_fulfilled _ _ _ Hk). cbn [fst].
      eexists. split; [|split; [|split; [|by apply storeRun_ok]]].
      + cbn [tasks]. apply lookup_insert_eq.
      + intros k Hne. cbn [tasks]. by apply lookup_insert_ne.
      + done. }
  unfold d'. rewrite Hrun. cbn [fst snd tasks results].
  split; [done|]. split; [|split].
  - exists r. split; [apply lookup_insert_eq|]. split.
    { apply elem_of_getResultsByTask. split.
      - exists resultId. cbn [results]. apply lookup_insert_eq.
      - unfold belongsTo, r, prop. cbn [getProp String.eqb Ascii.eqb Bool.eqb default from_option].
        cbn. apply String.eqb_refl. }
    split; [done|]. split; [done|]. split; [done|]. split; [done|].
    exists (setProp "last_result" lr task). split; [apply lookup_insert_eq|].
    unfold prop at 1 3 5. rewrite getProp_setProp_eq. cbn [default from_option].
    split; [done|]. split; [done|]. split; [done|].
    intros field Hf. by apply getProp_setProp_ne.
  - intros k Hne. rewrite lookup_insert_ne by done. by apply H0t.
  - intros k Hne. rewrite lookup_insert_ne by done. by rewrite H0r.
Qed.

Lemma successful_run_is_stored_witness :
  let task := [("id", JStr "T"); ("name", JStr "Home"); ("url", JStr "https://example.com");
               ("standard", JStr "WCAG2AA")] in
  let d := Db {["T" := task]} ∅ in
  let report := JObj [("issues", JArr [JObj [("type", JStr "error")]])] in
  let fetch := fun _ : obj => RunManager.Response true 200 (Some report) in
  db_wf d /\
  (RunManager.runTask fetch None "r1" "2024-01-01T00:00:00.000Z" "T" d).2
    = [RunManager.Reload].
Proof.
  intros task d report fetch.
  assert (db_wf d) as Hwf.
  { split; intros k o H; simpl in H.
    - apply lookup_singleton_Some in H as [<- <-]. reflexivity.
    - by rewrite lookup_empty in H. }
  split; [exact Hwf|].
  refine (proj1 (successful_run_is_stored fetch None "r1" "2024-01-01T00:00:00.000Z" "T" d
                   task 200 report (RunManager.Counts 1 0 0) Hwf _ _ _ _ _)).
  - left. apply lookup_singleton_eq.
  - reflexivity.
  - discriminate.
  - discriminate.
  - reflexivity.
Defined.

(** ** What the submit handler stores *)

Section SubmitFacts.
Import EditManager.

Lemma trimStart_head s :
  match trimStart s with
  | EmptyString => True
  | String c _ => isWs c = false
  end.
Proof.
  induction s as [|c s IH]; cbn [trimStart]; [done|].
  destruct (isWs c) eqn:E; [exact IH | exact E].
Qed.

Lemma trimStart_fixed s :
  match s with EmptyString => True | String c _ => isWs c = false end ->
  trimStart s = s.
Proof. destruct s as [|c s]; cbn [trimStart]; [done|]. by intros ->. Qed.

Lemma trimEnd_head s :
  match s with EmptyString => True | String c _ => isWs c = false end ->
  match trimEnd s with EmptyString => True | String c _ => isWs c = false end.
Proof.
  destruct s as [|c s]; cbn [trimEnd]; [done|]. intros E. rewrite E.
  by destruct (trimEnd s).
Qed.

Lemma trimEnd_idem s : trimEnd (trimEnd s) = trimEnd s.
Proof.
  induction s as [|c s IH]; cbn [trimEnd]; [done|].
  destruct (trimEnd s) as [|c' r] eqn:E.
  - destruct (isWs c) eqn:Ec; cbn [trimEnd]; [done|]. by rewrite Ec.
  - cbn [trimEnd] in *. rewrite IH. done.
Qed.

Lemma trim_idem s : trim (trim s) = trim s.
Proof.
  unfold trim. rewrite (trimStart_fixed (trimEnd (trimStart s))).
  - apply trimEnd_idem.
  - apply trimEnd_head, trimStart_head.
Qed.

Lemma allChars_trimStart p s : allChars p s = true -> allChars p (trimStart s) = true.
Proof.
  induction s as [|c s IH]; cbn [trimStart]; [done|].
  destruct (isWs c); [|done]. cbn [allChars]. intros H.
  apply andb_true_iff in H as [_ H]. by apply IH.
Qed.

Lemma allChars_trimEnd p s : allChars p s = true -> allChars p (trimEnd s) = true.
Proof.
  induction s as [|c s IH]; cbn [trimEnd]; [done|]. cbn [allChars]. intros H.
  apply andb_true_iff in H as [Hc H]. specialize (IH H).
  destruct (trimEnd s) as [|c' r].
  - destruct (isWs c); [done|]. cbn [allChars]. by rewrite Hc.
  - cbn [allChars] in *. by rewrite Hc, IH.
Qed.

Lemma splitLines_from_single skip s :
  Forall (fun seg => singleLine seg = true) (splitLines_from skip s).
Proof.
  revert skip. induction s as [|c s IH]; intros skip; cbn [splitLines_from].
  - by repeat constructor.
  - destruct (isNL c) eqn:Ec.
    + destruct skip; [apply IH|]. constructor; [done | apply IH].
    + specialize (IH false). destruct (splitLines_from false s) as [|seg rest].
      * repeat constructor. unfold singleLine. cbn [allChars]. by rewrite Ec.
      * apply Forall_cons in IH as [Hs Hr]. constructor; [|done].
        unfold singleLine in *. cbn [allChars]. by rewrite Ec, Hs.
Qed.

(** The lines kept from a text box: not empty, trimmed, one line. *)
Lemma kept_lines text :
  Forall actionLine (filter (fun a => nonEmpty a = true) (map trim (splitLines text))).
Proof.
  apply Forall_forall. intros a Ha. apply list_elem_of_filter in Ha as [Hne Ha].
  apply list_elem_of_fmap in Ha as (seg & -> & Hseg).
  split; [by apply nonEmpty_true|]. split; [apply trim_idem|].
  pose proof (splitLines_from_single false text) as Hs.
  rewrite Forall_forall in Hs. specialize (Hs seg Hseg).
  unfold singleLine, trim in *. by apply allChars_trimEnd, allChars_trimStart.
Qed.

Lemma setProp_Forall (P : string * jsval -> Prop) k v (o : obj) :
  P (k, v) -> Forall P o -> Forall P (setProp k v o).
Proof.
  intros Hkv. induction o as [|[k0 v0] o IH]; intros Ho; cbn [setProp].
  - by repeat constructor.
  - apply Forall_cons in Ho as [H0 Ho]. destruct (String.eqb k k0) eqn:E.
    + apply String.eqb_eq in E. subst k0. by constructor.
    + constructor; [done | by apply IH].
Qed.

Lemma parseHeaders_entries text :
  NoDup ((parseHeaders text).*1) /\ Forall headerEntry (parseHeaders text).
Proof.
  unfold parseHeaders.
  assert (NoDup (([] : obj).*1) /\ Forall headerEntry ([] : obj)) as H
    by (split; constructor).
  revert H. generalize ([] : obj). induction (splitLines text) as [|line ls IH];
    intros acc [Hnd Hall]; cbn [foldl]; [done|].
  apply IH. destruct (cutAt ":" line) as [[k v]|]; [|done].
  destruct (nonEmpty (trim k)) eqn:Hk; [|done].
  split; [by apply setProp_NoDup|]. apply setProp_Forall; [|done].
  split; [by apply nonEmpty_true|]. split; [apply trim_idem|].
  exists (trim v). split; [done | apply trim_idem].
Qed.

(** The submit handler assigns eleven fields, whatever the record. *)
Lemma editedTask_assign f :
  exists e : obj,
    e.*1 = ["name"; "url"; "standard"; "timeout"; "wait"; "actions"; "username";
            "password"; "headers"; "hideElements"; "ignore"] /\
    forall task, editedTask f task = Object_assign task e.
Proof.
  eexists [("name", _); ("url", _); ("standard", _); ("timeout", _); ("wait", _);
           ("actions", _); ("username", _); ("password", _); ("headers", _);
           ("hideElements", _); ("ignore", _)].
  split; [reflexivity|]. intros task. reflexivity.
Qed.

Lemma edited_NoDup :
  NoDup ["name"; "url"; "standard"; "timeout"; "wait"; "actions"; "username";
         "password"; "headers"; "hideElements"; "ignore"].
Proof.
  repeat (apply NoDup_cons_2;
          [rewrite ?elem_of_cons, elem_of_nil; intros Hx;
           repeat (destruct Hx as [Hx|Hx]; [discriminate Hx|]); done|]).
  apply NoDup_nil_2.
Qed.

Lemma editedTask_other f task field :
  field ∉ ["name"; "url"; "standard"; "timeout"; "wait"; "actions"; "username";
           "password"; "headers"; "hideElements"; "ignore"] ->
  getProp field (editedTask f task) = getProp field task.
Proof.
  intros Hf. destruct (editedTask_assign f) as (e & He & ->).
  rewrite getProp_assign by (rewrite He; apply edited_NoDup).
  rewrite getProp_None; [done | by rewrite He].
Qed.

Lemma editedTask_again f task :
  editedTask f (editedTask f task) = editedTask f task.
Proof.
  destruct (editedTask_assign f) as (e & He & Heq). rewrite !Heq.
  assert (NoDup (e.*1)) as Hnd by (rewrite He; apply edited_NoDup).
  apply assign_absorb. intros k v Hin.
  rewrite getProp_assign by done. by rewrite (getProp_elem _ _ _ Hnd Hin).
Qed.

Lemma orUndefined_cases x :
  orUndefined x = JUndef \/ (orUndefined x = JStr x /\ x <> "").
Proof.
  unfold orUndefined. destruct (nonEmpty x) eqn:E; [right|by left].
  split; [done | by apply nonEmpty_true].
Qed.

End SubmitFacts.

(** X9. What the submit handler of the edit form leaves in the
    store: the record keeps its id and every field the form does not
    edit, the last result among them; the stored actions are
    non-empty trimmed single lines; the stored headers are undefined
    or a non-empty object of distinct trimmed names with trimmed
    string values; the ignored rules are the checked boxes; and
    submitting the same form again changes nothing. *)
Theorem submit_stores_normalised_record
    (pathname id : string) (f : EditManager.editForm) (d : db) :
  db_wf d ->
  EditManager.pathId pathname = Some id ->
  let before := default [("id", JStr id)] (tasks d !! id) in
  let d' := EditManager.submit pathname f d in
  (exists t',
     tasks d' !! id = Some t' /\
     prop "id" t' = JStr id /\
     (forall field,
        field ∉ ["name"; "url"; "standard"; "timeout"; "wait"; "actions"; "username";
                 "password"; "headers"; "hideElements"; "ignore"] ->
        getProp field t' = getProp field before) /\
     (exists acts, prop "actions" t' = JArr (map JStr acts) /\
                   Forall EditManager.actionLine acts) /\
     (prop "headers" t' = JUndef \/
      exists h, prop "headers" t' = JObj h /\ h <> [] /\ NoDup (h.*1) /\
                Forall EditManager.headerEntry h) /\
     (exists rules, prop "ignore" t' = JArr (map JStr rules) /\
                    forall rule, rule ∈ rules <-> EditManager.ignored f rule)) /\
  (forall k, k <> id -> tasks d' !! k = tasks d !! k) /\
  results d' = results d /\
  EditManager.submit pathname f d' = d'.
Proof.
  intros Hwf Hpath before d'. unfold d'.
  pose proof (submit_wf pathname f d Hwf) as Hwf1.
  rewrite (submit_spec _ _ _ _ Hwf1 Hpath).
  rewrite (submit_spec _ _ _ _ Hwf Hpath) in *. fold before.
  set (t := EditManager.editedTask f before). cbn [tasks results].
  split; [|split; [|split]].
  - exists t. split; [apply lookup_insert_eq|]. split; [|split; [|split; [|split]]].
    + unfold prop, t. rewrite editedTask_id. unfold before.
      destruct (tasks d !! id) as [t0|] eqn:E; [|done].
      apply (keyPath_prop t0 id). by apply (proj1 Hwf).
    + intros field Hf. by apply editedTask_other.
    + unfold t. rewrite editedTask_actions.
      destruct (nonEmpty _); [|by exists []].
      eexists. split; [reflexivity | apply kept_lines].
    + unfold t. rewrite editedTask_headers.
      destruct (nonEmpty _); [|by left].
      destruct (parseHeaders_entries (EditManager.getVal "#new-task-headers" f))
        as [Hnd Hall].
      destruct (EditManager.parseHeaders _) as [|kv h]; [by left|].
      right. eexists. split; [reflexivity|]. done.
    + unfold t. rewrite editedTask_ignore.
      exists (map EditManager.cb_value
                (filter (fun b => EditManager.cb_checked b = true)
                        (EditManager.ignoreBoxes f))).
      split; [by rewrite map_map|]. intros rule. symmetry. apply ignored_checked.
  - intros k Hk. by apply lookup_insert_ne.
  - done.
  - rewrite lookup_insert_eq. cbn [default from_option]. f_equal.
    rewrite insert_insert_eq. f_equal. apply editedTask_again.
Qed.

Lemma submit_stores_normalised_record_witness :
  let d := Db ∅ ∅ in
  let f := EditManager.EditForm ∅ [EditManager.Checkbox "rule-1" true] in
  db_wf d /\ EditManager.pathId "/T/edit" = Some "T" /\
  EditManager.submit "/T/edit" f (EditManager.submit "/T/edit" f d)
    = EditManager.submit "/T/edit" f d.
Proof.
  intros d f.
  assert (db_wf d) as Hwf.
  { split; intros k o H; simpl in H; by rewrite lookup_empty in H. }
  assert (EditManager.pathId "/T/edit" = Some "T") as Hp by reflexivity.
  split; [exact Hwf|]. split; [exact Hp|].
  exact (proj2 (proj2 (proj2 (submit_stores_normalised_record "/T/edit" "T" f d Hwf Hp)))).
Defined.

(** ** The task id in the address of the page *)

Lemma splitChar_head (p : string) :
  exists seg rest post,
    splitChar "/" p = seg :: rest /\
    allChars (fun c => negb (Ascii.eqb c "/")) seg = true /\
    p = seg +:+ post /\
    (post = "" \/ firstChar post = Some "/"%char).
Proof.
  induction p as [|c p IH]; cbn [splitChar].
  - exists "", [], "". split; [done|]. split; [done|]. split; [done | by left].
  - destruct (Ascii.eqb c "/") eqn:Ec.
    + apply Ascii.eqb_eq in Ec. subst c.
      exists "", (splitChar "/" p), (String "/" p).
      split; [done|]. split; [done|]. split; [by rewrite append_nil_l | by right].
    + destruct IH as (seg & rest & post & -> & Hseg & Hp & Hpost).
      exists (String c seg), rest, post. split; [done|]. split.
      * cbn [allChars]. by rewrite Ec, Hseg.
      * split; [by rewrite append_cons, <- Hp | done].
Qed.

(** X10. The id the edit page works on is the first non-empty
    segment of the path: the path is a run of slashes, then the id,
    which is not empty and holds no slash, then nothing or a slash and
    the rest; and there is no id exactly when the path holds nothing
    but slashes. *)
Theorem pathId_first_segment (pathname : string) :
  match EditManager.pathId pathname with
  | Some id =>
      id <> "" /\
      allChars (fun c => negb (Ascii.eqb c "/")) id = true /\
      exists pre post,
        pathname = pre +:+ id +:+ post /\
        allChars (fun c => Ascii.eqb c "/") pre = true /\
        (post = "" \/ firstChar post = Some "/"%char)
  | None => allChars (fun c => Ascii.eqb c "/") pathname = true
  end.
Proof.
  unfold EditManager.pathId.
  induction pathname as [|c p IH]; cbn [splitChar].
  - rewrite filter_cons. by cbn.
  - destruct (Ascii.eqb c "/") eqn:Ec.
    + rewrite filter_cons. cbn [nonEmpty String.eqb negb]. rewrite decide_False by done.
      destruct (head _) as [id|].
      * destruct IH as (Hne & Hid & pre & post & Hp & Hpre & Hpost).
        split; [done|]. split; [done|]. exists (String c pre), post.
        split; [by rewrite append_cons, <- Hp|]. split; [|done].
        cbn [allChars]. by rewrite Ec, Hpre.
      * cbn [allChars]. by rewrite Ec, IH.
    + clear IH. destruct (splitChar_head p) as (seg & rest & post & -> & Hseg & Hp & Hpost).
      rewrite filter_cons. cbn [nonEmpty String.eqb negb]. rewrite decide_True by done.
      cbn [head]. split; [done|]. split; [cbn [allChars]; by rewrite Ec, Hseg|].
      exists "", post. rewrite append_nil_l, append_cons, <- Hp. by split.
Qed.

(** ** Exporting and importing back *)

Section ExportFacts.
Import ExportImport.




End ExportFacts.



(** ** Grouping the issues of a result *)

Section GroupFacts.
Import ResultSync.

Lemma groupStep_None key item : groupStep key None item = None.
Proof. done. Qed.

Lemma groupStep_Some key result item :
  item <> JUndef -> item <> JNull ->
  groupStep key (Some result) item =
    match getProp (toStr (member key item)) result with
    | Some (JArr group) =>
        Some (setProp (toStr (member key item)) (JArr (group ++ [item])) result)
    | Some _ => None
    | None =>
        if bool_decide (toStr (member key item) ∈ protoNames) then None
        else Some (setProp (toStr (member key item)) (JArr [item]) result)
    end.
Proof. intros Hu Hn. by destruct item. Qed.

Lemma groupBy_snoc arr item key :
  groupBy (arr ++ [item]) key = groupStep key (groupBy arr key) item.
Proof. unfold groupBy. by rewrite foldl_app. Qed.

Lemma groupBy_spec arr key :
  match groupBy arr key with
  | Some g =>
      Forall (groupable key) arr /\ NoDup (g.*1) /\
      forall k, getProp k g = match groupOf key k arr with
                              | [] => None
                              | items => Some (JArr items)
                              end
  | None => ~ Forall (groupable key) arr
  end.
Proof.
  induction arr as [|item arr IH] using rev_ind.
  - cbn. split; [constructor|]. split; [constructor | done].
  - rewrite groupBy_snoc. destruct (groupBy arr key) as [g|].
    + destruct IH as (Hall & Hnd & Hg).
      assert (item = JUndef \/ item = JNull \/ (item <> JUndef /\ item <> JNull))
        as [->|[->|[Hu Hn]]] by (destruct item; auto).
      { cbn. intros H. apply Forall_app in H as [_ H].
        apply Forall_singleton in H as [H _]. done. }
      { cbn. intros H. apply Forall_app in H as [_ H].
        apply Forall_singleton in H as (_ & H & _). done. }
      rewrite groupStep_Some by done. set (k0 := toStr (member key item)).
      assert (forall k, groupOf key k (arr ++ [item]) =
                (groupOf key k arr ++ if decide (k0 = k) then [item] else [])%list)
        as Happ.
      { intros k. unfold groupOf. by rewrite filter_app. }
      rewrite (Hg k0). destruct (groupOf key k0 arr) as [|i0 items] eqn:E0.
      * case_bool_decide as Hp.
        { intros H. apply Forall_app in H as [_ H].
          apply Forall_singleton in H as (_ & _ & H). done. }
        split; [apply Forall_app; split; [done|]; by apply Forall_singleton|].
        split; [by apply setProp_NoDup|]. intros k.
        rewrite getProp_setProp, Happ. case_decide as Hk.
        -- subst k. by rewrite E0.
        -- rewrite app_nil_r. apply Hg.
      * split.
        { apply Forall_app. split; [done|]. apply Forall_singleton.
          split; [done|]. split; [done|].
          assert (i0 ∈ groupOf key k0 arr) as Hin by (rewrite E0; left).
          apply list_elem_of_filter in Hin as [Hk Hin].
          rewrite Forall_forall in Hall. destruct (Hall i0 Hin) as (_ & _ & H).
          by rewrite Hk in H. }
        split; [by apply setProp_NoDup|]. intros k.
        rewrite getProp_setProp, Happ. case_decide as Hk.
        -- subst k. by rewrite E0.
        -- rewrite app_nil_r. apply Hg.
    + rewrite groupStep_None. intros H. apply Forall_app in H as [H _]. done.
Qed.

End GroupFacts.

(** ** The panels of a category *)

Section PanelFacts.
Import ResultSync.

Lemma Object_keys_perm (o : obj) : EditManager.Object_keys o ≡ₚ o.*1.
Proof.
  unfold EditManager.Object_keys. rewrite merge_sort_Permutation.
  induction o as [|[k v] o IH]; [done|].
  unfold EditManager.indexKeys in *. cbn [omap list_omap fst].
  rewrite fmap_cons, filter_cons. cbn [fst].
  destruct (EditManager.arrayIndex k) as [n|] eqn:E; cbn [fmap option_fmap option_map].
  - rewrite decide_False by done. rewrite fmap_cons. cbn [snd fst app].
    by rewrite IH.
  - rewrite decide_True by done. rewrite <- Permutation_middle. by rewrite IH.
Qed.

Lemma props_of_keys (o : obj) :
  NoDup (o.*1) -> map (fun k => prop k o) (o.*1) = o.*2.
Proof.
  intros Hnd. rewrite <- list_fmap_compose. apply list_fmap_ext.
  intros i [k v] Hi. apply list_elem_of_lookup_2 in Hi. cbn.
  unfold prop. by rewrite (getProp_elem _ _ _ Hnd Hi).
Qed.

Lemma Object_values_perm (o : obj) : NoDup (o.*1) -> Object_values o ≡ₚ o.*2.
Proof.
  intros Hnd. unfold Object_values. rewrite <- (props_of_keys o Hnd).
  apply fmap_Permutation, Object_keys_perm.
Qed.

Lemma insertGroup_perm group sorted : insertGroup group sorted ≡ₚ group :: sorted.
Proof.
  induction sorted as [|h t IH]; cbn [insertGroup]; [done|].
  destruct (_ <? _)%nat; [|done]. rewrite IH. apply Permutation_swap.
Qed.

Lemma sortGroups_perm groups : sortGroups groups ≡ₚ groups.
Proof.
  induction groups as [|g l IH]; [done|].
  cbn [sortGroups foldr]. etrans; [apply insertGroup_perm|].
  apply Permutation_skip. exact IH.
Qed.

(** Longest first. *)
Lemma insertGroup_sorted group sorted :
  StronglySorted (fun a b => (groupLength b <= groupLength a)%nat) sorted ->
  StronglySorted (fun a b => (groupLength b <= groupLength a)%nat)
                 (insertGroup group sorted).
Proof.
  induction sorted as [|h t IH]; intros Hs; cbn [insertGroup].
  - repeat constructor.
  - apply StronglySorted_inv in Hs as [Ht Hh].
    destruct (groupLength group <? groupLength h)%nat eqn:E.
    + apply Nat.ltb_lt in E. constructor; [by apply IH|].
      apply Forall_forall. intros x Hx.
      rewrite (insertGroup_perm group t) in Hx.
      apply elem_of_cons in Hx as [->|Hx]; [lia|].
      rewrite Forall_forall in Hh. by apply Hh.
    + apply Nat.ltb_ge in E. constructor; [by constructor|].
      constructor; [done|]. eapply Forall_impl; [exact Hh|]. intros x Hx. simpl in *. lia.
Qed.

Lemma sortGroups_sorted groups :
  StronglySorted (fun a b => (groupLength b <= groupLength a)%nat) (sortGroups groups).
Proof.
  induction groups as [|g l IH]; cbn [sortGroups foldr]; [constructor|].
  by apply insertGroup_sorted.
Qed.

Lemma panelsFrom_spec type idx groups :
  Forall (fun group => exists first rest, group = JArr (first :: rest)) groups ->
  exists panels,
    panelsFrom type idx groups = Some panels /\
    map badge panels = map groupLength groups /\
    forall i p, panels !! i = Some p ->
      details_id p = type +:+ "-" +:+ pretty (idx + i)%nat /\
      exists first rest,
        groups !! i = Some (JArr (first :: rest)) /\
        rule_name p = toStr (member "code" first) /\
        message p = toStr (member "message" first) /\
        selectors p = map (fun item => toStr (member "selector" item)) (first :: rest) /\
        badge p = length (first :: rest).
Proof.
  revert idx. induction groups as [|group groups IH]; intros idx Hall.
  - exists []. split; [done|]. split; [done|]. intros i p H. by destruct i.
  - apply Forall_cons in Hall as [(first & rest & ->) Hall].
    destruct (IH (S idx) Hall) as (panels & Hp & Hb & Hi).
    cbn [panelsFrom panelOf]. rewrite Hp. eexists. split; [reflexivity|].
    split; [cbn [map badge groupLength]; by rewrite Hb|].
    intros [|i] p Hl.
    + injection Hl as <-. cbn [details_id]. rewrite Nat.add_0_r. split; [done|].
      exists first, rest. done.
    + cbn in Hl. destruct (Hi i p Hl) as (Hd & H).
      split; [by rewrite Hd, Nat.add_succ_comm | exact H].
Qed.

Lemma sum_list_perm (l1 l2 : list nat) : l1 ≡ₚ l2 -> sum_list l1 = sum_list l2.
Proof. induction 1; cbn; lia. Qed.

(** Every group of a grouping holds the item that has just been
    added, so the groups cover the items. *)
Lemma setProp_values_sum k v (o : obj) :
  (sum_list (map groupLength ((setProp k v o).*2))
   + match getProp k o with Some w => groupLength w | None => 0 end
   = sum_list (map groupLength (o.*2)) + groupLength v)%nat.
Proof.
  induction o as [|[k0 v0] o IH]; cbn [setProp getProp].
  - cbn. lia.
  - destruct (String.eqb k k0); cbn; [lia|]. cbn in IH. lia.
Qed.

Lemma groupBy_total arr key g :
  groupBy arr key = Some g ->
  sum_list (map groupLength (g.*2)) = length arr.
Proof.
  revert g. induction arr as [|item arr IH] using rev_ind; intros g.
  - by intros [= <-].
  - rewrite groupBy_snoc. destruct (groupBy arr key) as [g0|]; [|done].
    specialize (IH g0 eq_refl).
    assert (item = JUndef \/ item = JNull \/ (item <> JUndef /\ item <> JNull))
      as [->|[->|[Hu Hn]]] by (destruct item; auto); [done|done|].
    rewrite groupStep_Some by done. rewrite length_app. cbn [length].
    pose proof (setProp_values_sum (toStr (member key item))) as Hsum.
    destruct (getProp (toStr (member key item)) g0) as [[| | | | |group|]|] eqn:E;
      try done.
    + intros [= <-]. specialize (Hsum (JArr (group ++ [item])) g0).
      rewrite E in Hsum. cbn [groupLength] in Hsum. rewrite length_app in Hsum.
      cbn [length] in Hsum. lia.
    + case_bool_decide; [done|]. intros [= <-].
      specialize (Hsum (JArr [item]) g0). rewrite E in Hsum. cbn in Hsum. lia.
Qed.

End PanelFacts.

Section CategoryFacts.
Import ResultSync.

Lemma group_values arr key g :
  groupBy arr key = Some g ->
  forall group, group ∈ g.*2 <->
    exists k first rest, groupOf key k arr = first :: rest /\ group = JArr (first :: rest).
Proof.
  intros Hg. pose proof (groupBy_spec arr key) as H. rewrite Hg in H.
  destruct H as (_ & Hnd & Hget). intros group. split.
  - intros Hin. apply list_elem_of_fmap in Hin as ([k v] & -> & Hin).
    pose proof (getProp_elem _ _ _ Hnd Hin) as Hk. rewrite Hget in Hk.
    destruct (groupOf key k arr) as [|first rest] eqn:E; [done|].
    injection Hk as <-. by exists k, first, rest.
  - intros (k & first & rest & Hk & ->). specialize (Hget k). rewrite Hk in Hget.
    clear -Hget. induction g as [|[k0 v0] g IH]; [done|].
    cbn [getProp] in Hget. rewrite fmap_cons. cbn [snd].
    destruct (String.eqb k k0); [injection Hget as ->; by left|].
    right. by apply IH.
Qed.

Lemma group_first arr key k first rest :
  groupOf key k arr = first :: rest -> toStr (member key first) = k.
Proof.
  intros H. assert (first ∈ groupOf key k arr) as Hin by (rewrite H; left).
  by apply list_elem_of_filter in Hin as [Hk _].
Qed.

Lemma group_keys arr key g :
  groupBy arr key = Some g ->
  map (fun group => match group with
                    | JArr (first :: _) => toStr (member key first)
                    | _ => ""
                    end) (g.*2) = g.*1.
Proof.
  intros Hg. pose proof (groupBy_spec arr key) as H. rewrite Hg in H.
  destruct H as (_ & Hnd & Hget).
  rewrite <- list_fmap_compose. apply list_fmap_ext.
  intros i [k v] Hi. apply list_elem_of_lookup_2 in Hi. cbn.
  pose proof (getProp_elem _ _ _ Hnd Hi) as Hk. rewrite Hget in Hk.
  destruct (groupOf key k arr) as [|first rest] eqn:E; [done|].
  injection Hk as <-. by apply (group_first arr key k first rest).
Qed.

End CategoryFacts.

Lemma buildCategory_total (type : string) (issues : list jsval) (g : obj) :
  ResultSync.groupBy issues "code" = Some g ->
  exists panels,
    ResultSync.buildCategory type g = Some panels /\
    sum_list (map ResultSync.badge panels) = length issues.
Proof.
  intros Hg. pose proof (groupBy_spec issues "code") as Hspec. rewrite Hg in Hspec.
  destruct Hspec as (_ & Hnd & _).
  pose proof (group_values issues "code" g Hg) as Hvals.
  assert (ResultSync.sortGroups (ResultSync.Object_values g) ≡ₚ g.*2) as Hperm.
  { etrans; [apply sortGroups_perm | by apply Object_values_perm]. }
  destruct (panelsFrom_spec type 0 (ResultSync.sortGroups (ResultSync.Object_values g)))
    as (panels & Hp & Hb & _).
  { apply Forall_forall. intros group Hin. rewrite Hperm in Hin.
    apply Hvals in Hin as (k & first & rest & _ & ->). eauto. }
  exists panels. split; [exact Hp|].
  rewrite Hb, (sum_list_perm _ _ (fmap_Permutation _ _ _ Hperm)).
  by apply (groupBy_total issues "code").
Qed.

(** X12. [groupBy] splits a list by the string form of a property:
    it succeeds exactly when no item is [null] or [undefined] and no
    key is a name inherited from [Object.prototype]; the result then
    has one property for every key that occurs, holding the items
    with that key in their order, and the groups hold as many items
    as the list. *)
Theorem groupBy_partitions (arr : list jsval) (key : string) :
  match ResultSync.groupBy arr key with
  | Some g =>
      Forall (ResultSync.groupable key) arr /\ NoDup (g.*1) /\
      (forall k, getProp k g = match ResultSync.groupOf key k arr with
                               | [] => None
                               | items => Some (JArr items)
                               end) /\
      sum_list (map ResultSync.groupLength (g.*2)) = length arr
  | None => ~ Forall (ResultSync.groupable key) arr
  end.
Proof.
  pose proof (groupBy_spec arr key) as H.
  pose proof (groupBy_total arr key) as Ht.
  destruct (ResultSync.groupBy arr key) as [g|]; [|exact H].
  destruct H as (H1 & H2 & H3). split; [done|]. split; [done|]. split; [done|].
  by apply Ht.
Qed.

(** X13. The panels of a category built from the issues grouped by
    code: there is one panel for every code that occurs, in no two
    panels the same; a panel lists the selectors of the issues with
    its code in their order, shows the message of the first of them
    and carries their number as its badge; the badges add up to the
    number of issues; the panels come longest first; and the details
    of the panels are numbered in that order. *)
Theorem category_panels (type : string) (issues : list jsval) (g : obj) :
  ResultSync.groupBy issues "code" = Some g ->
  exists panels,
    ResultSync.buildCategory type g = Some panels /\
    sum_list (map ResultSync.badge panels) = length issues /\
    StronglySorted (fun a b => (b <= a)%nat) (map ResultSync.badge panels) /\
    NoDup (map ResultSync.rule_name panels) /\
    (forall i p, panels !! i = Some p ->
       ResultSync.details_id p = type +:+ "-" +:+ pretty i /\
       exists first rest,
         ResultSync.groupOf "code" (ResultSync.rule_name p) issues = first :: rest /\
         ResultSync.message p = toStr (member "message" first) /\
         ResultSync.selectors p
           = map (fun item => toStr (member "selector" item)) (first :: rest) /\
         ResultSync.badge p = length (first :: rest)) /\
    (forall item, item ∈ issues ->
       exists p, p ∈ panels /\ ResultSync.rule_name p = toStr (member "code" item)).
Proof.
  intros Hg. pose proof (groupBy_spec issues "code") as Hspec. rewrite Hg in Hspec.
  destruct Hspec as (_ & Hnd & Hget).
  pose proof (group_values issues "code" g Hg) as Hvals.
  set (groups := ResultSync.sortGroups (ResultSync.Object_values g)).
  assert (groups ≡ₚ g.*2) as Hperm.
  { unfold groups. etrans; [apply sortGroups_perm | by apply Object_values_perm]. }
  assert (forall group, group ∈ groups <->
            exists k first rest, ResultSync.groupOf "code" k issues = first :: rest /\
                                 group = JArr (first :: rest)) as Hgroups.
  { intros group. rewrite Hperm. apply Hvals. }
  destruct (panelsFrom_spec type 0 groups) as (panels & Hp & Hb & Hi).
  { apply Forall_forall. intros group Hin.
    apply Hgroups in Hin as (k & first & rest & _ & ->). eauto. }
  assert (length panels = length groups) as Hlen.
  { rewrite <- (length_map ResultSync.badge), Hb. apply length_map. }
  assert (forall i p, panels !! i = Some p ->
            exists first rest, groups !! i = Some (JArr (first :: rest)) /\
              ResultSync.groupOf "code" (ResultSync.rule_name p) issues = first :: rest)
    as Hpanel.
  { intros i p Hl. destruct (Hi i p Hl) as (_ & first & rest & Hgi & Hr & _).
    exists first, rest. split; [done|].
    assert (JArr (first :: rest) ∈ groups) as Hin by (by eapply list_elem_of_lookup_2).
    apply Hgroups in Hin as (k & first' & rest' & Hk & [= <- <-]).
    by rewrite Hr, (group_first _ _ _ _ _ Hk). }
  exists panels. split; [exact Hp|]. split; [|split; [|split; [|split]]].
  - rewrite Hb, (sum_list_perm _ _ (fmap_Permutation _ _ _ Hperm)).
    by apply (groupBy_total issues "code").
  - rewrite Hb. eapply StronglySorted_fmap; [|apply sortGroups_sorted].
    intros x y H. exact H.
  - assert (map ResultSync.rule_name panels =
            map (fun group => match group with
                              | JArr (first :: _) => toStr (member "code" first)
                              | _ => ""
                              end) groups) as ->.
    { apply list_eq. intros i. rewrite !list_lookup_fmap.
      destruct (panels !! i) as [p|] eqn:El.
      - destruct (Hi i p El) as (_ & first & rest & -> & Hr & _). cbn. by rewrite Hr.
      - apply lookup_ge_None in El. rewrite Hlen in El.
        apply lookup_ge_None in El. by rewrite El. }
    pose proof Hnd as Hkeys. rewrite <- (group_keys issues "code" g Hg) in Hkeys.
    rewrite (fmap_Permutation _ _ _ Hperm). exact Hkeys.
  - intros i p Hl. destruct (Hi i p Hl) as (Hd & first & rest & Hgi & _ & Hm & Hs & Hbp).
    split; [exact Hd|]. destruct (Hpanel i p Hl) as (first' & rest' & Hgi' & Hk).
    rewrite Hgi in Hgi'. injection Hgi' as <- <-. exists first, rest. done.
  - intros item Hin. set (k := toStr (member "code" item)).
    assert (item ∈ ResultSync.groupOf "code" k issues) as Hk
      by (by apply list_elem_of_filter).
    destruct (ResultSync.groupOf "code" k issues) as [|first rest] eqn:E;
      [by apply elem_of_nil in Hk|].
    assert (JArr (first :: rest) ∈ groups) as Hgin by (apply Hgroups; eauto).
    apply list_elem_of_lookup_1 in Hgin as [i Hgi].
    destruct (lookup_lt_is_Some_2 panels i) as [p Hl].
    { rewrite Hlen. by eapply lookup_lt_Some. }
    exists p. split; [by eapply list_elem_of_lookup_2|].
    destruct (Hi i p Hl) as (_ & first' & rest' & Hgi' & Hr & _).
    rewrite Hgi in Hgi'. injection Hgi' as <- <-. rewrite Hr.
    by apply (group_first issues "code" k first rest).
Qed.

Lemma category_panels_witness :
  let issue code selector := JObj [("code", JStr code); ("type", JStr "error");
                                   ("message", JStr "m"); ("selector", JStr selector)] in
  let issues := [issue "A" "#a1"; issue "B" "#b1"; issue "B" "#b2"] in
  exists g panels,
    ResultSync.groupBy issues "code" = Some g /\
    ResultSync.buildCategory "error" g = Some panels /\
    sum_list (map ResultSync.badge panels) = length issues.
Proof.
  intros issue issues.
  assert (exists g, ResultSync.groupBy issues "code" = Some g) as [g Hg]
    by (eexists; reflexivity).
  destruct (category_panels "error" issues g Hg) as (panels & H1 & H2 & _).
  exists g, panels. split; [exact Hg|]. split; [exact H1 | exact H2].
Defined.

(** ** The section shown for a stored run *)

Section RenderFacts.
Import ResultSync.

Lemma typed_groupOf t issues :
  forallb typedIssue issues = true ->
  groupOf "type" t issues = filter (fun e => hasType t e = true) issues.
Proof.
  unfold groupOf. induction issues as [|e issues IH]; [done|].
  cbn [forallb]. intros H. apply andb_true_iff in H as [He Hrest].
  rewrite !filter_cons, (IH Hrest).
  destruct e as [| | | | | |o]; try done. cbn in He. unfold hasType. cbn [member].
  destruct (prop "type" o) as [| | | |s| |] eqn:Ep; try done. cbn [toStr strictEq].
  destruct (String.eqb s t) eqn:Es.
  - apply String.eqb_eq in Es. subst s. by rewrite !decide_True.
  - rewrite !decide_False; [done|done|]. intros ->. by rewrite String.eqb_refl in Es.
Qed.

Lemma typed_count t issues :
  forallb typedIssue issues = true ->
  countOf t issues = Z.of_nat (length (groupOf "type" t issues)).
Proof. intros H. unfold countOf. by rewrite typed_groupOf. Qed.

Lemma groupBy_succeeds arr key :
  Forall (groupable key) arr -> is_Some (groupBy arr key).
Proof.
  intros H. pose proof (groupBy_spec arr key) as Hs.
  destruct (groupBy arr key); [eauto | done].
Qed.

Lemma byCode_spec issuesByType issues t :
  groupBy issues "type" = Some issuesByType ->
  Forall (groupable "code") issues ->
  exists g, byCode issuesByType t = Some g /\
            groupBy (groupOf "type" t issues) "code" = Some g.
Proof.
  intros Hg Hall. pose proof (groupBy_spec issues "type") as Hs. rewrite Hg in Hs.
  destruct Hs as (_ & _ & Hget).
  destruct (groupBy_succeeds (groupOf "type" t issues) "code") as [g Hsub].
  { apply Forall_forall. intros x Hx. apply list_elem_of_filter in Hx as [_ Hx].
    rewrite Forall_forall in Hall. by apply Hall. }
  exists g. split; [|done]. unfold byCode, prop. rewrite Hget.
  by destruct (groupOf "type" t issues).
Qed.

(** The record of a run of typed issues, as the run manager stores it. *)
Lemma stored_result taskId resultId now (task report : obj) issues d result :
  prop "issues" report = JArr issues ->
  forallb typedIssue issues = true ->
  results (RunManager.storeRun taskId resultId now task (JObj report) d).1 !! resultId
    = Some result ->
  exists c,
    prop "count" result = RunManager.countsObj c /\
    prop "results" result = JArr issues /\
    prop "ignore" result = js_or (prop "ignore" task) (JArr []) /\
    RunManager.error c = countOf "error" issues /\
    RunManager.warning c = countOf "warning" issues /\
    RunManager.notice c = countOf "notice" issues.
Proof.
  intros Hissues Htyped.
  destruct (tally_typed issues (RunManager.Counts 0 0 0) Htyped)
    as (c & Hc & He & Hw & Hn).
  cbn in He, Hw, Hn.
  unfold RunManager.storeRun, RunManager.countIssues. cbn [truthy member].
  rewrite Hissues, Hc. cbn [js_or truthy].
  set (r := [("id", JStr resultId); _; _; _; _; _; _; _; _]).
  rewrite (saveResult_fulfilled r resultId d eq_refl).
  match goal with
  | |- context [saveTask ?t ?d1] =>
      pose proof (saveTask_results t d1) as Hres;
      destruct (saveTask t d1) as [d2 [|]]
  end; cbn [fst results] in *; rewrite Hres, lookup_insert_eq; intros [= <-];
    exists c; done.
Qed.

End RenderFacts.

Section RenderTabs.
Import ResultSync.

Lemma shownCount_counts (result : obj) c :
  prop "count" result = RunManager.countsObj c ->
  toStr (shownCount result "error") = pretty (RunManager.error c) /\
  toStr (shownCount result "warning") = pretty (RunManager.warning c) /\
  toStr (shownCount result "notice") = pretty (RunManager.notice c).
Proof.
  intros Hc. unfold shownCount. rewrite Hc. unfold RunManager.countsObj.
  cbn [truthy member andb]. unfold prop.
  cbn [getProp String.eqb Ascii.eqb Bool.eqb default from_option andb truthy].
  unfold id. cbn [truthy].
  split; [|split].
  - destruct (RunManager.error c =? 0) eqn:E; cbn [negb toStr]; [|done].
    apply Z.eqb_eq in E. by rewrite E.
  - destruct (RunManager.warning c =? 0) eqn:E; cbn [negb toStr]; [|done].
    apply Z.eqb_eq in E. by rewrite E.
  - destruct (RunManager.notice c =? 0) eqn:E; cbn [negb toStr]; [|done].
    apply Z.eqb_eq in E. by rewrite E.
Qed.

Lemma tab_of_type (issues : list jsval) issuesByType t :
  groupBy issues "type" = Some issuesByType ->
  Forall (groupable "code") issues ->
  exists g panels,
    byCode issuesByType t = Some g /\
    buildCategory t g = Some panels /\
    sum_list (map badge panels) = length (groupOf "type" t issues).
Proof.
  intros Hg Hall. destruct (byCode_spec issuesByType issues t Hg Hall) as (g & Hb & Hsub).
  destruct (buildCategory_total t _ g Hsub) as (panels & Hp & Hsum).
  by exists g, panels.
Qed.

End RenderTabs.

(** X14. The section rendered for a run that the run manager
    stored: each of the three tabs shows in its title the count kept
    with the result, and that count is the sum of the badges of the
    panels in its pane; the first tab is the active one. *)
Theorem stored_run_tabs_agree
    (taskId resultId now : string) (task report : obj) (issues : list jsval)
    (d : db) (result : obj) :
  prop "issues" report = JArr issues ->
  forallb typedIssue issues = true ->
  Forall (ResultSync.groupable "type") issues ->
  Forall (ResultSync.groupable "code") issues ->
  results (RunManager.storeRun taskId resultId now task (JObj report) d).1 !! resultId
    = Some result ->
  exists te tw tn ignored,
    ResultSync.render result = Some (ResultSync.SectionOf [te; tw; tn] ignored) /\
    ResultSync.tab_label te = "Errors ( " +:+ pretty (countOf "error" issues) +:+ " )" /\
    ResultSync.tab_label tw
      = "Warnings ( " +:+ pretty (countOf "warning" issues) +:+ " )" /\
    ResultSync.tab_label tn
      = "Notices ( " +:+ pretty (countOf "notice" issues) +:+ " )" /\
    Z.of_nat (sum_list (map ResultSync.badge (ResultSync.tab_panels te)))
      = countOf "error" issues /\
    Z.of_nat (sum_list (map ResultSync.badge (ResultSync.tab_panels tw)))
      = countOf "warning" issues /\
    Z.of_nat (sum_list (map ResultSync.badge (ResultSync.tab_panels tn)))
      = countOf "notice" issues /\
    ResultSync.tab_active te = true /\
    ResultSync.tab_active tw = false /\
    ResultSync.tab_active tn = false.
Proof.
  intros Hissues Htyped Htypes Hcodes Hstored.
  destruct (stored_result _ _ _ _ _ _ _ _ Hissues Htyped Hstored)
    as (c & Hcount & Hresults & _ & He & Hw & Hn).
  destruct (groupBy_succeeds issues "type" Htypes) as [bt Hbt].
  destruct (tab_of_type issues bt "error" Hbt Hcodes) as (ge & pe & Hge & Hpe & Hse).
  destruct (tab_of_type issues bt "warning" Hbt Hcodes) as (gw & pw & Hgw & Hpw & Hsw).
  destruct (tab_of_type issues bt "notice" Hbt Hcodes) as (gn & pn & Hgn & Hpn & Hsn).
  destruct (shownCount_counts result c Hcount) as (Le & Lw & Ln).
  unfold ResultSync.render, ResultSync.groupedByType.
  rewrite Hresults, Hbt. unfold ResultSync.types. cbn [ResultSync.byCodes].
  rewrite Hge, Hgw, Hgn. cbn [ResultSync.tabsFrom]. rewrite Hpe, Hpw, Hpn.
  rewrite Le, Lw, Ln, He, Hw, Hn.
  eexists _, _, _, _. split; [reflexivity|]. cbn [ResultSync.tab_label
    ResultSync.tab_panels ResultSync.tab_active].
  split; [reflexivity|]. split; [reflexivity|]. split; [reflexivity|].
  rewrite Hse, Hsw, Hsn, !typed_count by done. done.
Qed.

Lemma stored_run_tabs_agree_witness :
  let issue type code := JObj [("code", JStr code); ("type", JStr type);
                               ("message", JStr "m"); ("selector", JStr "#s")] in
  let issues := [issue "error" "A"; issue "warning" "B"; issue "error" "A"] in
  let report := [("issues", JArr issues)] in
  let task := [("id", JStr "T")] in
  exists result te tw tn ignored,
    results (RunManager.storeRun "T" "r1" "now" task (JObj report) (Db ∅ ∅)).1 !! "r1"
      = Some result /\
    ResultSync.render result = Some (ResultSync.SectionOf [te; tw; tn] ignored) /\
    ResultSync.tab_label te = "Errors ( 2 )".
Proof.
  intros issue issues report task.
  assert (exists result,
            results (RunManager.storeRun "T" "r1" "now" task (JObj report) (Db ∅ ∅)).1
              !! "r1" = Some result) as [result Hr].
  { eexists. cbn. apply lookup_insert_eq. }
  assert (forall key, key = "type" \/ key = "code" ->
            Forall (ResultSync.groupable key) issues) as Hok.
  { intros key Hkey. unfold ResultSync.groupable, ResultSync.protoNames.
    repeat constructor; try done;
      destruct Hkey as [-> | ->]; cbn; rewrite ?elem_of_cons, elem_of_nil; intros Hx;
      repeat (destruct Hx as [Hx|Hx]; [discriminate Hx|]); done. }
  destruct (stored_run_tabs_agree "T" "r1" "now" task report issues (Db ∅ ∅) result
              eq_refl eq_refl (Hok "type" (or_introl eq_refl))
              (Hok "code" (or_intror eq_refl)) Hr)
    as (te & tw & tn & ignored & H1 & H2 & _).
  exists result, te, tw, tn, ignored. split; [exact Hr|]. split; [exact H1 | exact H2].
Defined.

(** ** The options of a run *)

Section OptionFacts.
Import Options.

Lemma clone_truthy v : truthy (Json.clone v) = truthy v.
Proof. by destruct v. Qed.

Lemma clone_nonEmptyArray v : nonEmptyArray (Json.clone v) = nonEmptyArray v.
Proof. destruct v as [| | | | |[|x l]|]; done. Qed.

Lemma clone_isArray v : isArray (Json.clone v) = isArray v.
Proof. by destruct v. Qed.

Lemma nonEmptyArray_isArray v : nonEmptyArray v = true -> isArray v = true.
Proof. by destruct v as [| | | | |[|x l]|]. Qed.

Lemma nonEmptyArray_truthy v : nonEmptyArray v = true -> truthy v = true.
Proof. by destruct v as [| | | | |[|x l]|]. Qed.

Lemma getProp_elem_of k v (o : obj) : getProp k o = Some v -> k ∈ o.*1.
Proof.
  induction o as [|[k0 v0] o IH]; cbn [getProp]; [done|].
  rewrite fmap_cons. cbn [fst]. destruct (String.eqb k k0) eqn:E.
  - apply String.eqb_eq in E. subst. intros _. by left.
  - intros H. right. by apply IH.
Qed.

Lemma getProp_listed k (o : obj) (ks : list string) :
  getProp k (map (fun k' => (k', prop k' o)) ks) =
    if bool_decide (k ∈ ks) then Some (prop k o) else None.
Proof.
  induction ks as [|k0 ks IH]; cbn [map getProp].
  - by rewrite bool_decide_eq_false_2 by (apply not_elem_of_nil).
  - destruct (String.eqb k k0) eqn:E.
    + apply String.eqb_eq in E. subst k0. by rewrite bool_decide_eq_true_2 by (by left).
    + rewrite IH. assert (k <> k0) as Hne.
      { intros ->. by rewrite String.eqb_refl in E. }
      case_bool_decide as H1; case_bool_decide as H2; try done.
      * exfalso. apply H2. by right.
      * exfalso. apply elem_of_cons in H2 as [?|?]; done.
Qed.

Lemma getProp_enumerated k (o : obj) : getProp k (Json.enumerated o) = getProp k o.
Proof.
  unfold Json.enumerated. rewrite getProp_listed.
  destruct (getProp k o) as [v|] eqn:E.
  - rewrite bool_decide_eq_true_2.
    + unfold prop. by rewrite E.
    + rewrite Object_keys_perm. by eapply getProp_elem_of.
  - rewrite bool_decide_eq_false_2; [done|]. rewrite Object_keys_perm.
    intros Hin. apply list_elem_of_fmap in Hin as ([k0 v0] & -> & Hin).
    clear -E Hin. induction o as [|[k1 v1] o IH]; [by apply elem_of_nil in Hin|].
    cbn [getProp] in E. cbn [fst] in *. destruct (String.eqb k0 k1) eqn:E1; [done|].
    apply elem_of_cons in Hin as [[= -> ->]|Hin]; [by rewrite String.eqb_refl in E1|].
    by apply IH.
Qed.

(** Reading a property of an object that went through JSON. *)
Lemma member_clone k (o : obj) :
  NoDup (o.*1) -> member k (Json.clone (JObj o)) = Json.clone (prop k o).
Proof.
  intros Hnd. cbn [Json.clone member]. unfold prop at 1. rewrite getProp_enumerated.
  unfold prop. induction o as [|[k0 v0] o IH]; [done|].
  rewrite fmap_cons in Hnd. apply NoDup_cons in Hnd as [Hk0 Hnd]. cbn [fst] in Hk0.
  cbn [getProp]. destruct (String.eqb k k0) eqn:E.
  - apply String.eqb_eq in E. subst k0.
    destruct v0; cbn [getProp default from_option id]; rewrite ?String.eqb_refl; try done.
    rewrite (IH Hnd). by rewrite (getProp_None k o Hk0).
  - destruct v0; cbn [getProp]; rewrite ?E; by apply IH.
Qed.

End OptionFacts.

Section PayloadFacts.
Import Options.

Lemma getProp_setIf c k' v (o : obj) k :
  getProp k (RunManager.setIf c k' v o) =
    if String.eqb k' k && c then Some v else getProp k o.
Proof.
  unfold RunManager.setIf. destruct c; [|by rewrite andb_false_r].
  rewrite andb_true_r, getProp_setProp. destruct (String.eqb k' k) eqn:E.
  - apply String.eqb_eq in E. by rewrite decide_True.
  - rewrite decide_False; [done|]. intros ->. by rewrite String.eqb_refl in E.
Qed.

Lemma setIf_NoDup c k v (o : obj) :
  NoDup (o.*1) -> NoDup ((RunManager.setIf c k v o).*1).
Proof. destruct c; [apply setProp_NoDup | done]. Qed.

(** What the payload of the browser carries. *)
Lemma payload_props (task : obj) :
  let p := RunManager.buildPayload task in
  let optional (cond : jsval -> bool) (k : string) :=
    prop k p = if cond (prop k task) then prop k task else JUndef in
  NoDup (p.*1) /\
  prop "url" p = prop "url" task /\
  prop "standard" p = prop "standard" task /\
  optional truthy "timeout" /\ optional truthy "wait" /\
  optional nonEmptyArray "actions" /\
  optional truthy "username" /\ optional truthy "password" /\
  optional truthy "hideElements" /\ optional truthy "headers" /\
  optional nonEmptyArray "ignore".
Proof.
  intros p optional. split.
  - unfold p, RunManager.buildPayload. repeat apply setIf_NoDup.
    apply NoDup_cons_2; [|apply NoDup_singleton].
    intros H. apply list_elem_of_singleton in H. discriminate H.
  - unfold optional, p, RunManager.buildPayload, prop.
    rewrite !getProp_setIf. cbn [String.eqb Ascii.eqb Bool.eqb andb getProp].
    unfold RunManager.nonEmptyArray, nonEmptyArray.
    repeat split;
      repeat match goal with
             | |- context [if ?c then _ else _] => destruct c
             end; reflexivity.
Qed.

Lemma sent_setOpt k v (o : options) :
  sent (setOpt k v o) =
    setOpt k (match v with
              | Plain x => Plain (Json.clone x)
              | NumberOf x => NumberOf (Json.clone x)
              end) (sent o).
Proof.
  unfold sent. induction o as [|[k0 v0] o IH]; [done|]. cbn [setOpt map fst snd].
  destruct (String.eqb k k0); cbn [map fst snd]; [done|]. by rewrite IH.
Qed.

Lemma sent_setWhen c k v (o : options) :
  sent (setWhen c k v o) =
    setWhen c k (match v with
                 | Plain x => Plain (Json.clone x)
                 | NumberOf x => NumberOf (Json.clone x)
                 end) (sent o).
Proof. destruct c; [apply sent_setOpt | done]. Qed.

Lemma setWhen_congr c c' k v v' (o o' : options) :
  c = c' -> (c' = true -> v = v') -> o = o' ->
  setWhen c k v o = setWhen c' k v' o'.
Proof. intros -> Hv ->. destruct c'; [by rewrite Hv | done]. Qed.

Lemma sent_truthy x :
  truthy (Json.clone (if truthy x then x else JUndef)) = truthy x.
Proof. destruct (truthy x) eqn:E; [by rewrite clone_truthy | done]. Qed.

Lemma sent_array x :
  isArray (Json.clone (if nonEmptyArray x then x else JUndef)) = nonEmptyArray x /\
  truthy (Json.clone (if nonEmptyArray x then x else JUndef)) = nonEmptyArray x.
Proof.
  destruct (nonEmptyArray x) eqn:E; [|done].
  rewrite clone_isArray, clone_truthy.
  by rewrite nonEmptyArray_isArray, nonEmptyArray_truthy.
Qed.

Lemma optionsOf_payload (task : obj) :
  Api.optionsOf (Json.clone (JObj (RunManager.buildPayload task)))
    = sent (taskToPa11yOptions task).
Proof.
  destruct (payload_props task)
    as (Hnd & _ & Hs & Ht & Hw & Ha & Hu & Hp & Hh & Hhd & Hi).
  unfold Api.optionsOf, taskToPa11yOptions.
  rewrite !(member_clone _ _ Hnd), Hs, Ht, Hw, Ha, Hu, Hp, Hh, Hhd, Hi.
  rewrite !sent_setWhen.
  repeat (apply setWhen_congr;
          [first [apply sent_truthy | apply clone_truthy
                 | apply (proj1 (sent_array _)) | apply (proj2 (sent_array _))]
          | let H := fresh in intros H; by rewrite ?H
          | ]).
  reflexivity.
Qed.

End PayloadFacts.

(** X15. A run started in the browser reaches the engine with the
    options the in-memory webservice would build from the same task:
    the route [/api/run] builds, from the payload of the run manager
    sent as JSON, the options of [taskToPa11yOptions], and calls the
    engine with them and the url of the task; it answers with a
    status 400 and calls nothing exactly when the task has no url. *)
Theorem browser_run_uses_task_options
    (pa11y : jsval -> Options.options -> LocalWebservice.engine) (task : obj) :
  let body := Json.clone (JObj (RunManager.buildPayload task)) in
  Api.optionsOf body = Options.sent (Options.taskToPa11yOptions task) /\
  member "url" body = Json.clone (prop "url" task) /\
  Api.run pa11y body =
    (if truthy (prop "url" task) then
       match pa11y (Json.clone (prop "url" task))
                   (Options.sent (Options.taskToPa11yOptions task)) with
       | LocalWebservice.Report result => Api.JsonBody result
       | LocalWebservice.Failure err => Api.Next err
       end
     else Api.BadRequest "Missing url") /\
  ((forall k, Json.clone (prop k task) = prop k task) ->
   truthy (prop "url" task) = true ->
   Api.run pa11y body =
     match Options.engineCall pa11y task with
     | LocalWebservice.Report result => Api.JsonBody result
     | LocalWebservice.Failure err => Api.Next err
     end).
Proof.
  intros body.
  destruct (payload_props task) as (Hnd & Hurl & _).
  assert (member "url" body = Json.clone (prop "url" task)) as Hu
    by (unfold body; by rewrite (member_clone _ _ Hnd), Hurl).
  assert (Api.run pa11y body =
          (if truthy (prop "url" task) then
             match pa11y (Json.clone (prop "url" task))
                         (Options.sent (Options.taskToPa11yOptions task)) with
             | LocalWebservice.Report result => Api.JsonBody result
             | LocalWebservice.Failure err => Api.Next err
             end
           else Api.BadRequest "Missing url")) as Hrun.
  { unfold Api.run. change (js_or body (JObj [])) with body.
    rewrite Hu, clone_truthy. destruct (truthy (prop "url" task)); [|done].
    cbn [negb]. unfold body. by rewrite optionsOf_payload. }
  split; [apply optionsOf_payload|]. split; [exact Hu|]. split; [exact Hrun|].
  intros Hclean Htruthy. rewrite Hrun, Htruthy. unfold Options.engineCall.
  rewrite Hclean. f_equal. f_equal.
  unfold Options.taskToPa11yOptions. rewrite !sent_setWhen, !Hclean. done.
Qed.

Lemma browser_run_uses_task_options_witness :
  let task := [("id", JStr "T"); ("url", JStr "https://example.com");
               ("standard", JStr "WCAG2AA"); ("timeout", JStr "30000");
               ("ignore", JArr [JStr "rule-1"])] in
  let pa11y := fun (_ : jsval) (_ : Options.options) =>
                 LocalWebservice.Report (JObj [("issues", JArr [])]) in
  (forall k, Json.clone (prop k task) = prop k task) /\
  Api.run pa11y (Json.clone (JObj (RunManager.buildPayload task)))
    = Api.JsonBody (JObj [("issues", JArr [])]).
Proof.
  intros task pa11y.
  assert (forall k, Json.clone (prop k task) = prop k task) as Hclean.
  { intros k. unfold prop, task. cbn [getProp].
    repeat (destruct (String.eqb k _); [reflexivity|]). reflexivity. }
  split; [exact Hclean|].
  destruct (browser_run_uses_task_options pa11y task) as (_ & _ & _ & H).
  exact (H Hclean eq_refl).
Defined.

(** ** The page of a task over the in-memory webservice *)

Section ReachableFacts.
Import LocalWebservice.

(** The last result of a task is the last of its list of results. *)
Lemma last_result_run rid date outcome id s :
  store_wf s ->
  (forall k task list, tasks s !! k = Some task -> results s !! k = Some list ->
     getProp "last_result" task = JObj <$> last list) ->
  forall k task list,
    tasks (run rid date outcome id s).1 !! k = Some task ->
    results (run rid date outcome id s).1 !! k = Some list ->
    getProp "last_result" task = JObj <$> last list.
Proof.
  intros Hwf Hlast k task list. unfold run.
  destruct (tasks s !! id) as [t|] eqn:E; [|apply Hlast].
  destruct (Hwf id t E) as (Hid & _ & [l Hl]).
  unfold runTask. destruct outcome as [report|err]; [|apply Hlast].
  destruct (transformResult _ _ _ _ _) as [result|]; [|apply Hlast].
  rewrite Hid, Hl. cbn [fst tasks results]. rewrite !lookup_insert.
  case_decide as Hk; [|apply Hlast].
  intros [= <-] [= <-]. by rewrite getProp_setProp_eq, last_snoc.
Qed.

Lemma last_result_edit id body s :
  (forall k task list, tasks s !! k = Some task -> results s !! k = Some list ->
     getProp "last_result" task = JObj <$> last list) ->
  forall k task list,
    tasks (edit id body s).1 !! k = Some task ->
    results (edit id body s).1 !! k = Some list ->
    getProp "last_result" task = JObj <$> last list.
Proof.
  intros Hlast k task list. unfold edit.
  destruct (tasks s !! id) as [t|] eqn:E; [|apply Hlast].
  cbn [fst tasks results]. rewrite lookup_insert. case_decide as Hk; [|apply Hlast].
  subst k. intros Ht Hl. apply (inj Some) in Ht. rewrite <- Ht.
  rewrite (edit_fold_lookup body fields t "last_result" fields_NoDup).
  rewrite bool_decide_eq_false_2; [by apply (Hlast id)|].
  unfold fields. rewrite ?elem_of_cons, elem_of_nil. intros Hx.
  repeat (destruct Hx as [Hx|Hx]; [discriminate Hx|]). done.
Qed.

Lemma last_result_create id body s :
  (forall k task list, tasks s !! k = Some task -> results s !! k = Some list ->
     getProp "last_result" task = JObj <$> last list) ->
  forall k task list,
    tasks (create id body s).1 !! k = Some task ->
    results (create id body s).1 !! k = Some list ->
    getProp "last_result" task = JObj <$> last list.
Proof.
  intros Hlast k task list. unfold create.
  destruct (truthy body && truthy (member "url" body) && truthy (member "name" body));
    [|apply Hlast].
  cbn [fst tasks results]. rewrite !lookup_insert. case_decide as Hk; [|apply Hlast].
  by intros [= <-] [= <-].
Qed.

Lemma last_result_remove id s :
  (forall k task list, tasks s !! k = Some task -> results s !! k = Some list ->
     getProp "last_result" task = JObj <$> last list) ->
  forall k task list,
    tasks (remove id s).1 !! k = Some task ->
    results (remove id s).1 !! k = Some list ->
    getProp "last_result" task = JObj <$> last list.
Proof.
  intros Hlast k task list. unfold remove. cbn [fst tasks results].
  intros Ht Hl. apply lookup_delete_Some in Ht as [_ Ht].
  apply lookup_delete_Some in Hl as [_ Hl]. by apply (Hlast k).
Qed.

Lemma reachable_inv s :
  TaskRoutes.reachable s ->
  store_wf s /\
  forall k task list, tasks s !! k = Some task -> results s !! k = Some list ->
    getProp "last_result" task = JObj <$> last list.
Proof.
  induction 1 as [|id body s _ [Hwf Hl]|id body s _ [Hwf Hl]
                  |rid date outcome id s _ [Hwf Hl]|id s _ [Hwf Hl]].
  - split; [|intros k task list H; cbn in H; by rewrite lookup_empty in H].
    intros k task H. cbn in H. by rewrite lookup_empty in H.
  - split; [by apply create_wf | by apply last_result_create].
  - split; [by apply edit_wf | by apply last_result_edit].
  - split; [by apply run_wf | by apply last_result_run].
  - split; [by apply remove_wf | by apply last_result_remove].
Qed.

End ReachableFacts.

(** X16. Whatever operations the in-memory webservice has gone
    through, the page of a task never ends in an error: it is the
    placeholder page exactly when the webservice does not hold the
    task, and otherwise shows the stored task with its results,
    latest first, the first of which is the last result of the
    task. *)
Theorem task_page_never_fails (s : LocalWebservice.store) (id : string) :
  TaskRoutes.reachable s ->
  match TaskRoutes.index_get LocalWebservice.get LocalWebservice.resultsOf id s with
  | TaskRoutes.RenderPlaceholder i =>
      i = id /\ LocalWebservice.tasks s !! id = None
  | TaskRoutes.RenderTask task rs =>
      LocalWebservice.tasks s !! id = Some task /\
      (exists list, LocalWebservice.results s !! id = Some list /\ rs = reverse list) /\
      getProp "last_result" task = JObj <$> head rs
  | _ => False
  end.
Proof.
  intros Hr. destruct (reachable_inv s Hr) as [Hwf Hlast].
  unfold TaskRoutes.index_get, LocalWebservice.get, LocalWebservice.resultsOf.
  destruct (LocalWebservice.tasks s !! id) as [task|] eqn:E; [|done].
  destruct (Hwf id task E) as (_ & Hnd & [list Hl]). rewrite Hl.
  rewrite (assign_copy task Hnd). split; [done|]. split; [eauto|].
  rewrite head_reverse. by apply (Hlast id).
Qed.

Lemma task_page_never_fails_witness :
  let body := JObj [("name", JStr "Home"); ("url", JStr "https://example.com")] in
  let s := (LocalWebservice.create "T" body (LocalWebservice.Store ∅ ∅)).1 in
  TaskRoutes.reachable s /\
  forall e,
    TaskRoutes.index_get LocalWebservice.get LocalWebservice.resultsOf "T" s
      <> TaskRoutes.NextError e.
Proof.
  intros body s.
  assert (TaskRoutes.reachable s) as Hr
    by (apply TaskRoutes.reach_create, TaskRoutes.reach_start).
  split; [exact Hr|]. intros e He.
  pose proof (task_page_never_fails s "T" Hr) as H. rewrite He in H. exact H.
Defined.

(** ** The edit route over the in-memory webservice *)

Section EditRouteFacts.
Import TaskRoutes.

Ltac through_setProp :=
  unfold prop;
  repeat (rewrite getProp_setProp; case_decide; [try discriminate|]);
  try done.

(** Whether [request.body.actions] is a string or falsy. *)
Lemma normalise_None httpHeaders (body : obj) :
  match prop "actions" body with
  | JStr _ => False
  | v => truthy v = true
  end ->
  normalise httpHeaders body = None.
Proof.
  intros H. unfold normalise.
  assert (prop "actions"
            (setProp "wait" (js_or (prop "wait"
               (setProp "timeout" (js_or (prop "timeout"
                  (setProp "ignore" (js_or (prop "ignore" body) (JArr [])) body)) JUndef)
                  (setProp "ignore" (js_or (prop "ignore" body) (JArr [])) body))) JUndef)
               (setProp "timeout" (js_or (prop "timeout"
                  (setProp "ignore" (js_or (prop "ignore" body) (JArr [])) body)) JUndef)
                  (setProp "ignore" (js_or (prop "ignore" body) (JArr [])) body)))
          = prop "actions" body) as -> by through_setProp.
  destruct (prop "actions" body); try done; by rewrite H.
Qed.

Lemma normalise_Some httpHeaders (body : obj) :
  match prop "actions" body with
  | JStr _ => True
  | v => truthy v = false
  end ->
  exists body',
    normalise httpHeaders body = Some body' /\
    prop "actions" body' =
      match prop "actions" body with
      | JStr text => if nonEmpty text then actionLines text else JArr []
      | _ => JArr []
      end /\
    prop "ignore" body' = js_or (prop "ignore" body) (JArr []) /\
    prop "headers" body' = httpHeaders (js_or (prop "headers" body) (JStr "")) /\
    (forall f, f ∈ ["timeout"; "wait"; "username"; "password"; "hideElements"] ->
       prop f body' = js_or (prop f body) JUndef) /\
    (forall f, f ∈ ["name"; "url"; "standard"] -> prop f body' = prop f body).
Proof.
  intros H. unfold normalise.
  set (b1 := setProp "ignore" _ body).
  set (b2 := setProp "timeout" _ b1).
  set (b3 := setProp "wait" _ b2).
  assert (prop "actions" b3 = prop "actions" body) as Ha
    by (unfold b3, b2, b1; through_setProp).
  rewrite Ha.
  set (acts := match prop "actions" body with
               | JStr text => if nonEmpty text then actionLines text else JArr []
               | _ => JArr []
               end).
  assert ((if truthy (prop "actions" body)
           then match prop "actions" body with
                | JStr text => Some (setProp "actions" (actionLines text) b3)
                | _ => None
                end
           else Some (setProp "actions" (JArr []) b3))
          = Some (setProp "actions" acts b3)) as ->.
  { unfold acts. destruct (prop "actions" body) as [| | | |text| |];
      try (by rewrite H); try done.
    cbn [truthy]. unfold nonEmpty. by destruct (negb _). }
  set (b4 := setProp "actions" acts b3).
  set (b5 := setProp "username" _ b4).
  set (b6 := setProp "password" _ b5).
  set (b7 := setProp "hideElements" _ b6).
  eexists. split; [reflexivity|].
  assert (forall f, prop f b1 = if decide ("ignore" = f)
                               then js_or (prop "ignore" body) (JArr [])
                               else prop f body) as P1.
  { intros f. unfold b1, prop. rewrite getProp_setProp. by case_decide. }
  split; [|split; [|split; [|split]]].
  - unfold b7, b6, b5, b4. through_setProp.
  - unfold b7, b6, b5, b4, b3, b2. through_setProp. unfold b1.
    by rewrite getProp_setProp_eq.
  - unfold prop at 1. rewrite getProp_setProp_eq. cbn [default from_option id].
    f_equal. f_equal. unfold b7, b6, b5, b4, b3, b2, b1. through_setProp.
  - intros f Hf. rewrite !elem_of_cons, elem_of_nil in Hf.
    destruct Hf as [->|[->|[->|[->|[->|[]]]]]].
    + unfold b7, b6, b5, b4, b3. through_setProp. unfold b2.
      rewrite getProp_setProp_eq. cbn [default from_option id]. f_equal.
      unfold b1. through_setProp.
    + unfold b7, b6, b5, b4. through_setProp. unfold b3.
      rewrite getProp_setProp_eq. cbn [default from_option id]. f_equal.
      unfold b2, b1. through_setProp.
    + unfold b7, b6. through_setProp. unfold b5.
      rewrite getProp_setProp_eq. cbn [default from_option id]. f_equal.
      unfold b4, b3, b2, b1. through_setProp.
    + unfold b7. through_setProp. unfold b6.
      rewrite getProp_setProp_eq. cbn [default from_option id]. f_equal.
      unfold b5, b4, b3, b2, b1. through_setProp.
    + through_setProp. unfold b7.
      rewrite getProp_setProp_eq. cbn [default from_option id]. f_equal.
      unfold b6, b5, b4, b3, b2, b1. through_setProp.
  - intros f Hf. rewrite !elem_of_cons, elem_of_nil in Hf.
    destruct Hf as [->|[->|[->|[]]]];
      unfold b7, b6, b5, b4, b3, b2, b1; through_setProp.
Qed.

Lemma edit_sets (w : jsval) (a : option jsval) :
  w <> JUndef ->
  match w with
  | JUndef => a
  | JNull => Some JNull
  | JBool b => Some (JBool b)
  | JNum n => Some (JNum n)
  | JStr x => Some (JStr x)
  | JArr l => Some (JArr l)
  | JObj o => Some (JObj o)
  end = Some w.
Proof. by destruct w. Qed.

Lemma truthy_defined v : truthy v = true -> v <> JUndef.
Proof. by destruct v. Qed.

End EditRouteFacts.

(** X17. [POST /:id/edit] over the in-memory webservice never shows
    the error form: it throws when the task is known and the posted
    actions are neither a string nor blank, and redirects to the edit
    page otherwise.  The edited task then holds the actions as the
    browser stores them for the same text, the posted ignore list,
    every posted optional field that is not blank, and keeps the
    optional fields posted blank and the fields the route does not
    edit. *)
Theorem edit_route_redirects
    (httpHeaders : jsval -> jsval) (id : string) (body : obj)
    (s : LocalWebservice.store) :
  let r := TaskRoutes.edit_post httpHeaders LocalWebservice.get LocalWebservice.edit
             id body s in
  let posted := match prop "actions" body with
                | JStr _ => true
                | v => negb (truthy v)
                end in
  (r.2 = TaskRoutes.Threw <-> is_Some (LocalWebservice.tasks s !! id) /\ posted = false) /\
  (r.2 <> TaskRoutes.Threw -> r.2 = TaskRoutes.Redirect ("/" +:+ id +:+ "/edit?edited")) /\
  (LocalWebservice.tasks s !! id = None \/ posted = false -> r.1 = s) /\
  (forall task,
     LocalWebservice.tasks s !! id = Some task -> posted = true ->
     exists task',
       LocalWebservice.tasks r.1 !! id = Some task' /\
       (forall f t0,
          prop "actions" body = JStr (EditManager.getVal "#new-task-actions" f) ->
          prop "actions" task' = prop "actions" (EditManager.editedTask f t0)) /\
       prop "ignore" task' = js_or (prop "ignore" body) (JArr []) /\
       (forall f, f ∈ ["timeout"; "wait"; "username"; "password"; "hideElements"] ->
          getProp f task' = if truthy (prop f body) then Some (prop f body)
                            else getProp f task) /\
       (forall f, f ∉ LocalWebservice.fields -> getProp f task' = getProp f task) /\
       LocalWebservice.results r.1 = LocalWebservice.results s /\
       (forall k, k <> id ->
          LocalWebservice.tasks r.1 !! k = LocalWebservice.tasks s !! k)).
Proof.
  intros r posted. unfold r, TaskRoutes.edit_post, LocalWebservice.get.
  destruct (LocalWebservice.tasks s !! id) as [task|] eqn:E.
  2:{ cbn [fst snd]. split; [split; [done | by intros [[? ?] _]]|].
      split; [done|]. split; [done|]. done. }
  destruct posted eqn:Hp.
  - destruct (normalise_Some httpHeaders body)
      as (body' & -> & Hacts & Hign & _ & Hopt & _).
    { unfold posted in Hp. destruct (prop "actions" body); try done;
        by apply negb_true_iff in Hp. }
    unfold LocalWebservice.edit. rewrite E. cbn [fst snd].
    split; [split; [done | by intros [_ ?]]|]. split; [done|].
    split; [by intros [?|?]|]. intros task0 [= <-] _.
    pose proof (edit_fold_lookup body' LocalWebservice.fields task) as Hlook.
    eexists. split; [cbn [LocalWebservice.tasks]; apply lookup_insert_eq|].
    assert (forall f, f ∈ LocalWebservice.fields -> bool_decide (f ∈ LocalWebservice.fields) = true)
      as Hin by (intros f Hf; by apply bool_decide_eq_true_2).
    split; [|split; [|split; [|split; [|split]]]].
    + intros f t0 Htext. unfold prop at 1. rewrite (Hlook _ fields_NoDup).
      rewrite Hin by (unfold LocalWebservice.fields; rewrite !elem_of_cons; tauto).
      rewrite Hacts, Htext, editedTask_actions. unfold TaskRoutes.actionLines.
      by destruct (nonEmpty _).
    + unfold prop at 1. rewrite (Hlook _ fields_NoDup).
      rewrite Hin by (unfold LocalWebservice.fields; rewrite !elem_of_cons; tauto).
      rewrite Hign, edit_sets; [done|]. unfold js_or.
      destruct (truthy (prop "ignore" body)) eqn:Et; [by apply truthy_defined | done].
    + intros f Hf. rewrite (Hlook _ fields_NoDup), (Hopt f Hf).
      rewrite Hin.
      * unfold js_or. destruct (truthy (prop f body)) eqn:Et; [|done].
        apply edit_sets. by apply truthy_defined.
      * unfold LocalWebservice.fields. rewrite !elem_of_cons, elem_of_nil in Hf.
        rewrite !elem_of_cons. tauto.
    + intros f Hf. rewrite (Hlook _ fields_NoDup).
      by rewrite bool_decide_eq_false_2.
    + done.
    + intros k Hk. cbn [LocalWebservice.tasks]. by apply lookup_insert_ne.
  - rewrite (normalise_None httpHeaders body).
    2:{ unfold posted in Hp. destruct (prop "actions" body); try done;
          by apply negb_false_iff in Hp. }
    cbn [fst snd]. split; [split; [eauto | done]|]. split; [done|].
    split; [done|]. done.
Qed.

Lemma edit_route_redirects_witness :
  let task := [("id", JStr "T"); ("name", JStr "Home"); ("timeout", JStr "500")] in
  let s := LocalWebservice.Store {["T" := task]} {["T" := []]} in
  let body := [("name", JStr "Home"); ("timeout", JStr "");
               ("actions", JStr "wait for url to be /")] in
  let r := TaskRoutes.edit_post (fun v => v) LocalWebservice.get LocalWebservice.edit
             "T" body s in
  r.2 = TaskRoutes.Redirect "/T/edit?edited" /\
  exists task', LocalWebservice.tasks r.1 !! "T" = Some task' /\
                getProp "timeout" task' = Some (JStr "500").
Proof.
  intros task s body r.
  destruct (edit_route_redirects (fun v => v) "T" body s) as (H1 & H2 & _ & H4).
  split.
  - apply H2. intros Ht. apply H1 in Ht as [_ Ht]. discriminate Ht.
  - destruct (H4 task (lookup_singleton_eq _ _) eq_refl)
      as (task' & Ht & _ & _ & Hopt & _).
    exists task'. split; [exact Ht|]. rewrite (Hopt "timeout"); [reflexivity|].
    by left.
Defined.

(** ** A task page keeps its task in the store *)

Section HistoryFacts.

Lemma no_task_alert_storeRun taskId resultId now task report d :
  RunManager.AlertText "Task not found in local storage"
    ∉ (RunManager.storeRun taskId resultId now task report d).2.
Proof.
  unfold RunManager.storeRun.
  destruct (RunManager.countIssues report) as [c|].
  2:{ cbn. rewrite !elem_of_cons, elem_of_nil. by intros [?|[?|?]]. }
  destruct report.
  1,2: cbn; rewrite !elem_of_cons, elem_of_nil; by intros [?|[?|?]].
  all: destruct (saveResult _ d) as [d1 [|]];
    [destruct (saveTask _ d1) as [d2 [|]]|];
    cbn; rewrite !elem_of_cons, elem_of_nil; intuition discriminate.
Qed.

Lemma no_task_alert fetch header resultId now taskId d :
  is_Some (tasks d !! taskId) ->
  RunManager.AlertText "Task not found in local storage"
    ∉ (RunManager.runTask fetch header resultId now taskId d).2.
Proof.
  intros [t Ht]. unfold RunManager.runTask, getTask. rewrite Ht.
  destruct (fetch _) as [m|[|] st [js|]];
    try (cbn; rewrite !elem_of_cons, elem_of_nil; intuition discriminate).
  apply no_task_alert_storeRun.
Qed.

End HistoryFacts.

(** X18. The history script of a task page leaves a record of the
    task in the store: it never touches a record that is there; when
    there is none it saves the id with the name, the link and the
    standard read from the header, blank or not, and changes nothing
    else; running it again changes nothing; and a run started after
    it never ends in the alert that the task is not in the local
    storage. *)
Theorem task_page_persists_task
    (pathname taskId : string) (h : RunManager.taskHeader) (d : db) :
  db_wf d ->
  EditManager.pathId pathname = Some taskId ->
  let d' := TaskHistory.ready pathname (Some h) d in
  (forall t, tasks d !! taskId = Some t -> d' = d) /\
  (tasks d !! taskId = None ->
   tasks d' !! taskId = Some (TaskHistory.taskOfHeader taskId h) /\
   prop "name" (TaskHistory.taskOfHeader taskId h)
     = JStr (trim (TaskList.text (RunManager.h1 h))) /\
   (RunManager.link_href h = None ->
    prop "url" (TaskHistory.taskOfHeader taskId h) = JUndef)) /\
  (forall k, k <> taskId -> tasks d' !! k = tasks d !! k) /\
  results d' = results d /\
  db_wf d' /\
  TaskHistory.ready pathname (Some h) d' = d' /\
  (forall fetch header resultId now,
     RunManager.AlertText "Task not found in local storage"
       ∉ (RunManager.runTask fetch header resultId now taskId d').2).
Proof.
  intros Hwf Hpath d'.
  assert (d' = match tasks d !! taskId with
               | Some _ => d
               | None => Db (<[taskId := TaskHistory.taskOfHeader taskId h]> (tasks d))
                            (results d)
               end) as Hd'.
  { unfold d', TaskHistory.ready, getTask. rewrite Hpath.
    destruct (tasks d !! taskId); [done|].
    by rewrite (saveTask_fulfilled (TaskHistory.taskOfHeader taskId h) taskId d eq_refl). }
  assert (is_Some (tasks d' !! taskId)) as Hsome.
  { rewrite Hd'. destruct (tasks d !! taskId) as [t|] eqn:E; [by rewrite E|].
    cbn [tasks]. rewrite lookup_insert_eq. eauto. }
  split; [intros t Ht; by rewrite Hd', Ht|].
  split.
  { intros Hnone. rewrite Hd', Hnone. cbn [tasks]. rewrite lookup_insert_eq.
    split; [done|]. split; [done|]. intros Hl. unfold TaskHistory.taskOfHeader.
    by rewrite Hl. }
  split.
  { intros k Hk. rewrite Hd'. destruct (tasks d !! taskId); [done|].
    cbn [tasks]. by apply lookup_insert_ne. }
  split; [rewrite Hd'; by destruct (tasks d !! taskId)|].
  split.
  { rewrite Hd'. destruct (tasks d !! taskId) eqn:E; [done|].
    pose proof (saveTask_wf (TaskHistory.taskOfHeader taskId h) d Hwf) as H.
    by rewrite (saveTask_fulfilled (TaskHistory.taskOfHeader taskId h) taskId d eq_refl) in H. }
  split.
  { unfold TaskHistory.ready at 1. rewrite Hpath. unfold getTask.
    by destruct Hsome as [t ->]. }
  intros fetch header resultId now. by apply no_task_alert.
Qed.

Lemma task_page_persists_task_witness :
  let h := RunManager.TaskHeader (Some "") None (Some "") in
  let d := Db ∅ ∅ in
  db_wf d /\ EditManager.pathId "/T" = Some "T" /\
  is_Some (tasks (TaskHistory.ready "/T" (Some h) d) !! "T") /\
  RunManager.taskFromHeader "T" (Some h) = None.
Proof.
  intros h d.
  assert (db_wf d) as Hwf.
  { split; intros k o H; simpl in H; by rewrite lookup_empty in H. }
  assert (EditManager.pathId "/T" = Some "T") as Hp by reflexivity.
  split; [exact Hwf|]. split; [exact Hp|]. split; [|reflexivity].
  destruct (task_page_persists_task "/T" "T" h d Hwf Hp) as (_ & H & _).
  destruct (H (lookup_empty _)) as [-> _]. eauto.
Defined.

(** ** Filtering the task list *)

Section FilterFacts.
Import TaskFilter.

Lemma occursCI_empty text : occursCI "" text = true.
Proof. by destruct text. Qed.

Lemma alternatives_from_last skip s ch :
  lastChar s = Some ch -> isWs ch = true ->
  exists l, alternatives_from skip s = (l ++ [""])%list /\ (skip = false -> l <> []).
Proof.
  revert skip. induction s as [|c s IH]; intros skip; [done|].
  cbn [lastChar alternatives_from]. destruct s as [|c' s'].
  - intros [= ->] ->. destruct skip.
    + by exists [].
    + by exists [""].
  - intros Hl Hw. destruct (isWs c).
    + destruct (IH true Hl Hw) as (l & -> & _). destruct skip.
      * by exists l.
      * by exists ("" :: l).
    + destruct (IH false Hl Hw) as (l & -> & Hne).
      destruct l as [|seg rest]; [by destruct Hne|].
      by exists (String c seg :: rest).
Qed.

Lemma test_blank_word query keywords :
  "" ∈ alternatives query -> test query keywords = true.
Proof.
  intros Hin. unfold test. apply existsb_exists. exists "".
  split; [by apply list_elem_of_In | apply occursCI_empty].
Qed.

Lemma blank_word query ch :
  isWs ch = true ->
  firstChar query = Some ch \/ lastChar query = Some ch ->
  "" ∈ alternatives query.
Proof.
  intros Hw [Hf|Hl]; unfold alternatives.
  - destruct query as [|c s]; [done|]. injection Hf as ->.
    cbn [alternatives_from]. rewrite Hw. by left.
  - destruct (alternatives_from_last false query ch Hl Hw) as (l & -> & _).
    apply elem_of_app. right. by left.
Qed.

End FilterFacts.

(** X19. The filter of the task list hides no task when the cleaned
    query is empty, as for a query of blanks or punctuation only, and
    none either when the cleaned query begins or ends with white
    space, as it does when a removed character stood at the end
    behind a space: the expression then has an empty alternative,
    which every card matches. *)
Theorem filter_shows_every_task (rawQuery : string) (c : TaskList.card) :
  let query := TaskFilter.normalise rawQuery in
  query = "" \/
    (exists ch, isWs ch = true /\
                (firstChar query = Some ch \/ lastChar query = Some ch)) ->
  TaskFilter.hides rawQuery c = false.
Proof.
  intros query H. unfold TaskFilter.hides. fold query.
  destruct H as [->|(ch & Hw & H)]; [done|].
  destruct (nonEmpty query); [|done].
  by rewrite (test_blank_word _ _ (blank_word query ch Hw H)).
Qed.

Lemma filter_shows_every_task_witness :
  let c := TaskList.Card (Some "task") (Some "T") (Some "home wcag2aa example.com")
             None None None None None None None None None true in
  TaskFilter.normalise "zzz !" = "zzz " /\
  TaskFilter.hides "zzz !" c = false /\
  TaskFilter.hides "zzz" c = true.
Proof.
  intros c. split; [reflexivity|]. split; [|reflexivity].
  apply filter_shows_every_task. right. exists " "%char.
  split; [reflexivity|]. right. reflexivity.
Defined.

Section FindFacts.
Import TaskFilter.

Lemma alnum_no_ws c : isAlnum c = true -> isWs c = false.
Proof. destruct c as [[] [] [] [] [] [] [] []]; by vm_compute. Qed.

Lemma lower_alnum c : isAlnum c = true -> isAlnum (lowerChar c) = true.
Proof. destruct c as [[] [] [] [] [] [] [] []]; by vm_compute. Qed.

Lemma lower_idem c : lowerChar (lowerChar c) = lowerChar c.
Proof. destruct c as [[] [] [] [] [] [] [] []]; by vm_compute. Qed.

Lemma toLowerCase_alnum s :
  allChars isAlnum s = true -> allChars isAlnum (toLowerCase s) = true.
Proof.
  induction s as [|c s IH]; cbn [allChars toLowerCase]; [done|].
  intros H. apply andb_true_iff in H as [Hc Hs]. by rewrite lower_alnum, IH.
Qed.

Lemma keep_all p s : allChars p s = true -> keep p s = s.
Proof.
  induction s as [|c s IH]; cbn [allChars keep]; [done|].
  intros H. apply andb_true_iff in H as [-> Hs]. by rewrite IH.
Qed.

Lemma trimEnd_prefix a b :
  allChars isAlnum a = true -> exists r, trimEnd (a +:+ b) = a +:+ r.
Proof.
  induction a as [|c a IH]; intros H.
  - exists (trimEnd b). by rewrite !append_nil_l.
  - cbn [allChars] in H. apply andb_true_iff in H as [Hc Ha].
    destruct (IH Ha) as [r Hr]. rewrite append_cons. cbn [trimEnd]. rewrite Hr.
    destruct (a +:+ r) as [|x y] eqn:E.
    + rewrite (alnum_no_ws c Hc). exists "". rewrite append_cons.
      destruct a; [by rewrite append_nil_l | by rewrite append_cons in E].
    + exists r. by rewrite append_cons, E.
Qed.

Lemma trim_word a b :
  a <> "" -> allChars isAlnum a = true -> exists r, trim (a +:+ b) = a +:+ r.
Proof.
  intros Hne Ha. unfold trim. destruct a as [|c a]; [done|].
  cbn [allChars] in Ha. pose proof Ha as Ha'. apply andb_true_iff in Ha' as [Hc _].
  rewrite append_cons. cbn [trimStart]. rewrite (alnum_no_ws c Hc).
  rewrite <- append_cons. by apply trimEnd_prefix.
Qed.

Lemma trim_alnum s : allChars isAlnum s = true -> trim s = s.
Proof.
  intros H. destruct s as [|c s]; [done|].
  destruct (trim_word (String c s) "" ltac:(done) H) as [r Hr].
  rewrite append_nil_r in Hr.
  assert (trimEnd (String c s) = String c s) as Hend.
  { clear Hr. revert H. generalize (String c s). intros x.
    induction x as [|y x IH]; [done|]. cbn [allChars trimEnd]. intros H.
    apply andb_true_iff in H as [Hy Hx]. rewrite (IH Hx).
    destruct x; [by rewrite (alnum_no_ws y Hy) | done]. }
  unfold trim. cbn [trimStart allChars] in *.
  apply andb_true_iff in H as [Hc _]. by rewrite (alnum_no_ws c Hc).
Qed.

Lemma normalise_word s : allChars isAlnum s = true -> normalise s = s.
Proof.
  intros H. unfold normalise. rewrite (trim_alnum s H). apply keep_all.
  eapply allChars_weaken; [|exact H]. intros c Hc. cbn. by rewrite Hc.
Qed.

Lemma alternatives_word s :
  allChars isAlnum s = true -> alternatives_from false s = [s].
Proof.
  induction s as [|c s IH]; cbn [allChars alternatives_from]; [done|].
  intros H. apply andb_true_iff in H as [Hc Hs].
  by rewrite (alnum_no_ws c Hc), (IH Hs).
Qed.

Lemma stripPrefixCI_lower s r : stripPrefixCI s (toLowerCase s +:+ r) = Some r.
Proof.
  induction s as [|c s IH]; [by destruct r|].
  cbn [toLowerCase]. rewrite append_cons. cbn [stripPrefixCI].
  rewrite lower_idem, Ascii.eqb_refl. exact IH.
Qed.

Lemma keywords_of_card formatDate runs task c name :
  TaskList.syntheticCard formatDate runs task = Some c ->
  prop "name" task = JStr name ->
  exists rest,
    TaskList.data_keywords c = Some (trim (toLowerCase name +:+ rest)).
Proof.
  unfold TaskList.syntheticCard. intros H Hn. rewrite Hn in H.
  destruct (prop "standard" task) as [| | | |standard| |]; try done.
  destruct (prop "url" task) as [| | | |url| |]; try done.
  destruct (truthy _ && truthy _); injection H as <-; eexists; reflexivity.
Qed.

End FindFacts.

(** X20. A card that the task list page builds for a stored task
    can be found by the name of the task: when the name is a word of
    letters and digits, typing it into the filter, in whatever case
    it was stored, leaves the card visible. *)
Theorem stored_task_found_by_name
    (formatDate : jsval -> string) (runs : list obj) (task : obj)
    (c : TaskList.card) (name : string) :
  TaskList.syntheticCard formatDate runs task = Some c ->
  prop "name" task = JStr name ->
  name <> "" ->
  allChars TaskFilter.isAlnum name = true ->
  TaskFilter.normalise name = name /\
  TaskFilter.hides name c = false.
Proof.
  intros Hc Hn Hne Ha. split; [by apply normalise_word|].
  unfold TaskFilter.hides. rewrite (normalise_word name Ha).
  destruct (nonEmpty name); [|done].
  destruct (keywords_of_card _ _ _ _ _ Hc Hn) as [rest ->]. cbn [default from_option id].
  destruct (trim_word (toLowerCase name) rest) as [r ->].
  { by destruct name. }
  { by apply toLowerCase_alnum. }
  unfold TaskFilter.test, TaskFilter.alternatives.
  rewrite (alternatives_word name Ha). cbn [existsb].
  destruct (toLowerCase name +:+ r) eqn:E; cbn [TaskFilter.occursCI];
    rewrite <- E, stripPrefixCI_lower; done.
Qed.

Lemma stored_task_found_by_name_witness :
  let task := [("id", JStr "T"); ("name", JStr "Home"); ("standard", JStr "WCAG2AA");
               ("url", JStr "https://example.com/")] in
  exists c,
    TaskList.syntheticCard (fun _ => "01 Jan 2024") [] task = Some c /\
    TaskFilter.hides "Home" c = false.
Proof.
  intros task. eexists. split; [reflexivity|].
  refine (proj2 (stored_task_found_by_name (fun _ => "01 Jan 2024") [] task _ "Home"
                   eq_refl eq_refl _ eq_refl)).
  discriminate.
Defined.

(** ** Blanking a field of the edit form *)

Section BlankFacts.
Import EditManager.

Lemma controls_setVal sel v f sel' :
  controls (setVal sel v f) !! sel' =
    if decide (sel = sel')
    then (fun _ => Input (toStr v) (Some (toStr v))) <$> controls f !! sel'
    else controls f !! sel'.
Proof.
  unfold setVal. destruct (controls f !! sel) as [el|] eqn:E; cbn [controls].
  - rewrite lookup_insert. case_decide; [|done]. subst. by rewrite E.
  - case_decide; [|done]. subst. by rewrite E.
Qed.

Lemma controls_setText sel t f sel' :
  controls (setText sel t f) !! sel' =
    if decide (sel = sel')
    then (fun el => Input t (attr_value el)) <$> controls f !! sel'
    else controls f !! sel'.
Proof.
  unfold setText. destruct (controls f !! sel) as [el|] eqn:E; cbn [controls].
  - rewrite lookup_insert. case_decide; [|done]. subst. by rewrite E.
  - case_decide; [|done]. subst. by rewrite E.
Qed.

Ltac read_controls Hc :=
  repeat (first [rewrite controls_setVal | rewrite controls_setText];
          let Hd := fresh "Hd" in
          case_decide as Hd;
          [first [discriminate Hd | idtac]
          |first [exfalso; apply Hd; reflexivity | idtac]]);
  try match goal with
  | |- _ <$> controls ?f !! ?sel = _ =>
      let w := fresh "w" in let Hw := fresh "Hw" in
      destruct (Hc sel) as [w Hw];
      [apply (bool_decide_unpack _); vm_compute; exact I | rewrite Hw; reflexivity]
  end.

(** The one-line fields [prepopulate] fills with [setVal], by
    selector. *)
Lemma prepopulate_controls pathname id f d task sel field :
  pathId pathname = Some id ->
  tasks d !! id = Some task ->
  complete f ->
  (sel, field) ∈ [("#new-task-name", "name"); ("#new-task-url", "url");
                  ("#new-task-standard", "standard"); ("#new-task-timeout", "timeout");
                  ("#new-task-wait", "wait"); ("#new-task-username", "username");
                  ("#new-task-password", "password");
                  ("#new-task-hide-elements", "hideElements")] ->
  controls (prepopulate pathname f d) !! sel =
    Some (Input (toStr (js_or (prop field task) (JStr "")))
                (Some (toStr (js_or (prop field task) (JStr ""))))).
Proof.
  intros Hpath Htask Hc Hin. unfold prepopulate, getTask.
  rewrite Hpath, Htask. cbv zeta.
  assert (forall (f' : editForm),
            controls (match prop "ignore" task with
                      | JArr ignore =>
                          EditForm (controls f')
                            (map (fun b => Checkbox (cb_value b)
                                             (includesStr ignore (cb_value b)))
                                 (ignoreBoxes f'))
                      | _ => f'
                      end) = controls f') as Hsame.
  { intros f'. by destruct (prop "ignore" task). }
  rewrite Hsame. clear Hsame.
  rewrite !elem_of_cons, elem_of_nil in Hin.
  destruct Hin as [[= -> ->]|[[= -> ->]|[[= -> ->]|[[= -> ->]|[[= -> ->]|[[= -> ->]
                  |[[= -> ->]|[[= -> ->]|[]]]]]]]]]; read_controls Hc.
Qed.

Lemma getVal_blanked sel f x :
  controls f !! sel = Some (Input x (Some x)) ->
  getVal sel (setText sel "" f) = x.
Proof.
  intros H. unfold getVal. rewrite controls_setText, decide_True by done.
  rewrite H. done.
Qed.

Lemma getVal_setText_ne sel sel' t f :
  sel <> sel' -> getVal sel' (setText sel t f) = getVal sel' f.
Proof.
  intros Hne. unfold getVal. by rewrite controls_setText, decide_False.
Qed.

End BlankFacts.

(** X21. A one-line field that the edit page filled from the store
    cannot be cleared: [setVal] also writes the [value] attribute,
    which [getVal] falls back to, so that when the user empties the
    input and submits, the browser stores the former value again. *)
Theorem blanked_field_is_stored_again
    (pathname id : string) (page : EditManager.editForm) (d : db) (task : obj)
    (sel field v : string) :
  db_wf d ->
  EditManager.pathId pathname = Some id ->
  tasks d !! id = Some task ->
  EditManager.complete page ->
  (sel, field) ∈ [("#new-task-name", "name"); ("#new-task-url", "url");
                  ("#new-task-standard", "standard"); ("#new-task-timeout", "timeout");
                  ("#new-task-wait", "wait"); ("#new-task-username", "username");
                  ("#new-task-password", "password");
                  ("#new-task-hide-elements", "hideElements")] ->
  prop field task = JStr v ->
  v <> "" ->
  (field ∈ ["name"; "url"; "standard"; "timeout"; "wait"] -> trim v = v) ->
  let f := EditManager.setText sel "" (EditManager.prepopulate pathname page d) in
  EditManager.vals f sel = Some "" /\
  EditManager.getVal sel f = v /\
  exists task',
    tasks (EditManager.submit pathname f d) !! id = Some task' /\
    prop field task' = JStr v.
Proof.
  intros Hwf Hpath Htask Hpage Hin Hv Hne Htrim f.
  pose proof (prepopulate_controls pathname id page d task sel field
                Hpath Htask Hpage Hin) as Hctl.
  rewrite Hv, toStr_or_str in Hctl.
  assert (EditManager.getVal sel f = v) as Hget by (by apply getVal_blanked).
  split.
  { unfold f, EditManager.vals. rewrite controls_setText, decide_True by done.
    by rewrite Hctl. }
  split; [exact Hget|].
  rewrite (submit_spec _ _ _ _ Hwf Hpath), Htask. cbn [default from_option Datatypes.id].
  eexists. split; [apply lookup_insert_eq|].
  assert (EditManager.orUndefined v = JStr v) as Hor.
  { unfold EditManager.orUndefined.
     by rewrite (proj2 (nonEmpty_true v) Hne). }
  rewrite !elem_of_cons, elem_of_nil in Hin.
  destruct Hin as [[= -> ->]|[[= -> ->]|[[= -> ->]|[[= -> ->]|[[= -> ->]|[[= -> ->]
                  |[[= -> ->]|[[= -> ->]|[]]]]]]]]].
  - rewrite editedTask_name, Hget, Htrim; [done|]. rewrite !elem_of_cons. tauto.
  - rewrite editedTask_url, Hget, Htrim; [done|]. rewrite !elem_of_cons. tauto.
  - rewrite editedTask_standard, Hget, Htrim; [done|]. rewrite !elem_of_cons. tauto.
  - rewrite editedTask_timeout, Hget, Htrim; [done|]. rewrite !elem_of_cons. tauto.
  - rewrite editedTask_wait, Hget, Htrim; [done|]. rewrite !elem_of_cons. tauto.
  - by rewrite editedTask_username, Hget.
  - by rewrite editedTask_password, Hget.
  - by rewrite editedTask_hideElements, Hget.
Qed.

Lemma blanked_field_is_stored_again_witness :
  let task := [("id", JStr "T"); ("name", JStr "Home"); ("timeout", JStr "500")] in
  let d := Db {["T" := task]} ∅ in
  let blank := EditManager.Input "" None in
  let page := EditManager.EditForm
    (list_to_map [("#new-task-name", blank); ("#new-task-url", blank);
                  ("#new-task-standard", blank); ("#new-task-timeout", blank);
                  ("#new-task-wait", blank); ("#new-task-actions", blank);
                  ("#new-task-username", blank); ("#new-task-password", blank);
                  ("#new-task-headers", blank); ("#new-task-hide-elements", blank)]) [] in
  let f := EditManager.setText "#new-task-timeout" ""
             (EditManager.prepopulate "/T/edit" page d) in
  EditManager.vals f "#new-task-timeout" = Some "" /\
  exists task', tasks (EditManager.submit "/T/edit" f d) !! "T" = Some task' /\
                prop "timeout" task' = JStr "500".
Proof.
  intros task d blank page f.
  assert (db_wf d) as Hwf.
  { split; intros k o H; simpl in H.
    - apply lookup_singleton_Some in H as [<- <-]. reflexivity.
    - by rewrite lookup_empty in H. }
  assert (EditManager.complete page) as Hpage.
  { intros sel Hsel. cbn in Hsel. rewrite !elem_of_cons, elem_of_nil in Hsel.
    unfold page. cbn [EditManager.controls].
    destruct Hsel as [->|[->|[->|[->|[->|[->|[->|[->|[->|[->|[]]]]]]]]]]];
      apply (bool_decide_unpack _); vm_compute; exact I. }
  destruct (blanked_field_is_stored_again "/T/edit" "T" page d task
              "#new-task-timeout" "timeout" "500" Hwf eq_refl
              (lookup_singleton_eq _ _) Hpage) as (H1 & _ & H3).
  - rewrite !elem_of_cons. tauto.
  - reflexivity.
  - discriminate.
  - intros _. reflexivity.
  - split; [exact H1 | exact H3].
Defined.

(** ** Clicking a run link *)

Section RunLinkFacts.
Import RunLink.

Lemma skipSegment_segment seen (seg rest : string) :
  allChars (fun c => negb (Ascii.eqb c "/")) seg = true ->
  seen = true \/ seg <> "" ->
  skipSegment seen (seg +:+ String "/" rest) = Some rest.
Proof.
  revert seen. induction seg as [|c seg IH]; intros seen Hs Hne.
  - rewrite append_nil_l. cbn. by destruct Hne as [->|?].
  - cbn [allChars] in Hs. apply andb_true_iff in Hs as [Hc Hs].
    rewrite append_cons. cbn [skipSegment].
    apply negb_true_iff in Hc. rewrite Hc. apply IH; [done | by left].
Qed.

Lemma splitChar_segment (seg rest : string) :
  allChars (fun c => negb (Ascii.eqb c "/")) seg = true ->
  splitChar "/" (seg +:+ String "/" rest) = seg :: splitChar "/" rest.
Proof.
  induction seg as [|c seg IH]; intros Hs.
  - rewrite append_nil_l. cbn [splitChar]. by rewrite Ascii.eqb_refl.
  - cbn [allChars] in Hs. apply andb_true_iff in Hs as [Hc Hs].
    rewrite append_cons. cbn [splitChar]. apply negb_true_iff in Hc.
    by rewrite Hc, (IH Hs).
Qed.

Lemma test_suffix (x s : string) : test s = true -> test (x +:+ s) = true.
Proof.
  intros H. induction x as [|c x IH]; [by rewrite append_nil_l|].
  rewrite append_cons.
  change (test (String c (x +:+ s)))
    with ((Ascii.eqb c "/" && matchHere (x +:+ s)) || test (x +:+ s)).
  rewrite IH. apply orb_true_r.
Qed.

End RunLinkFacts.

(** X22. A click on a run link whose address is [/id/run], with
    or without a query or a fragment on one line, never follows the
    link and starts the run of the task [id]; an address of the same
    shape behind a scheme and a host is intercepted too, but starts no
    run, because its second segment is empty. *)
Theorem run_link_runs_its_task (id tail : string) :
  id <> "" ->
  allChars (fun c => negb (Ascii.eqb c "/")) id = true ->
  RunLink.tailOk tail = true ->
  RunLink.onClick (Some ("/" +:+ id +:+ "/run" +:+ tail))
    = RunLink.Prevented (Some id) /\
  forall scheme host,
    allChars (fun c => negb (Ascii.eqb c "/")) scheme = true ->
    RunLink.onClick (Some (scheme +:+ "//" +:+ host +:+ "/" +:+ id +:+ "/run" +:+ tail))
      = RunLink.Prevented None.
Proof.
  intros Hne Hid Htail.
  assert (RunLink.matchHere (id +:+ "/run" +:+ tail) = true) as Hm.
  { unfold RunLink.matchHere.
    change (id +:+ "/run" +:+ tail) with (id +:+ String "/" ("run" +:+ tail)).
    rewrite skipSegment_segment by (done || by right). exact Htail. }
  assert (RunLink.test ("/" +:+ id +:+ "/run" +:+ tail) = true) as Ht.
  { change ("/" +:+ id +:+ "/run" +:+ tail) with (String "/" (id +:+ "/run" +:+ tail)).
    change (RunLink.test (String "/" (id +:+ "/run" +:+ tail)))
      with ((Ascii.eqb "/" "/" && RunLink.matchHere (id +:+ "/run" +:+ tail))
            || RunLink.test (id +:+ "/run" +:+ tail)).
    by rewrite Hm. }
  split.
  - unfold RunLink.onClick. rewrite Ht.
    change ("/" +:+ id +:+ "/run" +:+ tail)
      with (String "/" (id +:+ String "/" ("run" +:+ tail))).
    cbn [nonEmpty String.eqb negb andb splitChar Ascii.eqb Bool.eqb].
    rewrite splitChar_segment by done.
    by rewrite (proj2 (nonEmpty_true id) Hne).
  - intros scheme host Hscheme. unfold RunLink.onClick.
    assert (RunLink.test (scheme +:+ "//" +:+ host +:+ "/" +:+ id +:+ "/run" +:+ tail)
            = true) as ->.
    { apply test_suffix. change ("//" +:+ host +:+ "/" +:+ id +:+ "/run" +:+ tail)
        with ("/" +:+ "/" +:+ host +:+ "/" +:+ id +:+ "/run" +:+ tail).
      apply test_suffix, test_suffix, test_suffix. exact Ht. }
    set (rest := host +:+ "/" +:+ id +:+ "/run" +:+ tail).
    change (scheme +:+ "//" +:+ rest) with (scheme +:+ String "/" (String "/" rest)).
    rewrite splitChar_segment by done. cbn [splitChar Ascii.eqb Bool.eqb].
    assert (nonEmpty (scheme +:+ String "/" (String "/" rest)) = true) as ->.
    { by destruct scheme. }
    done.
Qed.

Lemma run_link_runs_its_task_witness :
  RunLink.onClick (Some "/abc123/run?running=1") = RunLink.Prevented (Some "abc123") /\
  RunLink.onClick (Some "http://localhost:4000/abc123/run") = RunLink.Prevented None.
Proof.
  destruct (run_link_runs_its_task "abc123" "?running=1") as [H1 _];
    [discriminate | reflexivity | reflexivity |].
  destruct (run_link_runs_its_task "abc123" "") as [_ H2];
    [discriminate | reflexivity | reflexivity |].
  split; [exact H1|]. exact (H2 "http:" "localhost:4000" eq_refl).
Defined.

(** ** The list page after a deletion *)

Section PrunedFacts.
Import TaskList.


End PrunedFacts.



(** ** Importing the same document again *)

Section ImportAgain.
Import ExportImport.

(** What a put leaves under a key depends on that key only. *)
Lemma putTask_lookup t d j :
  tasks (putTask t d).1 !! j =
    match t with
    | JObj o => if decide (keyPath o = Some j) then Some o else tasks d !! j
    | _ => tasks d !! j
    end.
Proof.
  destruct t as [| | | | | |o]; try done. cbn [putTask]. unfold saveTask.
  destruct (keyPath o) as [k|] eqn:E; cbn [fst tasks].
  - rewrite lookup_insert. case_decide as Hk.
    + subst k. by rewrite decide_True.
    + rewrite decide_False; [done|]. congruence.
  - by rewrite decide_False.
Qed.

Lemma putResult_lookup r d j :
  results (putResult r d).1 !! j =
    match r with
    | JObj o => if decide (keyPath o = Some j) then Some o else results d !! j
    | _ => results d !! j
    end.
Proof.
  destruct r as [| | | | | |o]; try done. cbn [putResult]. unfold saveResult.
  destruct (keyPath o) as [k|] eqn:E; cbn [fst results].
  - rewrite lookup_insert. case_decide as Hk.
    + subst k. by rewrite decide_True.
    + rewrite decide_False; [done|]. congruence.
  - by rewrite decide_False.
Qed.

Lemma putTasks_pointwise ts d d' j :
  tasks d !! j = tasks d' !! j ->
  tasks (foldl (fun acc t => (putTask t acc).1) d ts) !! j
    = tasks (foldl (fun acc t => (putTask t acc).1) d' ts) !! j.
Proof.
  revert d d'. induction ts as [|t ts IH]; intros d d' H; cbn [foldl]; [done|].
  apply IH. rewrite !putTask_lookup. destruct t; try done. by case_decide.
Qed.

Lemma putResults_pointwise rs d d' j :
  results d !! j = results d' !! j ->
  results (foldl (fun acc r => (putResult r acc).1) d rs) !! j
    = results (foldl (fun acc r => (putResult r acc).1) d' rs) !! j.
Proof.
  revert d d'. induction rs as [|r rs IH]; intros d d' H; cbn [foldl]; [done|].
  apply IH. rewrite !putResult_lookup. destruct r; try done. by case_decide.
Qed.

Lemma putTasks_twice ts d j :
  tasks (foldl (fun acc t => (putTask t acc).1)
               (foldl (fun acc t => (putTask t acc).1) d ts) ts) !! j
    = tasks (foldl (fun acc t => (putTask t acc).1) d ts) !! j.
Proof.
  induction ts as [|x ts IH] using rev_ind; [done|].
  rewrite !foldl_app. cbn [foldl]. rewrite !putTask_lookup.
  set (e := (putTask x (foldl (fun acc t => (putTask t acc).1) d ts)).1).
  assert (tasks (foldl (fun acc t => (putTask t acc).1) e ts) !! j
          = match x with
            | JObj o => if decide (keyPath o = Some j) then
                          tasks (foldl (fun acc t => (putTask t acc).1) e ts) !! j
                        else tasks (foldl (fun acc t => (putTask t acc).1) d ts) !! j
            | _ => tasks (foldl (fun acc t => (putTask t acc).1) d ts) !! j
            end) as Hrest.
  { assert (match x with
            | JObj o => keyPath o = Some j
            | _ => False
            end \/ tasks e !! j
                   = tasks (foldl (fun acc t => (putTask t acc).1) d ts) !! j)
      as [Hx|He].
    { unfold e. rewrite putTask_lookup. destruct x; auto. case_decide; auto. }
    - destruct x; try done. by rewrite decide_True.
    - rewrite (putTasks_pointwise ts e _ j He), IH.
      destruct x; try done. by case_decide. }
  destruct x; try exact Hrest. case_decide; [done | exact Hrest].
Qed.

Lemma putResults_twice rs d j :
  results (foldl (fun acc r => (putResult r acc).1)
                 (foldl (fun acc r => (putResult r acc).1) d rs) rs) !! j
    = results (foldl (fun acc r => (putResult r acc).1) d rs) !! j.
Proof.
  induction rs as [|x rs IH] using rev_ind; [done|].
  rewrite !foldl_app. cbn [foldl]. rewrite !putResult_lookup.
  set (e := (putResult x (foldl (fun acc r => (putResult r acc).1) d rs)).1).
  assert (results (foldl (fun acc r => (putResult r acc).1) e rs) !! j
          = match x with
            | JObj o => if decide (keyPath o = Some j) then
                          results (foldl (fun acc r => (putResult r acc).1) e rs) !! j
                        else results (foldl (fun acc r => (putResult r acc).1) d rs) !! j
            | _ => results (foldl (fun acc r => (putResult r acc).1) d rs) !! j
            end) as Hrest.
  { assert (match x with
            | JObj o => keyPath o = Some j
            | _ => False
            end \/ results e !! j
                   = results (foldl (fun acc r => (putResult r acc).1) d rs) !! j)
      as [Hx|He].
    { unfold e. rewrite putResult_lookup. destruct x; auto. case_decide; auto. }
    - destruct x; try done. by rewrite decide_True.
    - rewrite (putResults_pointwise rs e _ j He), IH.
      destruct x; try done. by case_decide. }
  destruct x; try exact Hrest. case_decide; [done | exact Hrest].
Qed.

Lemma importRecords_twice doc d :
  importRecords doc (importRecords doc d) = importRecords doc d.
Proof.
  unfold importRecords.
  set (ts := arrayOrEmpty (member "tasks" doc)).
  set (rs := arrayOrEmpty (member "results" doc)).
  apply db_eq; apply map_eq; intros j.
  - rewrite !putResults_tasks.
    rewrite (putTasks_pointwise ts _ (foldl (fun acc t => (putTask t acc).1) d ts) j)
      by (by rewrite putResults_tasks).
    apply putTasks_twice.
  - rewrite (putResults_pointwise rs _
               (foldl (fun acc r => (putResult r acc).1)
                      (foldl (fun acc t => (putTask t acc).1) d ts) rs) j)
      by (by rewrite putTasks_results).
    apply putResults_twice.
Qed.

End ImportAgain.

(** X24. Importing the same file twice is importing it once: a
    second import of a document leaves the store exactly as the
    first import left it, whatever the document holds (records
    without id, several records with one id, values that are no
    objects), and shows the same effects. *)
Theorem import_is_idempotent (parsed : option jsval) (d : db) :
  ExportImport.onFileSelected parsed (ExportImport.onFileSelected parsed d).1
    = ExportImport.onFileSelected parsed d.
Proof.
  unfold ExportImport.onFileSelected.
  destruct parsed as [doc|]; [|done].
  destruct doc; try done; cbn [fst]; by rewrite importRecords_twice.
Qed.

(** ** The stored runs of a task *)

Section StoredRuns.

Lemma runTask_results fetch header resultId now taskId d task status report c :
  db_wf d ->
  tasks d !! taskId = Some task \/
    (tasks d !! taskId = None /\ RunManager.taskFromHeader taskId header = Some task) ->
  fetch (RunManager.buildPayload task) = RunManager.Response true status (Some report) ->
  report <> JUndef -> report <> JNull ->
  RunManager.countIssues report = Some c ->
  exists res,
    results (RunManager.runTask fetch header resultId now taskId d).1
      = <[resultId := res]> (results d) /\
    prop "task" res = JStr taskId.
Proof.
  intros Hwf Htask Hfetch Hu Hn Hc.
  assert (keyPath task = Some taskId) as Hk.
  { destruct Htask as [H|[_ H]]; [by apply (proj1 Hwf)|].
    by apply taskFromHeader_fresh in H as [H _]. }
  unfold RunManager.runTask, getTask. destruct Htask as [H|[H Hh]]; rewrite H.
  - rewrite Hfetch, (storeRun_ok _ _ _ _ _ _ _ Hk Hc Hu Hn). cbn [fst results].
    eexists. split; [reflexivity|]. reflexivity.
  - rewrite Hh, Hfetch, (saveTask_fulfilled _ _ _ Hk). cbn [fst].
    rewrite (storeRun_ok _ _ _ _ _ _ _ Hk Hc Hu Hn). cbn [fst results].
    eexists. split; [reflexivity|]. reflexivity.
Qed.

Lemma getResultsByTask_insert tid rid res d d' :
  results d !! rid = None ->
  results d' = <[rid := res]> (results d) ->
  getResultsByTask tid d' ≡ₚ
    (if belongsTo tid res then [res] else []) ++ getResultsByTask tid d.
Proof.
  intros Hfresh Hres. unfold getResultsByTask. rewrite Hres.
  rewrite (map_to_list_insert _ _ _ Hfresh). rewrite fmap_cons, filter_cons. cbn [snd].
  destruct (belongsTo tid res) eqn:E.
  - by rewrite decide_True.
  - by rewrite decide_False.
Qed.

End StoredRuns.

(** X25. Every run from the browser that succeeds with a result id
    that is not in the store yet adds exactly one stored run to its
    task and none to any other task, so that the number of runs shown
    for the task grows by one. *)
Theorem successful_run_adds_one_run
    (fetch : obj -> RunManager.fetched) (header : option RunManager.taskHeader)
    (resultId now taskId : string) (d : db)
    (task : obj) (status : Z) (report : jsval) (c : RunManager.counts) :
  db_wf d ->
  tasks d !! taskId = Some task \/
    (tasks d !! taskId = None /\ RunManager.taskFromHeader taskId header = Some task) ->
  fetch (RunManager.buildPayload task) = RunManager.Response true status (Some report) ->
  report <> JUndef -> report <> JNull ->
  RunManager.countIssues report = Some c ->
  results d !! resultId = None ->
  let d' := (RunManager.runTask fetch header resultId now taskId d).1 in
  (exists res,
     results d' !! resultId = Some res /\
     getResultsByTask (JStr taskId) d' ≡ₚ res :: getResultsByTask (JStr taskId) d) /\
  length (getResultsByTask (JStr taskId) d')
    = S (length (getResultsByTask (JStr taskId) d)) /\
  (forall other, other <> taskId ->
     getResultsByTask (JStr other) d' ≡ₚ getResultsByTask (JStr other) d).
Proof.
  intros Hwf Htask Hfetch Hu Hn Hc Hfresh d'.
  destruct (runTask_results fetch header resultId now taskId d task status report c
              Hwf Htask Hfetch Hu Hn Hc) as (res & Hres & Htid).
  fold d' in Hres.
  assert (getResultsByTask (JStr taskId) d' ≡ₚ res :: getResultsByTask (JStr taskId) d)
    as Hperm.
  { rewrite (getResultsByTask_insert _ _ _ _ _ Hfresh Hres).
    unfold belongsTo. rewrite Htid. cbn [strictEq]. by rewrite String.eqb_refl. }
  split; [|split].
  - exists res. split; [|exact Hperm]. rewrite Hres. apply lookup_insert_eq.
  - by rewrite Hperm.
  - intros other Hne. rewrite (getResultsByTask_insert _ _ _ _ _ Hfresh Hres).
    unfold belongsTo. rewrite Htid. cbn [strictEq].
    destruct (String.eqb taskId other) eqn:E; [|done].
    apply String.eqb_eq in E. congruence.
Qed.

Lemma successful_run_adds_one_run_witness :
  let task := [("id", JStr "T"); ("name", JStr "Home"); ("url", JStr "https://example.com");
               ("standard", JStr "WCAG2AA")] in
  let d := Db {["T" := task]} ∅ in
  let report := JObj [("issues", JArr [])] in
  let fetch := fun _ : obj => RunManager.Response true 200 (Some report) in
  db_wf d /\
  length (getResultsByTask (JStr "T")
            (RunManager.runTask fetch None "r1" "now" "T" d).1) = 1%nat.
Proof.
  intros task d report fetch.
  assert (db_wf d) as Hwf.
  { split; intros k o H; simpl in H.
    - apply lookup_singleton_Some in H as [<- <-]. reflexivity.
    - by rewrite lookup_empty in H. }
  split; [exact Hwf|].
  destruct (successful_run_adds_one_run fetch None "r1" "now" "T" d task 200 report
              (RunManager.Counts 0 0 0) Hwf) as (_ & H & _).
  - left. apply lookup_singleton_eq.
  - reflexivity.
  - discriminate.
  - discriminate.
  - reflexivity.
  - apply lookup_empty.
  - rewrite H. unfold getResultsByTask, d. cbn [results].
    by rewrite map_to_list_empty.
Defined.
